(** * Pet-grooming booking client: storage, gateway and duplicate-prevention logic

    A shallow embedding of the JavaScript sources
    - [js/firebase-db.js]             (module [FirebaseDb]),
    - [js/booking-security-logger.js] (module [BookingSecurityLogger]),
    - the storage manager              (module [StorageManager]),
    - the booking-flow fragments of the update notes (module [BookingFlow]),
    - [js/console-manager.js]         (module [ConsoleManager]),
    - the status helpers of [js/customer.js] (module [Customer]),
    - the global loader of [js/loading-manager.js] (module [LoadingManager]),
    followed by the properties proved about them.

    Conventions of the embedding
    - Module-level [let] variables and [localStorage] become fields of an
      explicit state that every operation takes and returns.
    - What the browser and the Firebase SDK decide (the clock, whether a
      [setItem] fits the quota, the outcome of a remote read or write) is an
      explicit environment record; theorems quantify over all of them.
    - An [async] function is run to completion: a rejected promise and a
      thrown exception are both the completion [Throw].
    - [localStorage] is kept up to JSON (de)serialisation: an entry is either
      a text, not the empty one, that [JSON.parse] rejects, or the value it
      parses to.
    - An object keeps the properties that this code reads or writes; where
      a caller hands over an object that is copied property by property,
      its properties whose value is [undefined] or [null] are kept apart.
    - A plain object that is filled key by key keeps the order of its keys,
      which is that of [Object.keys].
    - Timers are kept as the set of handles that are set and have neither
      fired nor been cleared; a timer coming due is an event of its own.
    - Strings are ASCII. *)

From Stdlib Require Import ZArith String Ascii List Bool Lia.
From stdpp Require Import base option list gmap strings pretty.

Local Open Scope string_scope.

(* ===================================================================== *)
(** * Part I: the embedded program                                        *)
(* ===================================================================== *)

(** ** JavaScript values *)

(** A JavaScript number as far as this code looks at it: the code only asks
    whether a cost is NaN and whether it is falsy. *)
Inductive jsnum : Type :=
  | Num (z : Z)
  | NaN
  | PosInf
  | NegInf.

Definition isNaN (n : jsnum) : bool :=
  match n with NaN => true | _ => false end.

Definition isFiniteNum (n : jsnum) : bool :=
  match n with Num _ => true | _ => false end.

(** Truthiness of a number: [0] and [NaN] are falsy. *)
Definition num_truthy (n : jsnum) : bool :=
  match n with
  | Num z => negb (z =? 0)%Z
  | NaN => false
  | PosInf | NegInf => true
  end.

(** [booking.cost]: every field may be missing ([None] is [undefined]). *)
Record Cost : Type := mkCost {
  subtotal : option jsnum;
  bookingFee : option jsnum;
  balanceOnVisit : option jsnum
}.

(** A JavaScript object, restricted to the properties this code reads or
    writes.  Bookings, groomers, users, log entries, history entries and
    action locks are all plain objects; a property that is absent is [None]. *)
Record jsobj : Type := mkObj {
  id : option string;
  userId : option string;
  name : option string;
  petName : option string;
  date : option string;
  time : option string;
  status : option string;
  action : option string;
  level : option string;
  sessionId : option string;
  createdAt : option Z;
  timestamp : option Z;
  startedAt : option Z;
  maxDailyBookings : option Z;
  serverGenerated : option bool;
  isActive : option bool;
  totalPrice : option jsnum;
  cost : option Cost
}.

Definition emptyObj : jsobj :=
  mkObj None None None None None None None None None None
        None None None None None None None None.

#[export] Instance jsnum_eq_dec : EqDecision jsnum.
Proof. solve_decision. Defined.
#[export] Instance Cost_eq_dec : EqDecision Cost.
Proof. solve_decision. Defined.
#[export] Instance jsobj_eq_dec : EqDecision jsobj.
Proof. solve_decision. Defined.

(** Values that [JSON.parse] can return here: [null], a boolean, a number, a
    string, an array or a dictionary object.  Members of a container are
    objects or [null] ([None]). *)
Inductive jsval : Type :=
  | VNull
  | VBool (b : bool)
  | VNum (z : Z)
  | VStr (s : string)
  | VArr (l : list (option jsobj))
  | VDict (d : gmap string (option jsobj)).

(** A [localStorage] entry: a text (not the empty one) for which
    [JSON.parse] throws a SyntaxError with the given message, or text that
    parses to a value. *)
Inductive stored : Type :=
  | Unparsable (msg : string)
  | Json (v : jsval).

(** An [Error] object: [name], [code] and [message]. *)
Record JsError : Type := mkError {
  err_name : string;
  err_code : option string;
  err_message : option string
}.

(** How a call ends. *)
Inductive completion (A : Type) : Type :=
  | Normal (a : A)
  | Throw (e : JsError).
Arguments Normal {A} a.
Arguments Throw {A} e.

Definition Error (msg : string) : JsError := mkError "Error" None (Some msg).
Definition TypeError (msg : string) : JsError := mkError "TypeError" None (Some msg).
Definition SyntaxError (msg : string) : JsError := mkError "SyntaxError" None (Some msg).

(** [a === b] on optional strings ([undefined === undefined] holds). *)
Definition strict_eq (a b : option string) : bool := bool_decide (a = b).

(** [list.includes(x)] for a list of string literals. *)
Definition includes_str (l : list string) (x : option string) : bool :=
  match x with
  | Some s => existsb (String.eqb s) l
  | None => false
  end.

(** [hay.includes(needle)] on strings. *)
Fixpoint str_includes (hay needle : string) : bool :=
  if String.prefix needle hay then true
  else match hay with
       | EmptyString => false
       | String _ rest => str_includes rest needle
       end.

Definition lower_ascii (c : ascii) : ascii :=
  let n := nat_of_ascii c in
  if (65 <=? n)%nat && (n <=? 90)%nat then ascii_of_nat (n + 32) else c.

Fixpoint toLowerCase (s : string) : string :=
  match s with
  | EmptyString => EmptyString
  | String c rest => String (lower_ascii c) (toLowerCase rest)
  end.

(** Template-literal interpolation of a possibly missing string. *)
Definition interpolate (o : option string) : string := default "undefined" o.

(** [arr && arr.length > 0]: an array with a member; a string with a
    character passes the test as well.  (A dictionary of records has no
    numeric [length].) *)
Definition arr_nonempty (v : jsval) : bool :=
  match v with
  | VArr (_ :: _) => true
  | VStr (String _ _) => true
  | _ => false
  end.

(** Truthiness of a parsed value. *)
Definition truthy (v : jsval) : bool :=
  match v with
  | VNull => false
  | VBool b => b
  | VNum z => negb (z =? 0)%Z
  | VStr s => negb (String.eqb s EmptyString)
  | VArr _ | VDict _ => true
  end.

(** [Object.keys(data).map(key => ({ id: key, ...data[key] }))]: the key is
    the id unless the child carries an [id] of its own. *)
Definition with_id (key : string) (o : jsobj) : jsobj :=
  match id o with
  | Some _ => o
  | None =>
      mkObj (Some key) (userId o) (name o) (petName o) (date o) (time o)
            (status o) (action o) (level o) (sessionId o) (createdAt o)
            (timestamp o) (startedAt o) (maxDailyBookings o)
            (serverGenerated o) (isActive o) (totalPrice o) (cost o)
  end.

Definition children_to_array (children : list (string * jsobj)) : list (option jsobj) :=
  map (fun kv => Some (with_id (fst kv) (snd kv))) children.

(** A value of the database that is not an object: a boolean, a number or a
    string. *)
Inductive primitive : Type :=
  | PBool (b : bool)
  | PNum (z : Z)
  | PStr (s : string).

(** The same expression when [data] is a primitive: a boolean or a number
    has no keys; the keys of a string are the indices of its characters,
    and spreading a character adds none of the properties kept here. *)
Definition leaf_to_array (data : primitive) : list (option jsobj) :=
  match data with
  | PStr s => map (fun i => Some (with_id (pretty i) emptyObj)) (seq 0 (String.length s))
  | PBool _ | PNum _ => []
  end.

(** The names of the properties kept in [jsobj]. *)
Inductive property : Type :=
  | P_id | P_userId | P_name | P_petName | P_date | P_time | P_status | P_action | P_level
  | P_sessionId | P_createdAt | P_timestamp | P_startedAt | P_maxDailyBookings
  | P_serverGenerated | P_isActive | P_totalPrice | P_cost.

#[export] Instance property_eq_dec : EqDecision property.
Proof. solve_decision. Defined.

(** An object handed over by a caller and used as the source of
    [Object.assign] or of a spread.  [given] holds its properties that
    carry a value; [voided] names its own properties whose value is
    [undefined] or [null]: they are copied like any other, and the target
    then reads as if the property were missing.  A name in [voided]
    overrides a value in [given]. *)
Record literal : Type := mkLiteral {
  given : jsobj;
  voided : list property
}.

(** An object all of whose properties carry a value. *)
Definition plain (o : jsobj) : literal := mkLiteral o [].

(** [source.p], where [value] is what [given] holds for [p]. *)
Definition read_property {A : Type} (source : literal) (p : property) (value : option A)
  : option A :=
  if bool_decide (p ∈ voided source) then None else value.

(** One property of [Object.assign(target, source)], or of the spread
    [{ ...target, ...source }]: an own property of the source replaces that
    of the target, also when its value is [undefined] or [null]. *)
Definition assigned {A : Type} (source : literal) (p : property) (target value : option A)
  : option A :=
  if bool_decide (p ∈ voided source) then None
  else match value with
       | Some x => Some x
       | None => target
       end.

(** [Object.assign(target, source)]; [{ ...target, ...source }] gives the
    same object. *)
Definition Object_assign (target : jsobj) (source : literal) : jsobj :=
  let o := given source in
  mkObj (assigned source P_id (id target) (id o))
        (assigned source P_userId (userId target) (userId o))
        (assigned source P_name (name target) (name o))
        (assigned source P_petName (petName target) (petName o))
        (assigned source P_date (date target) (date o))
        (assigned source P_time (time target) (time o))
        (assigned source P_status (status target) (status o))
        (assigned source P_action (action target) (action o))
        (assigned source P_level (level target) (level o))
        (assigned source P_sessionId (sessionId target) (sessionId o))
        (assigned source P_createdAt (createdAt target) (createdAt o))
        (assigned source P_timestamp (timestamp target) (timestamp o))
        (assigned source P_startedAt (startedAt target) (startedAt o))
        (assigned source P_maxDailyBookings (maxDailyBookings target) (maxDailyBookings o))
        (assigned source P_serverGenerated (serverGenerated target) (serverGenerated o))
        (assigned source P_isActive (isActive target) (isActive o))
        (assigned source P_totalPrice (totalPrice target) (totalPrice o))
        (assigned source P_cost (cost target) (cost o)).

(** ** Objects used as dictionaries *)

(** A plain object filled by [obj[key] = value]: its properties in the order
    in which they were created. *)
Definition properties : Type := list (string * jsobj).

(** [obj[key] = value]: a property that exists keeps its place and gets the
    new value, a new one goes last. *)
Fixpoint setProperty (key : string) (value : jsobj) (obj : properties) : properties :=
  match obj with
  | [] => [(key, value)]
  | (k, v) :: rest =>
      if String.eqb k key then (k, value) :: rest else (k, v) :: setProperty key value rest
  end.

Definition digit (c : ascii) : option N :=
  let n := N_of_ascii c in
  if (48 <=? n)%N && (n <=? 57)%N then Some (n - 48)%N else None.

Fixpoint numeral (acc : N) (s : string) : option N :=
  match s with
  | EmptyString => Some acc
  | String c rest =>
      match digit c with
      | Some d => numeral (10 * acc + d)%N rest
      | None => None
      end
  end.

(** A key that is an array index: the decimal numeral, without leading
    zeros, of an integer below 2^32 - 1. *)
Definition arrayIndex (key : string) : option N :=
  match key with
  | EmptyString => None
  | String c rest =>
      if Ascii.eqb c "0" && negb (String.eqb rest EmptyString) then None
      else match numeral 0 key with
           | Some n => if (n <? 4294967295)%N then Some n else None
           | None => None
           end
  end.

Fixpoint insertByIndex (n : N) (entry : string * jsobj) (sorted : list (N * (string * jsobj)))
  : list (N * (string * jsobj)) :=
  match sorted with
  | [] => [(n, entry)]
  | (m, e) :: rest =>
      if (n <? m)%N then (n, entry) :: (m, e) :: rest
      else (m, e) :: insertByIndex n entry rest
  end.

(** The properties whose keys are array indices, by ascending index. *)
Definition indexEntries (obj : properties) : list (string * jsobj) :=
  map snd (foldl (fun sorted entry =>
                    match arrayIndex (fst entry) with
                    | Some n => insertByIndex n entry sorted
                    | None => sorted
                    end) [] obj).

(** [Object.keys(obj)], each key with [obj[key]]: the array indices in
    ascending order, then the other keys in the order of their creation. *)
Definition Object_entries (obj : properties) : list (string * jsobj) :=
  indexEntries obj
  ++ List.filter (fun entry => negb (bool_decide (is_Some (arrayIndex (fst entry))))) obj.

(** ** The browser: clock and [localStorage] *)

(** One call on [localStorage] that changes it (or tries to). *)
Inductive LsOp : Type :=
  | OpSet (key : string) (value : stored) (ok : bool)
  | OpRemove (key : string).

(** [localStorage]: its entries and the mutating calls made so far, oldest
    first. *)
Record Storage : Type := mkStorage {
  items : gmap string stored;
  ops : list LsOp
}.

(** What the browser decides. [setItemError items k v] is the exception
    [localStorage.setItem(k, v)] throws on the store [items], if any;
    [Date_getTime d] is [new Date(d).getTime()], [None] being NaN. *)
Record Browser : Type := mkBrowser {
  now : Z;
  setItemError : gmap string stored -> string -> stored -> option JsError;
  Date_getTime : option string -> option Z
}.

Definition QuotaExceededError : JsError :=
  mkError "QuotaExceededError" None (Some "The quota has been exceeded.").

Definition getItem (ls : Storage) (key : string) : option stored := items ls !! key.

Definition setItem (br : Browser) (key : string) (value : stored) (ls : Storage)
  : completion unit * Storage :=
  match setItemError br (items ls) key value with
  | Some e => (Throw e, mkStorage (items ls) (ops ls ++ [OpSet key value false]))
  | None => (Normal tt, mkStorage (<[key := value]> (items ls)) (ops ls ++ [OpSet key value true]))
  end.

Definition removeItem (key : string) (ls : Storage) : Storage :=
  mkStorage (delete key (items ls)) (ops ls ++ [OpRemove key]).

(** [JSON.parse(localStorage.getItem(key) || fallback)] *)
Definition parse_or (fallback : jsval) (entry : option stored) : completion jsval :=
  match entry with
  | None => Normal fallback
  | Some (Unparsable msg) => Throw (SyntaxError msg)
  | Some (Json v) => Normal v
  end.

(** The objects of an array, or [None] when some member is [null]: a callback
    that reads a property of each member throws a TypeError on [null]. *)
Fixpoint all_objects (l : list (option jsobj)) : option (list jsobj) :=
  match l with
  | [] => Some []
  | Some o :: rest => option_map (cons o) (all_objects rest)
  | None :: _ => None
  end.

Definition null_member : JsError :=
  TypeError "Cannot read properties of null".

(** [array.filter(callback)] for a callback that reads a property of its
    argument. *)
Definition filter_members (keep : jsobj -> bool) (l : list (option jsobj))
  : completion (list jsobj) :=
  match all_objects l with
  | Some objs => Normal (List.filter keep objs)
  | None => Throw null_member
  end.

Definition objects (l : list jsobj) : list (option jsobj) := map Some l.

(** ** Booking flow: duplicate check and transaction reconciliation *)

Module BookingFlow.

Inductive Classification : Type := BLOCKED | ALLOWED.

(** The cancelled variants of the booking status. *)
Definition cancelledVariants : list string :=
  ["cancelledByCustomer"; "cancelledByAdmin"; "cancelledBySystem"].

(** Modelled from the spec: the test applied to each known booking when
    [submitBooking] computes [isDuplicate] ([js/booking.js], which is not
    part of the sources; the notes only show what is done with the
    result).  A known booking counts when it belongs to the acting user,
    has the same [petName], [date] and [time] (exact matches) and a status
    that is not a cancelled variant. *)
Definition duplicates (user booking existing : jsobj) : bool :=
  strict_eq (userId existing) (id user)
  && strict_eq (petName existing) (petName booking)
  && strict_eq (date existing) (date booking)
  && strict_eq (time existing) (time booking)
  && negb (includes_str cancelledVariants (status existing)).

(** Modelled from the spec: the scan itself ([isDuplicate] is computed in
    [js/booking.js], which is not part of the sources): the attempt is a
    duplicate when some known booking satisfies [duplicates]. *)
Definition isDuplicate (user : jsobj) (known : list jsobj) (booking : jsobj) : bool :=
  existsb (duplicates user booking) known.

(** What [submitBooking] can touch on the duplicate branch. *)
Record Ui : Type := mkUi {
  isSubmittingBooking : bool;
  loadingOverlay : bool;
  currentStep : Z;
  failedSubmissions : list (string * string);
  warnings : list (string * string);
  createdRecords : list jsobj
}.

Definition quote : string := String (ascii_of_nat 34) EmptyString.
Definition newline : string := String (ascii_of_nat 10) EmptyString.

Definition duplicateMessage (booking : jsobj) : string :=
  "You already have a pending booking for " ++ quote ++ interpolate (petName booking)
  ++ quote ++ " on " ++ interpolate (date booking) ++ " at " ++ interpolate (time booking)
  ++ "." ++ newline ++ newline ++ "Please select a different date.".

(** What the page defines around [submitBooking]: whether
    [typeof completeSubmissionFailed] and [typeof hideLoadingOverlay] are
    ['function']. *)
Record Helpers : Type := mkHelpers {
  completeSubmissionFailed : bool;
  hideLoadingOverlay : bool
}.

(** Truthiness of the submission token: a string that is not empty. *)
Definition truthyToken (submissionToken : option string) : option string :=
  match submissionToken with
  | Some tok => if String.eqb tok EmptyString then None else Some tok
  | None => None
  end.

(** The [if (isDuplicate) { ... return; }] block of [submitBooking]. *)
Definition onDuplicate (page : Helpers) (booking : jsobj) (submissionToken : option string)
           (ui : Ui) : Ui :=
  mkUi false
       (if hideLoadingOverlay page then false else loadingOverlay ui)
       4
       (match truthyToken submissionToken with
        | Some tok =>
            if completeSubmissionFailed page
            then failedSubmissions ui ++ [(tok, "Duplicate booking detected")]
            else failedSubmissions ui
        | None => failedSubmissions ui
        end)
       (warnings ui ++ [("Duplicate Booking", duplicateMessage booking)])
       (createdRecords ui).

(** [submitBooking] up to the duplicate gate.  On [ALLOWED] the function
    goes on to the creation path, which lies outside this fragment. *)
Definition submitBooking (page : Helpers) (user : jsobj) (known : list jsobj) (booking : jsobj)
           (submissionToken : option string) (ui : Ui) : Classification * Ui :=
  if isDuplicate user known booking
  then (BLOCKED, onDuplicate page booking submissionToken ui)
  else (ALLOWED, ui).

(** [result.snapshot]: [val()] is [null] ([None]) or the children in
    [Object.values] order. *)
Record DataSnapshot : Type := mkSnapshot {
  val : option (list (string * jsobj))
}.

(** The result of [runTransaction]. *)
Record TransactionResult : Type := mkResult {
  committed : bool;
  snapshot : option DataSnapshot
}.

(** The predicate given to [find] in [createBookingSecure]. *)
Definition isRecentBooking (user bookingData : jsobj) (dateNow : Z) (b : jsobj) : bool :=
  strict_eq (userId b) (id user)
  && strict_eq (date b) (date bookingData)
  && strict_eq (time b) (time bookingData)
  && strict_eq (petName b) (petName bookingData)
  && bool_decide (serverGenerated b = Some true)
  && match createdAt b with
     | Some c => (dateNow - c <? 10000)%Z
     | None => false
     end.

Definition duplicateFailure : JsError :=
  Error "Booking creation failed - possible duplicate detected".

(** The code of [createBookingSecure] that follows [runTransaction]:
    [None] stands for leaving the [if (!result.committed)] block, after
    which the function continues with the committed result. *)
Definition createBookingSecure_afterTransaction
           (user bookingData : jsobj) (dateNow : Z) (result : TransactionResult)
  : option (completion jsobj) :=
  if committed result then None
  else
    match snapshot result with
    | Some snap =>
        match val snap with
        | Some bookings =>
            match List.find (isRecentBooking user bookingData dateNow) (map snd bookings) with
            | Some recentBooking => Some (Normal recentBooking)
            | None => Some (Throw duplicateFailure)
            end
        | None => Some (Throw duplicateFailure)
        end
    | None => Some (Throw duplicateFailure)
    end.

End BookingFlow.

(** ** Remote booking gateway: [js/firebase-db.js] *)

Module FirebaseDb.

(** What is handed to the SDK's [set]. *)
Inductive payload : Type :=
  | PObj (o : jsobj)
  | PDict (d : gmap string jsobj).

(** Calls that leave the page: the Realtime Database [get] and [set], the
    externally provided [window.getUsersImpl] and the legacy Firestore read. *)
Inductive RemoteOp : Type :=
  | RGet (path : string)
  | RSet (path : string) (data : payload)
  | RImpl
  | RFirestore.

(** Outcome of [await get(ref)]: a snapshot of a node with children (none
    when [exists()] is false), a snapshot of a node that holds a primitive
    (such a node exists), or a rejection. *)
Inductive fetch : Type :=
  | Snapshot (children : list (string * jsobj))
  | Leaf (data : primitive)
  | Rejected (e : JsError).

(** What the Firebase side decides during one call. *)
Record Firebase : Type := mkFirebase {
  db : bool;                                     (* getDatabase() is not null *)
  remote_get : string -> fetch;                  (* await get(ref(db, path)) *)
  remote_set : string -> payload -> option JsError; (* await set(ref(db, path), data) *)
  getUsersImpl : option (completion jsval);      (* window.getUsersImpl, if a function *)
  firestoreUsers : option (completion (list jsobj)) (* db.collection('users').get(), if any *)
}.

(** The module-level variables, [window.firebaseWriteDenied],
    [localStorage], and a record of the remote calls and of the events
    dispatched on [window]. *)
Record State : Type := mkState {
  usersCache : jsval;
  usersCacheTime : Z;
  usersPermissionDenied : bool;
  bookingsCache : jsval;
  bookingsCacheTime : Z;
  bookingsPermissionDenied : bool;
  groomersCache : jsval;
  groomersCacheTime : Z;
  groomersPermissionDenied : bool;
  firebaseWriteDenied : bool;
  localStorage : Storage;
  remoteLog : list RemoteOp;
  dispatched : list (string * jsobj)
}.

Definition initial (ls : Storage) : State :=
  mkState VNull 0 false VNull 0 false VNull 0 false false ls [] [].

Definition USERS_CACHE_DURATION : Z := 60000.
Definition BOOKINGS_CACHE_DURATION : Z := 30000.
Definition GROOMERS_CACHE_DURATION : Z := 60000.

(** Assignments to the state. *)
Definition set_usersCache (v : jsval) (t : Z) (s : State) : State :=
  mkState v t (usersPermissionDenied s) (bookingsCache s) (bookingsCacheTime s)
          (bookingsPermissionDenied s) (groomersCache s) (groomersCacheTime s)
          (groomersPermissionDenied s) (firebaseWriteDenied s) (localStorage s)
          (remoteLog s) (dispatched s).
Definition set_usersPermissionDenied (s : State) : State :=
  mkState (usersCache s) (usersCacheTime s) true (bookingsCache s) (bookingsCacheTime s)
          (bookingsPermissionDenied s) (groomersCache s) (groomersCacheTime s)
          (groomersPermissionDenied s) (firebaseWriteDenied s) (localStorage s)
          (remoteLog s) (dispatched s).
Definition set_bookingsCache (v : jsval) (t : Z) (s : State) : State :=
  mkState (usersCache s) (usersCacheTime s) (usersPermissionDenied s) v t
          (bookingsPermissionDenied s) (groomersCache s) (groomersCacheTime s)
          (groomersPermissionDenied s) (firebaseWriteDenied s) (localStorage s)
          (remoteLog s) (dispatched s).
Definition set_bookingsPermissionDenied (s : State) : State :=
  mkState (usersCache s) (usersCacheTime s) (usersPermissionDenied s) (bookingsCache s)
          (bookingsCacheTime s) true (groomersCache s) (groomersCacheTime s)
          (groomersPermissionDenied s) (firebaseWriteDenied s) (localStorage s)
          (remoteLog s) (dispatched s).
Definition set_groomersCache (v : jsval) (t : Z) (s : State) : State :=
  mkState (usersCache s) (usersCacheTime s) (usersPermissionDenied s) (bookingsCache s)
          (bookingsCacheTime s) (bookingsPermissionDenied s) v t
          (groomersPermissionDenied s) (firebaseWriteDenied s) (localStorage s)
          (remoteLog s) (dispatched s).
Definition set_groomersPermissionDenied (s : State) : State :=
  mkState (usersCache s) (usersCacheTime s) (usersPermissionDenied s) (bookingsCache s)
          (bookingsCacheTime s) (bookingsPermissionDenied s) (groomersCache s)
          (groomersCacheTime s) true (firebaseWriteDenied s) (localStorage s)
          (remoteLog s) (dispatched s).
Definition set_firebaseWriteDenied (s : State) : State :=
  mkState (usersCache s) (usersCacheTime s) (usersPermissionDenied s) (bookingsCache s)
          (bookingsCacheTime s) (bookingsPermissionDenied s) (groomersCache s)
          (groomersCacheTime s) (groomersPermissionDenied s) true (localStorage s)
          (remoteLog s) (dispatched s).
Definition set_localStorage (ls : Storage) (s : State) : State :=
  mkState (usersCache s) (usersCacheTime s) (usersPermissionDenied s) (bookingsCache s)
          (bookingsCacheTime s) (bookingsPermissionDenied s) (groomersCache s)
          (groomersCacheTime s) (groomersPermissionDenied s) (firebaseWriteDenied s) ls
          (remoteLog s) (dispatched s).
Definition remote (calls : list RemoteOp) (s : State) : State :=
  mkState (usersCache s) (usersCacheTime s) (usersPermissionDenied s) (bookingsCache s)
          (bookingsCacheTime s) (bookingsPermissionDenied s) (groomersCache s)
          (groomersCacheTime s) (groomersPermissionDenied s) (firebaseWriteDenied s)
          (localStorage s) (remoteLog s ++ calls) (dispatched s).
Definition dispatchEvent (type : string) (detail : jsobj) (s : State) : State :=
  mkState (usersCache s) (usersCacheTime s) (usersPermissionDenied s) (bookingsCache s)
          (bookingsCacheTime s) (bookingsPermissionDenied s) (groomersCache s)
          (groomersCacheTime s) (groomersPermissionDenied s) (firebaseWriteDenied s)
          (localStorage s) (remoteLog s) (dispatched s ++ [(type, detail)]).

(** [e.code === 'PERMISSION_DENIED' ||
     (e.message && e.message.toLowerCase().includes('permission'))] *)
Definition isPermissionError (e : JsError) : bool :=
  bool_decide (err_code e = Some "PERMISSION_DENIED")
  || match err_message e with
     | Some m => negb (String.eqb m EmptyString) && str_includes (toLowerCase m) "permission"
     | None => false
     end.

(** [error.message && error.message.includes('Permission denied')] *)
Definition mentionsPermissionDenied (e : JsError) : bool :=
  match err_message e with
  | Some m => negb (String.eqb m EmptyString) && str_includes m "Permission denied"
  | None => false
  end.

(** *** Users *)

(** The last two stages of [getUsers]: Firestore, then [localStorage]. *)
Definition getUsers_fallbacks (fb : Firebase) (s : State) : completion jsval * State :=
  match firestoreUsers fb with
  | Some (Normal docs) => (Normal (VArr (objects docs)), remote [RFirestore] s)
  | Some (Throw _) => (Normal (VArr []), remote [RFirestore] s)
  | None =>
      match getItem (localStorage s) "users" with
      | Some (Json (VArr parsed)) => (Normal (VArr parsed), s)
      | Some (Json _) => (Normal (VArr []), s)
      | Some (Unparsable _) => (Normal (VArr []), s)
      | None => (Normal (VArr []), s)
      end
  end.

(** The Realtime Database stage of [getUsers] and what follows it. *)
Definition getUsers_realtime (br : Browser) (fb : Firebase) (s : State)
  : completion jsval * State :=
  if db fb then
    let s1 := remote [RGet "users"] s in
    match remote_get fb "users" with
    | Snapshot [] => (Normal (VArr []), s1)
    | Snapshot usersData => (Normal (VArr (children_to_array usersData)), s1)
    | Leaf usersData => (Normal (VArr (leaf_to_array usersData)), s1)
    | Rejected e =>
        if isPermissionError e then
          let s2 := set_usersPermissionDenied s1 in
          match parse_or (VArr []) (getItem (localStorage s2) "users") with
          | Normal localUsers => (Normal localUsers, set_usersCache localUsers (now br) s2)
          | Throw e2 => (Throw e2, s2)
          end
        else getUsers_fallbacks fb s1
    end
  else getUsers_fallbacks fb s.

Definition getUsers (br : Browser) (fb : Firebase) (s : State) : completion jsval * State :=
  if usersPermissionDenied s then
    (parse_or (VArr []) (getItem (localStorage s) "users"), s)
  else if truthy (usersCache s) && (now br - usersCacheTime s <? USERS_CACHE_DURATION)%Z then
    (Normal (usersCache s), s)
  else
    match getUsersImpl fb with
    | Some (Normal users) => (Normal users, set_usersCache users (now br) (remote [RImpl] s))
    | Some (Throw _) => getUsers_realtime br fb (remote [RImpl] s)
    | None => getUsers_realtime br fb s
    end.

(** *** Bookings *)

Definition updateBookingsCache (br : Browser) (bookings : list (option jsobj)) (s : State) : State :=
  let s1 := set_bookingsCache (VArr bookings) (now br) s in
  match setItem br "bookings" (Json (VArr bookings)) (localStorage s1) with
  | (Normal _, ls) => set_localStorage ls s1
  | (Throw _, ls) => set_localStorage (removeItem "bookings" ls) s1
  end.

(** The [catch (error)] block of [getBookings].  Its last resort reads
    [localBookings.length] for the console before it returns, which throws
    on [null]; the inner [catch] then answers [[]]. *)
Definition getBookings_catch (error : JsError) (s : State) : completion jsval * State :=
  let s1 := if mentionsPermissionDenied error then set_bookingsPermissionDenied s else s in
  if arr_nonempty (bookingsCache s1) then (Normal (bookingsCache s1), s1)
  else
    match parse_or (VArr []) (getItem (localStorage s1) "bookings") with
    | Normal VNull => (Normal (VArr []), s1)
    | Normal localBookings => (Normal localBookings, s1)
    | Throw _ => (Normal (VArr []), s1)
    end.

(** The [if (snapshot.exists())] block of [getBookings], [bookings] being
    the array made of the snapshot. *)
Definition getBookings_found (br : Browser) (bookings : list (option jsobj)) (s : State)
  : completion jsval * State :=
  let s2 := set_bookingsCache (VArr bookings) (now br) s in
  let ls := snd (setItem br "bookings" (Json (VArr bookings)) (localStorage s2)) in
  (Normal (VArr bookings), set_localStorage ls s2).

Definition getBookings (br : Browser) (fb : Firebase) (s : State) : completion jsval * State :=
  if bookingsPermissionDenied s then
    (parse_or (VArr []) (getItem (localStorage s) "bookings"), s)
  else if arr_nonempty (bookingsCache s)
          && (now br - bookingsCacheTime s <? BOOKINGS_CACHE_DURATION)%Z then
    (Normal (bookingsCache s), s)
  else if negb (db fb) then
    match parse_or (VArr []) (getItem (localStorage s) "bookings") with
    | Normal localBookings => (Normal localBookings, s)
    | Throw error => getBookings_catch error s
    end
  else
    let s1 := remote [RGet "bookings"] s in
    match remote_get fb "bookings" with
    | Snapshot [] => (Normal (VArr []), s1)
    | Snapshot bookingsData => getBookings_found br (children_to_array bookingsData) s1
    | Leaf bookingsData => getBookings_found br (leaf_to_array bookingsData) s1
    | Rejected error => getBookings_catch error s1
    end.

(** [booking.cost?.subtotal || 0] *)
Definition subtotal_or_zero (b : jsobj) : jsnum :=
  match cost b with
  | Some c =>
      match subtotal c with
      | Some n => if num_truthy n then n else Num 0
      | None => Num 0
      end
  | None => Num 0
  end.

Definition set_totalPrice (p : option jsnum) (o : jsobj) : jsobj :=
  mkObj (id o) (userId o) (name o) (petName o) (date o) (time o)
        (status o) (action o) (level o) (sessionId o) (createdAt o)
        (timestamp o) (startedAt o) (maxDailyBookings o)
        (serverGenerated o) (isActive o) p (cost o).
Definition set_cost (c : option Cost) (o : jsobj) : jsobj :=
  mkObj (id o) (userId o) (name o) (petName o) (date o) (time o)
        (status o) (action o) (level o) (sessionId o) (createdAt o)
        (timestamp o) (startedAt o) (maxDailyBookings o)
        (serverGenerated o) (isActive o) (totalPrice o) c.

(** [if (x !== undefined && isNaN(x))] *)
Definition defined_NaN (x : option jsnum) : bool :=
  match x with Some n => isNaN n | None => false end.

(** The three "Sanitize NaN values before saving" statements, which
    [saveBookings] and [updateBooking] both carry. *)
Definition sanitizeTotalPrice (b : jsobj) : jsobj :=
  if defined_NaN (totalPrice b) then set_totalPrice (Some (subtotal_or_zero b)) b else b.
Definition sanitizeSubtotal (b : jsobj) : jsobj :=
  match cost b with
  | Some c =>
      if defined_NaN (subtotal c)
      then set_cost (Some (mkCost (Some (Num 0)) (bookingFee c) (balanceOnVisit c))) b
      else b
  | None => b
  end.
Definition sanitizeBalanceOnVisit (b : jsobj) : jsobj :=
  match cost b with
  | Some c =>
      if defined_NaN (balanceOnVisit c)
      then set_cost (Some (mkCost (subtotal c) (bookingFee c) (Some (Num 0)))) b
      else b
  | None => b
  end.
Definition sanitize (b : jsobj) : jsobj :=
  sanitizeBalanceOnVisit (sanitizeSubtotal (sanitizeTotalPrice b)).

(** [bookingsObj[booking.id] = booking], on the sanitised booking. *)
Definition addBooking (obj : properties) (b : jsobj) : properties :=
  setProperty (interpolate (id b)) (sanitize b) obj.

(** The [forEach] that fills [bookingsObj]. *)
Definition bookingsObj (bookings : list jsobj) : properties :=
  foldl addBooking [] bookings.

Definition childPath (key : string) : string := "bookings/" ++ key.

Definition invalidateBookings (s : State) : State := set_bookingsCache VNull 0 s.

(** The outer [catch (error)] of [saveBookings] (the inner one, around the
    root write, does the same marking before rethrowing). *)
Definition markWriteDenied (error : JsError) (s : State) : State :=
  if isPermissionError error then set_firebaseWriteDenied s else s.

Definition saveBookings (fb : Firebase) (bookings : list jsobj) (s : State)
  : completion unit * State :=
  if negb (db fb) then
    let error := Error "Firebase Database not initialized" in
    (Throw error, markWriteDenied error s)
  else
    let obj := bookingsObj bookings in
    let children := Object_entries obj in
    let s1 := remote (map (fun kv => RSet (childPath (fst kv)) (PObj (snd kv))) children) s in
    let rejections :=
      omap (fun kv => remote_set fb (childPath (fst kv)) (PObj (snd kv))) children in
    match rejections with
    | [] => (Normal tt, invalidateBookings s1)
    | _ :: _ =>
        let s2 := remote [RSet "bookings" (PDict (list_to_map obj))] s1 in
        match remote_set fb "bookings" (PDict (list_to_map obj)) with
        | None => (Normal tt, invalidateBookings s2)
        | Some rootErr => (Throw rootErr, markWriteDenied rootErr (markWriteDenied rootErr s2))
        end
    end.

Definition createBooking (fb : Firebase) (booking : jsobj) (s : State)
  : completion jsobj * State :=
  if negb (db fb) then
    (Throw (Error "Firebase Database not initialized"), dispatchEvent "booking:created" booking s)
  else
    let s1 := remote [RSet (childPath (interpolate (id booking))) (PObj booking)] s in
    match remote_set fb (childPath (interpolate (id booking))) (PObj booking) with
    | Some err =>
        (Throw err, dispatchEvent "booking:created" booking (markWriteDenied err s1))
    | None => (Normal booking, dispatchEvent "booking:created" booking s1)
    end.

(** [!booking || !booking.id] *)
Definition missing_id (booking : option jsobj) : bool :=
  match booking with
  | Some b => match id b with
              | Some i => String.eqb i EmptyString
              | None => true
              end
  | None => true
  end.

Definition updateBooking (fb : Firebase) (booking : option jsobj) (s : State)
  : completion jsobj * State :=
  if negb (db fb) then
    let error := Error "Firebase Database not initialized" in
    (Throw error, markWriteDenied error s)
  else
    match booking with
    | Some b0 =>
        if missing_id booking then
          let error := Error "Invalid booking: missing id" in
          (Throw error, markWriteDenied error s)
        else
          let b := sanitize b0 in
          let path := childPath (interpolate (id b)) in
          let s1 := remote [RSet path (PObj b)] s in
          match remote_set fb path (PObj b) with
          | Some error => (Throw error, markWriteDenied error s1)
          | None => (Normal b, dispatchEvent "booking:updated" b (invalidateBookings s1))
          end
    | None =>
        let error := Error "Invalid booking: missing id" in
        (Throw error, markWriteDenied error s)
    end.

(** *** Groomers *)

Definition groomer (i n : string) : jsobj :=
  mkObj (Some i) None (Some n) None None None None None None None
        None None None (Some 5%Z) None (Some true) None None.

Definition DEFAULT_GROOMERS : list (option jsobj) :=
  [ Some (groomer "groomer-1" "Groomer 1");
    Some (groomer "groomer-2" "Groomer 2");
    Some (groomer "groomer-3" "Groomer 3") ].

(** [localGroomers && localGroomers.length > 0 ? localGroomers : DEFAULT_GROOMERS] *)
Definition local_or_default (localGroomers : jsval) : jsval :=
  if arr_nonempty localGroomers then localGroomers else VArr DEFAULT_GROOMERS.

(** The [catch (error)] block of [getGroomers]. *)
Definition getGroomers_catch (br : Browser) (error : JsError) (s : State)
  : completion jsval * State :=
  let s1 := if mentionsPermissionDenied error then set_groomersPermissionDenied s else s in
  match parse_or VNull (getItem (localStorage s1) "groomers") with
  | Normal localGroomers =>
      let result := local_or_default localGroomers in
      (Normal result, set_groomersCache result (now br) s1)
  | Throw e => (Throw e, s1)
  end.

(** The [if (snapshot.exists())] block of [getGroomers], [groomers] being
    the array made of the snapshot; an exception of [setItem] is caught by
    the [catch] block of the function. *)
Definition getGroomers_found (br : Browser) (groomers : list (option jsobj)) (s : State)
  : completion jsval * State :=
  let s2 := set_groomersCache (VArr groomers) (now br) s in
  match setItem br "groomers" (Json (VArr groomers)) (localStorage s2) with
  | (Normal _, ls) => (Normal (VArr groomers), set_localStorage ls s2)
  | (Throw error, ls) => getGroomers_catch br error (set_localStorage ls s2)
  end.

Definition getGroomers (br : Browser) (fb : Firebase) (s : State) : completion jsval * State :=
  if groomersPermissionDenied s then
    match parse_or VNull (getItem (localStorage s) "groomers") with
    | Normal localGroomers => (Normal (local_or_default localGroomers), s)
    | Throw e => (Throw e, s)
    end
  else if arr_nonempty (groomersCache s)
          && (now br - groomersCacheTime s <? GROOMERS_CACHE_DURATION)%Z then
    (Normal (groomersCache s), s)
  else if negb (db fb) then
    match parse_or VNull (getItem (localStorage s) "groomers") with
    | Normal localGroomers => (Normal (local_or_default localGroomers), s)
    | Throw error => getGroomers_catch br error s
    end
  else
    let s1 := remote [RGet "groomers"] s in
    match remote_get fb "groomers" with
    | Snapshot [] => (Normal (VArr DEFAULT_GROOMERS), s1)
    | Snapshot groomersData => getGroomers_found br (children_to_array groomersData) s1
    | Leaf groomersData => getGroomers_found br (leaf_to_array groomersData) s1
    | Rejected error => getGroomers_catch br error s1
    end.

(** *** A session: any sequence of gateway calls *)

(** One step of a session: a call of the gateway, each with the
    environment it runs in, or other code of the page rewriting
    [localStorage]. *)
Inductive call : Type :=
  | CallGetUsers (br : Browser) (fb : Firebase)
  | CallGetBookings (br : Browser) (fb : Firebase)
  | CallGetGroomers (br : Browser) (fb : Firebase)
  | CallSaveBookings (fb : Firebase) (bookings : list jsobj)
  | CallCreateBooking (fb : Firebase) (booking : jsobj)
  | CallUpdateBooking (fb : Firebase) (booking : option jsobj)
  | CallUpdateBookingsCache (br : Browser) (bookings : list (option jsobj))
  | OtherStorageUse (ls : Storage).

Definition step (c : call) (s : State) : State :=
  match c with
  | CallGetUsers br fb => snd (getUsers br fb s)
  | CallGetBookings br fb => snd (getBookings br fb s)
  | CallGetGroomers br fb => snd (getGroomers br fb s)
  | CallSaveBookings fb bookings => snd (saveBookings fb bookings s)
  | CallCreateBooking fb booking => snd (createBooking fb booking s)
  | CallUpdateBooking fb booking => snd (updateBooking fb booking s)
  | CallUpdateBookingsCache br bookings => updateBookingsCache br bookings s
  | OtherStorageUse ls => set_localStorage ls s
  end.

Definition session (calls : list call) (s : State) : State :=
  foldl (fun st c => step c st) s calls.

(** *** Users, groomers and packages: writes *)

(** [obj[o.id] = o] for each member, in order. *)
Definition indexById (l : list jsobj) : gmap string jsobj :=
  foldl (fun obj o => <[interpolate (id o) := o]> obj) ∅ l.

(** The [catch (error)] block that [saveUsers], [saveGroomers] and
    [savePackages] each carry: mark the write denial, then store [text]
    under [key] once more, ignoring a failure. *)
Definition persistAnyway (br : Browser) (key : string) (text : stored) (error : JsError)
           (s : State) : State :=
  let s1 := markWriteDenied error s in
  set_localStorage (snd (setItem br key text (localStorage s1))) s1.

(** [localStorage.setItem(key, text)] inside the [try] of a save. *)
Definition persist (br : Browser) (key : string) (text : stored) (s : State)
  : completion unit * State :=
  match setItem br key text (localStorage s) with
  | (Normal _, ls) => (Normal tt, set_localStorage ls s)
  | (Throw error, ls) => (Normal tt, persistAnyway br key text error (set_localStorage ls s))
  end.

Definition saveUsers (br : Browser) (fb : Firebase) (users : list jsobj) (s : State)
  : completion unit * State :=
  let text := Json (VArr (objects users)) in
  if negb (db fb) || firebaseWriteDenied s then persist br "users" text s
  else
    let usersObj := indexById users in
    let s1 := remote [RSet "users" (PDict usersObj)] s in
    match remote_set fb "users" (PDict usersObj) with
    | None => persist br "users" text s1
    | Some error => (Normal tt, persistAnyway br "users" text error s1)
    end.

Definition saveGroomers (br : Browser) (fb : Firebase) (groomers : list jsobj) (s : State)
  : completion unit * State :=
  let text := Json (VArr (objects groomers)) in
  if negb (db fb) || firebaseWriteDenied s then persist br "groomers" text s
  else
    let groomersObj := indexById groomers in
    let s1 := remote [RSet "groomers" (PDict groomersObj)] s in
    match remote_set fb "groomers" (PDict groomersObj) with
    | None => persist br "groomers" text s1
    | Some error => (Normal tt, persistAnyway br "groomers" text error s1)
    end.

(** [JSON.stringify(packagesObj)] *)
Definition dictionary (obj : gmap string jsobj) : stored := Json (VDict (Some <$> obj)).

Definition savePackages (br : Browser) (fb : Firebase) (packages : list jsobj) (s : State)
  : completion unit * State :=
  let packagesObj := indexById packages in
  if negb (db fb) || firebaseWriteDenied s then persist br "packages" (dictionary packagesObj) s
  else
    let s1 := remote [RSet "packages" (PDict packagesObj)] s in
    match remote_set fb "packages" (PDict packagesObj) with
    | None => persist br "packages" (dictionary packagesObj) s1
    | Some error => (Normal tt, persistAnyway br "packages" (dictionary packagesObj) error s1)
    end.

(** *** Packages and uplift requests: reads *)

(** The shape that [getPackages] and [getUpliftRequests] share: the local
    copy when there is no database or the read fails, else the children of
    the snapshot with their keys as ids. *)
Definition getCollection (key : string) (fb : Firebase) (s : State) : completion jsval * State :=
  if negb (db fb) then
    match parse_or (VArr []) (getItem (localStorage s) key) with
    | Normal v => (Normal v, s)
    | Throw _ => (parse_or (VArr []) (getItem (localStorage s) key), s)
    end
  else
    let s1 := remote [RGet key] s in
    match remote_get fb key with
    | Snapshot [] => (Normal (VArr []), s1)
    | Snapshot data => (Normal (VArr (children_to_array data)), s1)
    | Leaf data => (Normal (VArr (leaf_to_array data)), s1)
    | Rejected _ => (parse_or (VArr []) (getItem (localStorage s1) key), s1)
    end.

Definition getPackages (fb : Firebase) (s : State) : completion jsval * State :=
  getCollection "packages" fb s.

Definition getUpliftRequests (fb : Firebase) (s : State) : completion jsval * State :=
  getCollection "upliftRequests" fb s.

(** *** Uplift requests: update *)

(** Outcome of [await get(ref(db, `upliftRequests/${id}`))]: the record
    ([None] when [exists()] is false) or a rejection. *)
Inductive fetchRecord : Type :=
  | Found (record : option jsobj)
  | NotRead (e : JsError).

(** [existing.findIndex(r => r.id === id)]: the index, with the member
    found there ([None] for -1), or the TypeError of reading the [id] of a
    [null] member met on the way. *)
Fixpoint findIndexById (idv : string) (existing : list (option jsobj))
  : completion (option (nat * jsobj)) :=
  match existing with
  | [] => Normal None
  | None :: _ => Throw null_member
  | Some r :: rest =>
      if strict_eq (id r) (Some idv) then Normal (Some (0%nat, r))
      else match findIndexById idv rest with
           | Normal (Some (idx, found)) => Normal (Some (S idx, found))
           | other => other
           end
  end.

Definition upliftPath (idv : string) : string := "upliftRequests/" ++ idv.

(** [updateUpliftRequest(id, updates)]; [current] is what the database
    answers when asked for the record. *)
Definition updateUpliftRequest (br : Browser) (fb : Firebase) (current : fetchRecord)
           (idv : string) (updates : literal) (s : State) : completion (option jsobj) * State :=
  if negb (db fb) then
    match parse_or (VArr []) (getItem (localStorage s) "upliftRequests") with
    | Throw err => (Throw err, s)
    | Normal (VArr existing) =>
        match findIndexById idv existing with
        | Throw err => (Throw err, s)
        | Normal None => (Normal None, s)
        | Normal (Some (idx, r)) =>
            let merged := Object_assign r updates in
            let text := Json (VArr (<[idx := Some merged]> existing)) in
            match setItem br "upliftRequests" text (localStorage s) with
            | (Normal _, ls) => (Normal (Some merged), set_localStorage ls s)
            | (Throw err, ls) => (Throw err, set_localStorage ls s)
            end
        end
    | Normal VNull => (Throw null_member, s)
    | Normal _ => (Throw (TypeError "existing.findIndex is not a function"), s)
    end
  else
    let s1 := remote [RGet (upliftPath idv)] s in
    match current with
    | NotRead err => (Throw err, s1)
    | Found record =>
        let merged := Object_assign (default emptyObj record) updates in
        let s2 := remote [RSet (upliftPath idv) (PObj merged)] s1 in
        match remote_set fb (upliftPath idv) (PObj merged) with
        | Some err => (Throw err, s2)
        | None => (Normal (Some merged), s2)
        end
    end.

(** *** The real-time listener for bookings *)

(** The snapshot handler that [setupBookingsListener] registers with
    [onValue]: it refreshes the cache and hands the array to [callback]. *)
Definition onBookingsValue (br : Browser) (snapshot : list (string * jsobj)) (s : State)
  : list (option jsobj) * State :=
  match snapshot with
  | [] => ([], updateBookingsCache br [] s)
  | bookingsData =>
      let bookingsArray := children_to_array bookingsData in
      (bookingsArray, updateBookingsCache br bookingsArray s)
  end.

End FirebaseDb.

(** ** Storage manager *)

Module StorageManager.

(** Max age for the different data types, in days. *)
Record MaxAge : Type := mkMaxAge {
  bookings : Z;
  bookingHistory : Z;
  securityLogs : Z;
  actionLocks : Z
}.

Definition MAX_AGE : MaxAge := mkMaxAge 90 30 7 1.

(** [days * 24 * 60 * 60 * 1000] *)
Definition days_ms (days : Z) : Z := (days * 24 * 60 * 60 * 1000)%Z.

Definition cutoffDate (br : Browser) (days : Z) : Z := (now br - days_ms days)%Z.

(** *** Old bookings *)

Record BookingsCleanup : Type := mkBookingsCleanup {
  removed : Z;
  archived : Z;
  error : option (option string)      (* the [error] property, when present *)
}.

(** [booking.createdAt || new Date(booking.date).getTime()], [None] for NaN. *)
Definition bookingDate (br : Browser) (booking : jsobj) : option Z :=
  match createdAt booking with
  | Some c => if (c =? 0)%Z then Date_getTime br (date booking) else Some c
  | None => Date_getTime br (date booking)
  end.

Definition isOld (br : Browser) (booking : jsobj) : bool :=
  match bookingDate br booking with
  | Some t => (t <? cutoffDate br (bookings MAX_AGE))%Z
  | None => false
  end.

Definition isCompleted (booking : jsobj) : bool :=
  includes_str ["completed"; "cancelled"; "no-show"] (status booking).

(** The callback of [bookings.filter]. *)
Definition keepBooking (br : Browser) (booking : jsobj) : bool :=
  negb (isOld br booking && isCompleted booking).

Definition cleanupOldBookings_try (br : Browser) (ls : Storage)
  : completion BookingsCleanup * Storage :=
  match getItem ls "bookings" with
  | None => (Normal (mkBookingsCleanup 0 0 None), ls)
  | Some (Unparsable msg) => (Throw (SyntaxError msg), ls)
  | Some (Json (VArr l)) =>
      match filter_members (keepBooking br) l with
      | Throw e => (Throw e, ls)
      | Normal activeBookings =>
          let n := (Z.of_nat (length l) - Z.of_nat (length activeBookings))%Z in
          if (0 <? n)%Z then
            match setItem br "bookings" (Json (VArr (objects activeBookings))) ls with
            | (Throw e, ls') => (Throw e, ls')
            | (Normal _, ls') => (Normal (mkBookingsCleanup 0 n None), ls')
            end
          else (Normal (mkBookingsCleanup 0 n None), ls)
      end
  | Some (Json _) => (Normal (mkBookingsCleanup 0 0 None), ls)
  end.

Definition cleanupOldBookings (br : Browser) (ls : Storage)
  : completion BookingsCleanup * Storage :=
  match cleanupOldBookings_try br ls with
  | (Throw e, ls') => (Normal (mkBookingsCleanup 0 0 (Some (err_message e))), ls')
  | done => done
  end.

(** *** Booking history *)

(** [entry.timestamp || entry.createdAt || 0] *)
Definition entryDate (entry : jsobj) : Z :=
  match timestamp entry with
  | Some t => if (t =? 0)%Z then default 0%Z (createdAt entry) else t
  | None => default 0%Z (createdAt entry)
  end.

Definition keepEntry (br : Browser) (entry : jsobj) : bool :=
  (cutoffDate br (bookingHistory MAX_AGE) <? entryDate entry)%Z.

(** The common shape of [cleanupBookingHistory] and [cleanupSecurityLogs]:
    parse the array under [key], filter it, write it back when something
    was removed, return the number removed. *)
Definition cleanupArray_try (br : Browser) (key : string) (keep : jsobj -> bool) (ls : Storage)
  : completion Z * Storage :=
  match getItem ls key with
  | None => (Normal 0%Z, ls)
  | Some (Unparsable msg) => (Throw (SyntaxError msg), ls)
  | Some (Json (VArr l)) =>
      match filter_members keep l with
      | Throw e => (Throw e, ls)
      | Normal filtered =>
          let n := (Z.of_nat (length l) - Z.of_nat (length filtered))%Z in
          if (0 <? n)%Z then
            match setItem br key (Json (VArr (objects filtered))) ls with
            | (Throw e, ls') => (Throw e, ls')
            | (Normal _, ls') => (Normal n, ls')
            end
          else (Normal n, ls)
      end
  | Some (Json _) => (Normal 0%Z, ls)
  end.

(** [try { ... } catch (e) { return 0; }] *)
Definition catch_zero (r : completion Z * Storage) : completion Z * Storage :=
  match r with
  | (Throw _, ls') => (Normal 0%Z, ls')
  | done => done
  end.

Definition cleanupBookingHistory (br : Browser) (ls : Storage) : completion Z * Storage :=
  catch_zero (cleanupArray_try br "bookingHistory" (keepEntry br) ls).

(** *** Security logs *)

(** [log.timestamp > cutoffDate] *)
Definition keepLog (br : Browser) (log : jsobj) : bool :=
  match timestamp log with
  | Some t => (cutoffDate br (securityLogs MAX_AGE) <? t)%Z
  | None => false
  end.

Definition cleanupSecurityLogs (br : Browser) (ls : Storage) : completion Z * Storage :=
  catch_zero (cleanupArray_try br "bookingSecurityLogs" (keepLog br) ls).

(** *** Action locks *)

(** [locks[key].startedAt < cutoffDate] *)
Definition staleLock (br : Browser) (lock : jsobj) : bool :=
  match startedAt lock with
  | Some t => (t <? cutoffDate br (actionLocks MAX_AGE))%Z
  | None => false
  end.

Definition staleMember (br : Browser) (member : option jsobj) : bool :=
  match member with
  | Some lock => staleLock br lock
  | None => false
  end.

(** [delete locks[key]] on an array leaves a hole, which is stored as
    [null]. *)
Definition punch (br : Browser) (member : option jsobj) : option jsobj :=
  if staleMember br member then None else member.

Definition cleanupActionLocks_try (br : Browser) (ls : Storage) : completion Z * Storage :=
  match getItem ls "actionLocks" with
  | None => (Normal 0%Z, ls)
  | Some (Unparsable msg) => (Throw (SyntaxError msg), ls)
  | Some (Json (VBool _)) | Some (Json (VNum _)) | Some (Json (VStr _)) => (Normal 0%Z, ls)
  | Some (Json VNull) => (Throw (TypeError "Cannot convert undefined or null to object"), ls)
  | Some (Json (VDict locks)) =>
      if bool_decide (map_Forall (fun _ member => is_Some member) locks) then
        let kept := filter (fun kv => staleMember br (snd kv) = false) locks in
        let n := (Z.of_nat (size locks) - Z.of_nat (size kept))%Z in
        if (0 <? n)%Z then
          match setItem br "actionLocks" (Json (VDict kept)) ls with
          | (Throw e, ls') => (Throw e, ls')
          | (Normal _, ls') => (Normal n, ls')
          end
        else (Normal n, ls)
      else (Throw null_member, ls)
  | Some (Json (VArr locks)) =>
      match all_objects locks with
      | Some _ =>
          let n := Z.of_nat (length (List.filter (staleMember br) locks)) in
          if (0 <? n)%Z then
            match setItem br "actionLocks" (Json (VArr (map (punch br) locks))) ls with
            | (Throw e, ls') => (Throw e, ls')
            | (Normal _, ls') => (Normal n, ls')
            end
          else (Normal n, ls)
      | None => (Throw null_member, ls)
      end
  end.

Definition cleanupActionLocks (br : Browser) (ls : Storage) : completion Z * Storage :=
  catch_zero (cleanupActionLocks_try br ls).

(** *** The sweep *)

Record Results : Type := mkResults {
  res_bookings : BookingsCleanup;
  res_history : Z;
  res_logs : Z;
  res_locks : Z
}.

(** Sequencing of calls: an exception of the first aborts the rest. *)
Definition andThen {A B : Type} (r : completion A * Storage)
           (k : A -> Storage -> completion B * Storage) : completion B * Storage :=
  match r with
  | (Normal a, ls) => k a ls
  | (Throw e, ls) => (Throw e, ls)
  end.

Definition cleanupStaleData (br : Browser) (ls : Storage) : completion Results * Storage :=
  andThen (cleanupOldBookings br ls) (fun b ls1 =>
  andThen (cleanupBookingHistory br ls1) (fun h ls2 =>
  andThen (cleanupSecurityLogs br ls2) (fun l ls3 =>
  andThen (cleanupActionLocks br ls3) (fun k ls4 =>
  (Normal (mkResults b h l k), ls4))))).

(** *** Immediate writes and the emergency cleanup *)

Definition essentialStatus (b : jsobj) : bool :=
  includes_str ["pending"; "confirmed"; "in-progress"] (status b).

(** The [try] block of step 5 of [emergencyCleanup]. *)
Definition trimBookings_try (br : Browser) (ls : Storage) : completion unit * Storage :=
  match parse_or (VArr []) (getItem ls "bookings") with
  | Throw e => (Throw e, ls)
  | Normal (VArr l) =>
      match filter_members essentialStatus l with
      | Throw e => (Throw e, ls)
      | Normal essential => setItem br "bookings" (Json (VArr (objects essential))) ls
      end
  | Normal _ => (Throw (TypeError "bookings.filter is not a function"), ls)
  end.

Definition emergencyCleanup (br : Browser) (ls : Storage) : Storage :=
  let ls1 := removeItem "bookingSecurityLogs" ls in
  let ls2 := removeItem "actionLocks" ls1 in
  let ls3 := removeItem "bookingSubmissionStatus" ls2 in
  let ls4 := removeItem "bookingHistory" ls3 in
  match trimBookings_try br ls4 with
  | (Normal _, ls5) => ls5
  | (Throw _, ls5) => removeItem "bookings" ls5
  end.

(** The value handed to a write: the text it serialises to (a string is
    stored as it is), or the exception [JSON.stringify] throws on it. *)
Inductive jsarg : Type :=
  | Serializable (text : stored)
  | Unserializable (e : JsError).

(** [serialized = ...; localStorage.setItem(key, serialized)] *)
Definition serializeAndSet (br : Browser) (key : string) (value : jsarg) (ls : Storage)
  : completion unit * Storage :=
  match value with
  | Serializable text => setItem br key text ls
  | Unserializable e => (Throw e, ls)
  end.

Definition writeImmediate (br : Browser) (key : string) (value : jsarg) (ls : Storage)
  : completion bool * Storage :=
  match serializeAndSet br key value ls with
  | (Normal _, ls1) => (Normal true, ls1)
  | (Throw e, ls1) =>
      if String.eqb (err_name e) "QuotaExceededError" then
        let ls2 := emergencyCleanup br ls1 in
        match serializeAndSet br key value ls2 with
        | (Normal _, ls3) => (Normal true, ls3)
        | (Throw _, ls3) => (Normal false, ls3)
        end
      else (Normal false, ls1)
  end.

(** *** Reading *)

(** [read(key, defaultValue)] *)
Definition read (key : string) (defaultValue : jsval) (ls : Storage) : jsval :=
  match getItem ls key with
  | None => defaultValue
  | Some (Json v) => v
  | Some (Unparsable _) => defaultValue
  end.

(** *** Batched writes *)

(** [map.set(key, value)] on a [Map], kept in insertion order: a key that is
    present keeps its place and gets the new value, a new key goes last. *)
Fixpoint Map_set {V : Type} (key : string) (value : V) (m : list (string * V))
  : list (string * V) :=
  match m with
  | [] => [(key, value)]
  | (k, v) :: rest =>
      if String.eqb k key then (k, value) :: rest else (k, v) :: Map_set key value rest
  end.

(** The write queue, its timer, the timers of the page and [localStorage].
    [setTimeout] hands out the handles 1, 2, 3, ...; [issued] is the last one
    handed out and [pending] holds the timers that are set and have neither
    fired nor been cleared.  Every timer of this object runs [flushWrites]. *)
Record Batcher : Type := mkBatcher {
  _writeQueue : list (string * jsarg);
  _writeTimeout : option nat;
  issued : nat;
  pending : gset nat;
  localStorage : Storage
}.

Definition _batchDelay : Z := 500.

(** [clearTimeout(handle)] *)
Definition clearTimeout (handle : nat) (timers : gset nat) : gset nat :=
  timers ∖ {[ handle ]}.

Definition queueWrite (key : string) (value : jsarg) (b : Batcher) : Batcher :=
  let queue := Map_set key value (_writeQueue b) in
  let timers := match _writeTimeout b with
                | Some handle => clearTimeout handle (pending b)
                | None => pending b
                end in
  let handle := S (issued b) in
  mkBatcher queue (Some handle) handle ({[ handle ]} ∪ timers) (localStorage b).

(** The callback of [_writeQueue.forEach] in [flushWrites]. *)
Definition flushEntry (br : Browser) (ls : Storage) (entry : string * jsarg) : Storage :=
  match serializeAndSet br (fst entry) (snd entry) ls with
  | (Normal _, ls1) => ls1
  | (Throw e, ls1) =>
      if String.eqb (err_name e) "QuotaExceededError" then
        let ls2 := emergencyCleanup br ls1 in
        match serializeAndSet br (fst entry) (snd entry) ls2 with
        | (Normal _, ls3) => ls3
        | (Throw _, ls3) => ls3
        end
      else ls1
  end.

Definition flushWrites (br : Browser) (b : Batcher) : Batcher :=
  match _writeQueue b with
  | [] => b
  | queue =>
      mkBatcher [] None (issued b) (pending b) (foldl (flushEntry br) (localStorage b) queue)
  end.

(** The timer [handle] comes due: if it is still pending, its callback
    [() => this.flushWrites()] runs. *)
Definition timerFires (br : Browser) (handle : nat) (b : Batcher) : Batcher :=
  if bool_decide (handle ∈ pending b) then
    flushWrites br (mkBatcher (_writeQueue b) (_writeTimeout b) (issued b)
                              (pending b ∖ {[ handle ]}) (localStorage b))
  else b.

(** *** Removing keys *)

(** [Object.keys(localStorage)]: the keys of the store, each once, in an order
    that the browser chooses. *)
Record KeyOrder : Type := mkKeyOrder {
  Object_keys : gmap string stored -> list string;
  Object_keys_spec : forall m, Object_keys m ≡ₚ (map_to_list m).*1
}.

(** [key.startsWith(p)] *)
Definition startsWith (key p : string) : bool := String.prefix p key.

Definition unusedKeys : list string :=
  ["debug_mode"; "temp_booking"; "form_draft"; "old_bookings"; "legacy_users";
   "test_data"; "_temp"; "undefined"].

(** The first [forEach] of [removeUnusedKeys]. *)
Definition removeIfPresent (acc : Z * Storage) (key : string) : Z * Storage :=
  match getItem (snd acc) key with
  | Some _ => ((fst acc + 1)%Z, removeItem key (snd acc))
  | None => acc
  end.

Definition isTemporaryKey (key : string) : bool :=
  startsWith key "temp_" || startsWith key "_temp" || String.eqb key "undefined".

(** The second [forEach] of [removeUnusedKeys]. *)
Definition removeIfTemporary (acc : Z * Storage) (key : string) : Z * Storage :=
  if isTemporaryKey key then ((fst acc + 1)%Z, removeItem key (snd acc)) else acc.

Definition removeUnusedKeys (ko : KeyOrder) (ls : Storage) : Z * Storage :=
  let first := foldl removeIfPresent (0%Z, ls) unusedKeys in
  let allKeys := Object_keys ko (items (snd first)) in
  foldl removeIfTemporary first allKeys.

Definition appKeys : list string :=
  ["currentUser"; "users"; "bookings"; "packages"; "groomers";
   "referenceCuts"; "customerProfiles"; "staffAbsences";
   "bookingHistory"; "calendarBlackouts"; "upliftRequests";
   "bookingSubmissionStatus"; "actionLocks"; "bookingSecurityLogs"].

Definition removeIfUserCache (ls : Storage) (key : string) : Storage :=
  if startsWith key "firebase_user_" then removeItem key ls else ls.

Definition clearAll (ko : KeyOrder) (ls : Storage) : Storage :=
  let ls1 := foldl (fun l key => removeItem key l) ls appKeys in
  foldl removeIfUserCache ls1 (Object_keys ko (items ls1)).

End StorageManager.

(** ** Security logger: [js/booking-security-logger.js] *)

Module BookingSecurityLogger.

Definition STORAGE_KEY : string := "bookingSecurityLogs".
Definition MAX_LOGS : nat := 100.
Definition _cacheDuration : Z := 5000.

(** [_cache], [_cacheTime] and [localStorage]. *)
Record Logger : Type := mkLogger {
  _cache : jsval;
  _cacheTime : Z;
  storage : Storage
}.

(** [getLogs] returns the value and whether it is the very array held in
    [_cache] (which a later [push] or [splice] then changes in place). *)
Definition getLogs (br : Browser) (s : Logger) : jsval * bool * Logger :=
  if truthy (_cache s) && (now br - _cacheTime s <? _cacheDuration)%Z then
    (_cache s, true, s)
  else
    match getItem (storage s) STORAGE_KEY with
    | None => (VArr [], true, mkLogger (VArr []) (now br) (storage s))
    | Some (Json v) => (v, true, mkLogger v (now br) (storage s))
    | Some (Unparsable _) => (VArr [], false, s)
    end.

(** [if (logs.length > MAX_LOGS) logs.splice(0, logs.length - MAX_LOGS)] *)
Definition trim (logs : list (option jsobj)) : list (option jsobj) :=
  if (MAX_LOGS <? length logs)%nat then drop (length logs - MAX_LOGS) logs else logs.

Definition saveLog (br : Browser) (logEntry : jsobj) (s : Logger) : Logger :=
  match getLogs br s with
  | (VArr l, aliased, s1) =>
      let logs := trim (l ++ [Some logEntry]) in
      let s2 := if aliased then mkLogger (VArr logs) (_cacheTime s1) (storage s1) else s1 in
      match setItem br STORAGE_KEY (Json (VArr logs)) (storage s2) with
      | (Normal _, ls) => mkLogger (VArr logs) (now br) ls
      | (Throw _, ls) => mkLogger (_cache s2) (_cacheTime s2) ls
      end
  | (_, _, s1) => s1
  end.

Definition clearLogs (s : Logger) : Logger :=
  mkLogger VNull (_cacheTime s) (removeItem STORAGE_KEY (storage s)).

(** *** Levels, the session id and [log] *)

Definition INFO : string := "info".
Definition WARNING : string := "warning".
Definition ERROR : string := "error".
Definition SECURITY : string := "security".

Definition determineLevel (action : string) : string :=
  if str_includes action "blocked" || str_includes action "duplicate" then WARNING
  else if str_includes action "error" || str_includes action "failed" then ERROR
  else if str_includes action "abuse" || str_includes action "suspicious" then SECURITY
  else INFO.

(** The whole logger object, with [sessionStorage] next to it. *)
Record Page : Type := mkPage {
  logger : Logger;
  _sessionId : option string;
  _productionMode : bool;
  sessionStorage : gmap string string
}.

(** What the page decides for a new session id:
    [Math.random().toString(36).substr(2, 9)], and the exception that
    [sessionStorage.setItem] throws, if any. *)
Record SessionEnv : Type := mkSessionEnv {
  random36 : string;
  sessionSetItemError : option JsError
}.

(** Truthiness of a string that may be [null]. *)
Definition nonempty (o : option string) : option string :=
  match o with
  | Some s => if String.eqb s EmptyString then None else Some s
  | None => None
  end.

Definition set_sessionId (sid : option string) (p : Page) : Page :=
  mkPage (logger p) sid (_productionMode p) (sessionStorage p).

Definition getSessionId (br : Browser) (env : SessionEnv) (p : Page) : completion string * Page :=
  match nonempty (_sessionId p) with
  | Some sid => (Normal sid, p)
  | None =>
      let found := sessionStorage p !! "bookingSessionId" in
      match nonempty found with
      | Some sid => (Normal sid, set_sessionId found p)
      | None =>
          let sid := "session-" ++ pretty (now br) ++ "-" ++ random36 env in
          match sessionSetItemError env with
          | Some e => (Throw e, set_sessionId (Some sid) p)
          | None =>
              (Normal sid,
               mkPage (logger p) (Some sid) (_productionMode p)
                      (<["bookingSessionId" := sid]> (sessionStorage p)))
          end
      end
  end.

(** The object literal of [log]; its [userId] is
    [details.userId || 'anonymous']. *)
Definition newEntry (br : Browser) (actionName levelName : string) (details : literal)
           (sid : string) : jsobj :=
  let detailsUserId := read_property details P_userId (userId (given details)) in
  mkObj None (Some (default "anonymous" (nonempty detailsUserId))) None None None None None
        (Some actionName) (Some levelName) (Some sid) None (Some (now br)) None None None
        None None None.

(** [log(action, details)]: [None] is the [null] returned for a skipped
    entry. *)
Definition log (br : Browser) (env : SessionEnv) (actionName : string) (details : literal)
           (p : Page) : completion (option jsobj) * Page :=
  let levelName := determineLevel actionName in
  if _productionMode p && String.eqb levelName INFO then (Normal None, p)
  else
    match getSessionId br env p with
    | (Throw e, p1) => (Throw e, p1)
    | (Normal sid, p1) =>
        let entry := newEntry br actionName levelName details sid in
        let logEntry :=
          if negb (String.eqb levelName INFO) then Object_assign entry details else entry in
        (Normal (Some logEntry),
         mkPage (saveLog br logEntry (logger p1)) (_sessionId p1) (_productionMode p1)
                (sessionStorage p1))
    end.

Definition enableDebugMode (p : Page) : Page :=
  mkPage (logger p) (_sessionId p) false (sessionStorage p).

(** *** Statistics *)

Record Stats : Type := mkStats {
  totalAttempts : nat;
  successfulSubmissions : nat;
  blockedAttempts : nat;
  errors : nat;
  securityAlerts : nat
}.

(** [log.timestamp >= cutoff] *)
Definition isRecent (cutoff : Z) (entry : jsobj) : bool :=
  match timestamp entry with
  | Some t => (cutoff <=? t)%Z
  | None => false
  end.

(** The actions of the entries, or [None] when some entry has none:
    [log.action.includes] then throws a TypeError. *)
Definition actions (entries : list jsobj) : option (list string) :=
  mapM action entries.

Definition count {A : Type} (f : A -> bool) (l : list A) : nat := length (List.filter f l).

Definition getStats (br : Browser) (timeWindow : Z) (s : Logger) : completion Stats * Logger :=
  match getLogs br s with
  | (VArr logs, _, s1) =>
      let cutoff := (now br - timeWindow)%Z in
      match filter_members (isRecent cutoff) logs with
      | Throw e => (Throw e, s1)
      | Normal recentLogs =>
          match actions recentLogs with
          | None => (Throw (TypeError "Cannot read properties of undefined"), s1)
          | Some names =>
              (Normal (mkStats
                         (count (fun a => str_includes a "attempt") names)
                         (count (fun a => String.eqb a "submission_success") names)
                         (count (fun a => str_includes a "blocked") names)
                         (count (fun entry => strict_eq (level entry) (Some "error")) recentLogs)
                         (count (fun entry => strict_eq (level entry) (Some "security"))
                                recentLogs)),
               s1)
          end
      end
  | (VNull, _, s1) => (Throw null_member, s1)
  | (_, _, s1) => (Throw (TypeError "logs.filter is not a function"), s1)
  end.

End BookingSecurityLogger.

(** ** Console manager: [js/console-manager.js] *)

Module ConsoleManager.

Inductive Channel : Type := ChLog | ChWarn | ChError | ChInfo.

(** The manager's own fields and a record of the calls that reached the
    original console, oldest first. *)
Record Manager : Type := mkManager {
  suppressedErrors : gset string;
  suppressPatterns : list string;
  output : list (Channel * string)
}.

Definition defaultPatterns : list string :=
  ["Tracking Prevention"; "Permissions policy violation"; "accelerometer";
   "streetview.js"; "common.js"; "init_embed.js"; "Permission denied";
   "Error getting bookings"; "Error getting users"; "absences is not defined";
   "firebase-db.js"; "Google Maps"].

(** The state that the constructor leaves. *)
Definition create : Manager := mkManager ∅ defaultPatterns [].

(** The [for (const pattern of self.suppressPatterns)] loop of the two
    overrides, [tag] being the prefix of the key.  The result tells whether
    the loop ended in [return], and gives the set it leaves. *)
Fixpoint scan (tag msg : string) (patterns : list string) (seen : gset string)
  : bool * gset string :=
  match patterns with
  | [] => (false, seen)
  | pattern :: rest =>
      if str_includes msg pattern then
        let key := tag ++ substring 0 20 pattern in
        if bool_decide (key ∈ seen) then (true, seen)
        else scan tag msg rest ({[ key ]} ∪ seen)
      else scan tag msg rest seen
  end.

(** The override of [console.error]; [msg] is [args[0]?.toString() || '']. *)
Definition console_error (msg : string) (m : Manager) : Manager :=
  match scan EmptyString msg (suppressPatterns m) (suppressedErrors m) with
  | (true, seen) => mkManager seen (suppressPatterns m) (output m)
  | (false, seen) => mkManager seen (suppressPatterns m) (output m ++ [(ChError, msg)])
  end.

(** The override of [console.warn]. *)
Definition console_warn (msg : string) (m : Manager) : Manager :=
  match scan "w-" msg (suppressPatterns m) (suppressedErrors m) with
  | (true, seen) => mkManager seen (suppressPatterns m) (output m)
  | (false, seen) => mkManager seen (suppressPatterns m) (output m ++ [(ChWarn, msg)])
  end.

(** [getErrorStats().suppressedCount] *)
Definition suppressedCount (m : Manager) : nat := size (suppressedErrors m).

Definition reset (m : Manager) : Manager :=
  mkManager ∅ (suppressPatterns m) (output m).

Definition enableVerboseMode (m : Manager) : Manager :=
  mkManager ∅ [] (output m).

End ConsoleManager.

(** ** Status helpers of the customer dashboard: [js/customer.js] *)

Module Customer.

(** The characters that [\s] matches, among the ASCII ones. *)
Definition isWhitespace (c : ascii) : bool :=
  let n := nat_of_ascii c in
  ((9 <=? n)%nat && (n <=? 13)%nat) || (n =? 32)%nat.

(** [s.replace(/\s+/g, '')] *)
Fixpoint removeWhitespace (s : string) : string :=
  match s with
  | EmptyString => EmptyString
  | String c rest =>
      if isWhitespace c then removeWhitespace rest else String c (removeWhitespace rest)
  end.

(** [(status || '').toLowerCase().replace(/\s+/g, '')] *)
Definition normalizeStatus (status : option string) : string :=
  removeWhitespace (toLowerCase (default EmptyString status)).

Definition isInProgressStatus (status : option string) : bool :=
  let normalized := normalizeStatus status in
  String.eqb normalized "inprogress" || String.eqb normalized "in progress".

Definition isBookingFeePaid (status : option string) : bool :=
  let normalized := normalizeStatus status in
  includes_str ["confirmed"; "inprogress"; "completed"] (Some normalized).

Definition getCustomerStatusClass (status : option string) : string :=
  let key := removeWhitespace (toLowerCase (default EmptyString status)) in
  if String.eqb key "pending" then "badge-pending"
  else if String.eqb key "confirmed" then "badge-confirmed"
  else if String.eqb key "inprogress" || String.eqb key "in_progress" then "badge-inprogress"
  else if String.eqb key "completed" then "badge-completed"
  else if String.eqb key "cancelled" || String.eqb key "cancelledbycustomer"
          || String.eqb key "cancelledbyadmin" then "badge-cancelled"
  else "badge-gray".

End Customer.

(** ** Loading manager: the global loader of [js/loading-manager.js] *)

Module LoadingManager.

(** The manager's two collections, the [global-loader] elements of the
    document (each by the message it shows, in document order) and the
    timers of the page that [showGlobalLoader] has set: [setTimeout] hands
    out the handles 1, 2, 3, ...; [issued] is the last one and [pending]
    holds those that are set and have neither fired nor been cleared. *)
Record Manager : Type := mkManager {
  activeLoaders : gset string;
  loadingTimeouts : gmap string nat;
  overlays : list string;
  issued : nat;
  pending : gset nat
}.

Definition defaultTimeout : Z := 10000.

(** The state that the constructor leaves, in a document without a loader. *)
Definition create : Manager := mkManager ∅ ∅ [] 0 ∅.

Definition globalLoader : string := "global-loader".

(** The method [clearTimeout(loaderId)]. *)
Definition clearTimeout (loaderId : string) (m : Manager) : Manager :=
  match loadingTimeouts m !! loaderId with
  | Some timeoutId =>
      mkManager (activeLoaders m) (delete loaderId (loadingTimeouts m)) (overlays m)
                (issued m) (pending m ∖ {[ timeoutId ]})
  | None => m
  end.

(** [document.getElementById('global-loader')] is the first such element;
    [remove()] takes it out of the document. *)
Definition hideGlobalLoader (m : Manager) : Manager :=
  clearTimeout globalLoader
    (mkManager (activeLoaders m ∖ {[ globalLoader ]}) (loadingTimeouts m) (tail (overlays m))
               (issued m) (pending m)).

Definition showGlobalLoader (message : string) (timeout : Z) (m : Manager) : string * Manager :=
  let m1 := hideGlobalLoader m in
  let m2 := mkManager ({[ globalLoader ]} ∪ activeLoaders m1) (loadingTimeouts m1)
                      (overlays m1 ++ [message]) (issued m1) (pending m1) in
  if (0 <? timeout)%Z then
    let timeoutId := S (issued m2) in
    (globalLoader,
     mkManager (activeLoaders m2) (<[globalLoader := timeoutId]> (loadingTimeouts m2))
               (overlays m2) timeoutId ({[ timeoutId ]} ∪ pending m2))
  else (globalLoader, m2).

(** The timer [timeoutId] comes due: if it is still pending, its callback
    [() => this.hideGlobalLoader()] runs. *)
Definition timerFires (timeoutId : nat) (m : Manager) : Manager :=
  if bool_decide (timeoutId ∈ pending m) then
    hideGlobalLoader (mkManager (activeLoaders m) (loadingTimeouts m) (overlays m) (issued m)
                                (pending m ∖ {[ timeoutId ]}))
  else m.

End LoadingManager.

(** ** Vocabulary of the statements *)



(** [r] is a record that the reconciliation accepts for the attempt
    [bookingData] of [user] at time [dateNow]: same user, date, time and pet,
    created by the secure path, and of an age [dateNow - createdAt] below
    10 000 ms. *)
Definition reconciles (user bookingData : jsobj) (dateNow : Z) (r : jsobj) : Prop :=
  userId r = id user
  /\ date r = date bookingData
  /\ time r = time bookingData
  /\ petName r = petName bookingData
  /\ serverGenerated r = Some true
  /\ exists c, createdAt r = Some c /\ (dateNow - c < 10000)%Z.

(** The records of a transaction snapshot. *)
Definition snapshotRecords (snap : option BookingFlow.DataSnapshot) : list jsobj :=
  match snap with
  | Some s => match BookingFlow.val s with
              | Some children => map snd children
              | None => []
              end
  | None => []
  end.

(** Where the value returned by [getGroomers] comes from: the cache, the
    children of the remote snapshot, the primitive that the remote node
    holds, the persisted copy (when it passes the test
    [localGroomers && localGroomers.length > 0]), or the built-in list. *)
Inductive groomersSource (fb : FirebaseDb.Firebase) (s : FirebaseDb.State) (v : jsval) : Prop :=
  | FromCache : v = FirebaseDb.groomersCache s -> arr_nonempty v = true -> groomersSource fb s v
  | FromRemote children :
      FirebaseDb.remote_get fb "groomers" = FirebaseDb.Snapshot children ->
      children <> [] ->
      v = VArr (children_to_array children) -> groomersSource fb s v
  | FromLeaf data :
      FirebaseDb.remote_get fb "groomers" = FirebaseDb.Leaf data ->
      v = VArr (leaf_to_array data) -> groomersSource fb s v
  | FromStorage :
      getItem (FirebaseDb.localStorage s) "groomers" = Some (Json v) ->
      arr_nonempty v = true -> groomersSource fb s v
  | Defaults : v = VArr FirebaseDb.DEFAULT_GROOMERS -> groomersSource fb s v.

(** ** Scenarios used in the examples *)

(** A browser at time [t] whose [localStorage] accepts every write. *)
Definition browserAt (t : Z) : Browser :=
  mkBrowser t (fun _ _ _ => None) (fun _ => None).

Definition emptyStorage : Storage := mkStorage ∅ [].

Definition networkError : JsError :=
  mkError "Error" None (Some "Network request failed").

Definition permissionDenied : JsError :=
  mkError "Error" (Some "PERMISSION_DENIED") (Some "Permission denied").

(** A database that is configured but cannot be reached. *)
Definition unreachable : FirebaseDb.Firebase :=
  FirebaseDb.mkFirebase true (fun _ => FirebaseDb.Rejected networkError)
                        (fun _ _ => Some networkError) None None.

(** A database in which every node read holds the primitive [data]. *)
Definition holdingLeaf (data : primitive) : FirebaseDb.Firebase :=
  FirebaseDb.mkFirebase true (fun _ => FirebaseDb.Leaf data) (fun _ _ => None) None None.

(** A [localStorage] whose [groomers] entry is the JSON text of a string. *)
Definition groomersAsText : Storage :=
  mkStorage {[ "groomers" := Json (VStr "none yet") ]} [].

(** A [localStorage] whose [groomers] entry is not JSON. *)
Definition corruptGroomers : Storage :=
  mkStorage {[ "groomers" := Unparsable "Unexpected token g in JSON at position 0" ]} [].

(** ** Vocabulary for the gateway's writes *)

(** The remote calls a gateway call added to the record. *)
Definition newCalls (s s' : FirebaseDb.State) : list FirebaseDb.RemoteOp :=
  drop (length (FirebaseDb.remoteLog s)) (FirebaseDb.remoteLog s').

(** [o] is a booking handed to the SDK's [set] by one of [calls], on its own
    or as a member of a collection. *)
Definition written (calls : list FirebaseDb.RemoteOp) (o : jsobj) : Prop :=
  (exists path, In (FirebaseDb.RSet path (FirebaseDb.PObj o)) calls)
  \/ (exists path d k, In (FirebaseDb.RSet path (FirebaseDb.PDict d)) calls /\ d !! k = Some o).

(** The collection that [saveBookings] sends: under the id of each booking,
    the last booking of the list with that id, sanitised. *)
Definition collection (bookings : list jsobj) : gmap string jsobj :=
  foldl (fun obj b => <[interpolate (id b) := FirebaseDb.sanitize b]> obj) ∅ bookings.

(** The write of one child of the collection, on a path of its own. *)
Definition childWrite (child : string * jsobj) : FirebaseDb.RemoteOp :=
  FirebaseDb.RSet ("bookings/" ++ fst child) (FirebaseDb.PObj (snd child)).

(** Some per-child write of [obj] is rejected. *)
Definition childRejected (fb : FirebaseDb.Firebase) (obj : gmap string jsobj) : Prop :=
  exists k o, obj !! k = Some o
              /\ FirebaseDb.remote_set fb ("bookings/" ++ k) (FirebaseDb.PObj o) <> None.

(** [x] with a NaN replaced by [0]. *)
Definition zero_if_NaN (x : option jsnum) : option jsnum :=
  if FirebaseDb.defined_NaN x then Some (Num 0) else x.

(** The root write that replaces the whole collection. *)
Definition rootWrite (obj : gmap string jsobj) : FirebaseDb.RemoteOp :=
  FirebaseDb.RSet "bookings" (FirebaseDb.PDict obj).

(** The error that a call raised is a permission denial as the gateway
    recognises one. *)
Definition raisedDenial {A : Type} (c : completion A) : bool :=
  match c with
  | Throw e => FirebaseDb.isPermissionError e
  | Normal _ => false
  end.

(** The properties of a booking other than its prices. *)
Definition details (b : jsobj) :=
  (id b, userId b, name b, petName b, date b, time b, status b, action b, level b,
   sessionId b, createdAt b, timestamp b, startedAt b, maxDailyBookings b,
   serverGenerated b, isActive b).

(** The subtotal of [b] is missing, NaN or zero. *)
Definition noSubtotal (b : jsobj) : Prop :=
  cost b = None
  \/ exists c, cost b = Some c
               /\ (subtotal c = None \/ subtotal c = Some NaN \/ subtotal c = Some (Num 0)).

(** What sanitising does to a booking [b], giving [o]. *)
Record sanitized (b o : jsobj) : Prop := mkSanitized {
  san_totalPrice_not_NaN : totalPrice o <> Some NaN;
  san_totalPrice_kept : totalPrice b <> Some NaN -> totalPrice o = totalPrice b;
  san_totalPrice_subtotal :
    totalPrice b = Some NaN ->
    forall c n, cost b = Some c -> subtotal c = Some n -> n <> NaN -> n <> Num 0 ->
                totalPrice o = Some n;
  san_totalPrice_zero :
    totalPrice b = Some NaN -> noSubtotal b -> totalPrice o = Some (Num 0);
  san_cost_defined : cost o = None <-> cost b = None;
  san_cost :
    forall c0 c, cost b = Some c0 -> cost o = Some c ->
      subtotal c <> Some NaN
      /\ balanceOnVisit c <> Some NaN
      /\ (subtotal c0 <> Some NaN -> subtotal c = subtotal c0)
      /\ (subtotal c0 = Some NaN -> subtotal c = Some (Num 0))
      /\ (balanceOnVisit c0 <> Some NaN -> balanceOnVisit c = balanceOnVisit c0)
      /\ (balanceOnVisit c0 = Some NaN -> balanceOnVisit c = Some (Num 0))
      /\ bookingFee c = bookingFee c0;
  san_details : details o = details b
}.

(** A database that accepts every write; reads find nothing. *)
Definition accepting : FirebaseDb.Firebase :=
  FirebaseDb.mkFirebase true (fun _ => FirebaseDb.Snapshot []) (fun _ _ => None) None None.

Definition booking1 (fee sub : option jsnum) : jsobj :=
  mkObj (Some "b1") (Some "u1") None (Some "Max") (Some "2025-06-01") (Some "10:00 AM")
        (Some "pending") None None None (Some 1000%Z) None None None None None
        (Some (Num 500)) (Some (mkCost sub fee (Some (Num 400)))).

(** ** Vocabulary for the gateway's reads *)

(** The in-memory bookings list is served without asking anyone. *)
Definition bookingsFresh (br : Browser) (s : FirebaseDb.State) : bool :=
  arr_nonempty (FirebaseDb.bookingsCache s)
  && (now br - FirebaseDb.bookingsCacheTime s <? FirebaseDb.BOOKINGS_CACHE_DURATION)%Z.

Definition usersFresh (br : Browser) (s : FirebaseDb.State) : bool :=
  truthy (FirebaseDb.usersCache s)
  && (now br - FirebaseDb.usersCacheTime s <? FirebaseDb.USERS_CACHE_DURATION)%Z.

Definition groomersFresh (br : Browser) (s : FirebaseDb.State) : bool :=
  arr_nonempty (FirebaseDb.groomersCache s)
  && (now br - FirebaseDb.groomersCacheTime s <? FirebaseDb.GROOMERS_CACHE_DURATION)%Z.

(** The call made the Realtime Database read of [path]. *)
Definition readsRemote (path : string) (s s' : FirebaseDb.State) : Prop :=
  In (FirebaseDb.RGet path) (newCalls s s').

(** The persisted copy a latched read returns. *)
Definition persistedCopy (key : string) (s : FirebaseDb.State) : completion jsval :=
  parse_or (VArr []) (getItem (FirebaseDb.localStorage s) key).


(** A database whose reads are rejected with [e] and whose writes succeed. *)
Definition readsRejected (e : JsError) : FirebaseDb.Firebase :=
  FirebaseDb.mkFirebase true (fun _ => FirebaseDb.Rejected e) (fun _ _ => None) None None.

(** A database holding exactly [children] under every path read. *)
Definition holding (children : list (string * jsobj)) : FirebaseDb.Firebase :=
  FirebaseDb.mkFirebase true (fun _ => FirebaseDb.Snapshot children) (fun _ _ => None) None None.

Definition readDenied : JsError :=
  mkError "Error" None (Some "Permission denied").

Definition booking2 : jsobj :=
  mkObj (Some "b2") (Some "u1") None (Some "Bella") (Some "2025-07-01") (Some "2:00 PM")
        (Some "pending") None None None (Some 2000%Z) None None None (Some true) None
        None None.

(** The state of the C3 scenario: the list was fetched and cached, then a
    later read was denied, which latched the flag. *)
Definition afterDeniedRead : FirebaseDb.State :=
  FirebaseDb.session
    [ FirebaseDb.CallGetBookings (browserAt 1000) (holding [("b1", booking1 None None)]);
      FirebaseDb.CallGetBookings (browserAt 50000) (readsRejected readDenied) ]
    (FirebaseDb.initial emptyStorage).

(** ** Vocabulary for the security log *)





Definition logEntryAt (t : Z) : jsobj :=
  mkObj None (Some "anonymous") None None None None None (Some "submission_blocked")
        (Some "warning") (Some "session-1") None (Some t) None None None None None None.

(** ** Vocabulary for the storage manager *)

(** [kept] is [l] without its members that are [expired], in the order of
    [l]. *)
Inductive without {A : Type} (expired : A -> Prop) : list A -> list A -> Prop :=
  | without_nil : without expired [] []
  | without_drop x l kept :
      expired x -> without expired l kept -> without expired (x :: l) kept
  | without_keep x l kept :
      ~ expired x -> without expired l kept -> without expired (x :: l) (x :: kept).



(** The calls by which the emergency cleanup removes them. *)
Definition evictions : list LsOp :=
  [OpRemove "bookingSecurityLogs"; OpRemove "actionLocks";
   OpRemove "bookingSubmissionStatus"; OpRemove "bookingHistory"].


(** A booking that the emergency cleanup keeps: pending, confirmed or in
    progress. *)
Definition essential (b : jsobj) : Prop :=
  status b = Some "pending" \/ status b = Some "confirmed" \/ status b = Some "in-progress".


(** A browser whose [localStorage] holds at most [n] entries. *)
Definition smallStore (n : nat) : Browser :=
  mkBrowser 0
            (fun stored_items k v =>
               if (n <? size (<[k := v]> stored_items))%nat
               then Some QuotaExceededError else None)
            (fun _ => None).

Definition bookingWithStatus (i st : string) : jsobj :=
  mkObj (Some i) (Some "u1") None (Some "Max") (Some "2025-06-01") (Some "10:00 AM")
        (Some st) None None None (Some 1000%Z) None None None None None None None.

(** A full store: logs, locks, history and three bookings. *)
Definition fullStore : Storage :=
  mkStorage
    (<["bookingSecurityLogs" := Json (VArr [Some (logEntryAt 5)])]>
       (<["actionLocks" := Json (VDict ∅)]>
          (<["bookingHistory" := Json (VArr [])]>
             (<["bookings" := Json (VArr [Some (bookingWithStatus "a" "pending");
                                           Some (bookingWithStatus "b" "completed");
                                           Some (bookingWithStatus "c" "in-progress")])]> ∅))))
    [].

(** [localStorage] accepts every write. *)
Definition accepts_all (br : Browser) : Prop :=
  forall m k v, setItemError br m k v = None.

(** An array of records with the members that [keep] rejects removed. *)
Definition sweptArray (keep : jsobj -> bool) (v : stored) : option stored :=
  match v with
  | Json (VArr l) =>
      option_map (fun objs => Json (VArr (objects (List.filter keep objs)))) (all_objects l)
  | _ => None
  end.

(** The action locks with the stale ones removed: a dictionary loses their
    keys, an array gets [null] in their place. *)
Definition sweptLocks (br : Browser) (v : stored) : option stored :=
  match v with
  | Json (VDict locks) =>
      if bool_decide (map_Forall (fun _ member => is_Some member) locks)
      then Some (Json (VDict (filter (fun kv => StorageManager.staleMember br (snd kv) = false)
                                     locks)))
      else None
  | Json (VArr locks) =>
      option_map (fun _ => Json (VArr (map (StorageManager.punch br) locks))) (all_objects locks)
  | _ => None
  end.

(** The entry [key] of [m'] is the entry of [m], left as it was or swept;
    and it is swept whenever the store accepts writes. *)
Definition sweptEntry (br : Browser) (key : string) (swept : stored -> option stored)
           (m m' : gmap string stored) : Prop :=
  (m' !! key = m !! key
   \/ exists v v', m !! key = Some v /\ swept v = Some v' /\ m' !! key = Some v')
  /\ (accepts_all br ->
      forall v v', m !! key = Some v -> swept v = Some v' -> m' !! key = Some v').

(** Only the entry [key] may differ between [m] and [m']. *)
Definition onlyTouches (key : string) (m m' : gmap string stored) : Prop :=
  forall k, k <> key -> m' !! k = m !! k.

(** The four categories of the sweep. *)
Definition sweptKeys : list string :=
  ["bookings"; "bookingHistory"; "bookingSecurityLogs"; "actionLocks"].

Definition day_ms : Z := 86400000.

(** A booking that the sweep removes: completed, cancelled or no-show, and
    with a record-level time ([createdAt], else the time of [date]) more than
    90 days before now. *)
Definition expiredBooking (br : Browser) (b : jsobj) : Prop :=
  (status b = Some "completed" \/ status b = Some "cancelled" \/ status b = Some "no-show")
  /\ exists t, ((createdAt b = Some t /\ t <> 0%Z)
                \/ ((createdAt b = None \/ createdAt b = Some 0%Z)
                    /\ Date_getTime br (date b) = Some t))
               /\ (t < now br - 90 * day_ms)%Z.

(** A history entry that the sweep removes: its [timestamp], else its
    [createdAt], else 0, is 30 days or more before now. *)
Definition expiredEntry (br : Browser) (e : jsobj) : Prop :=
  exists t, ((timestamp e = Some t /\ t <> 0%Z)
             \/ ((timestamp e = None \/ timestamp e = Some 0%Z)
                 /\ ((createdAt e = Some t) \/ (createdAt e = None /\ t = 0%Z))))
            /\ (t <= now br - 30 * day_ms)%Z.

(** A log entry that the sweep removes: no [timestamp], or one 7 days or
    more before now. *)
Definition expiredLog (br : Browser) (l : jsobj) : Prop :=
  timestamp l = None \/ exists t, timestamp l = Some t /\ (t <= now br - 7 * day_ms)%Z.

(** A lock that the sweep removes: started more than 1 day before now. *)
Definition expiredLock (br : Browser) (k : jsobj) : Prop :=
  exists t, startedAt k = Some t /\ (t < now br - 1 * day_ms)%Z.

(** The entry [before] is an array of records and [after] is that array
    without its expired members. *)
Definition sweptRecords (expired : jsobj -> Prop) (before after : option stored) : Prop :=
  exists l kept,
    before = Some (Json (VArr (map Some l)))
    /\ without expired l kept
    /\ after = Some (Json (VArr (map Some kept))).

(** The entry [before] holds locks and [after] holds them without the
    expired ones: a dictionary has lost their keys, an array has [null]
    in their places. *)
Definition sweptLockEntries (expired : jsobj -> Prop) (before after : option stored) : Prop :=
  (exists locks kept : gmap string jsobj,
      before = Some (Json (VDict (Some <$> locks)))
      /\ (forall key lock, kept !! key = Some lock <-> locks !! key = Some lock /\ ~ expired lock)
      /\ after = Some (Json (VDict (Some <$> kept))))
  \/ (exists (locks : list jsobj) (punched : list (option jsobj)),
        before = Some (Json (VArr (map Some locks)))
        /\ Forall2 (fun lock member => (expired lock /\ member = None)
                                       \/ (~ expired lock /\ member = Some lock))
                   locks punched
        /\ after = Some (Json (VArr punched))).

(** What a cleanup does to its entry [key]: it leaves it as it was or
    swept; and it leaves it swept whenever the entry can be swept and the
    store accepts writes. *)
Definition sweeps (br : Browser) (swept : option stored -> option stored -> Prop)
           (key : string) (m m' : gmap string stored) : Prop :=
  (m' !! key = m !! key \/ swept (m !! key) (m' !! key))
  /\ (accepts_all br -> forall after, swept (m !! key) after -> m' !! key = after).

(** A booking cancelled by its customer 100 days ago, as the only entry of
    the store. *)
Definition cancelledLongAgo : jsobj :=
  mkObj (Some "b9") (Some "u1") None (Some "Max") (Some "2025-01-01") (Some "10:00 AM")
        (Some "cancelledByCustomer") None None None (Some 1000%Z) None None None None None
        None None.

Definition oneOldCancellation : Storage :=
  mkStorage {[ "bookings" := Json (VArr [Some cancelledLongAgo]) ]} [].

(** ** The scenarios of the specification *)

Definition customer : jsobj :=
  mkObj (Some "u1") None (Some "Ana") None None None None None None None
        None None None None None None None None.

(** A booking of [customer]. *)
Definition bookingOf (i pet day slot st : string) (created : Z) (secure : bool) : jsobj :=
  mkObj (Some i) (Some "u1") None (Some pet) (Some day) (Some slot) (Some st) None None None
        (Some created) None None None (Some secure) None None None.

Definition maxPending : jsobj := bookingOf "bk-1" "Max" "2025-06-01" "10:00 AM" "pending" 1000 false.

Definition idleUi : BookingFlow.Ui := BookingFlow.mkUi true true 5 [] [] [].

(** A page that defines both helpers of [submitBooking]. *)
Definition fullPage : BookingFlow.Helpers := BookingFlow.mkHelpers true true.

(** A database that denies the write of [bookings/b2] and answers the root
    write with [root]; every other write is accepted. *)
Definition secondDenied (root : option JsError) : FirebaseDb.Firebase :=
  FirebaseDb.mkFirebase
    true (fun _ => FirebaseDb.Snapshot [])
    (fun path _ => if String.eqb path "bookings/b2" then Some permissionDenied
                   else if String.eqb path "bookings" then root else None)
    None None.

(** A booking whose total price, subtotal and balance are NaN, and one
    whose total price alone is. *)
Definition allNaN : jsobj :=
  mkObj (Some "b7") (Some "u1") None (Some "Max") (Some "2025-06-01") (Some "10:00 AM")
        (Some "pending") None None None (Some 1000%Z) None None None None None
        (Some NaN) (Some (mkCost (Some NaN) (Some NaN) (Some NaN))).

Definition totalNaN : jsobj :=
  mkObj (Some "b8") (Some "u1") None (Some "Max") (Some "2025-06-01") (Some "10:00 AM")
        (Some "pending") None None None (Some 1000%Z) None None None None None
        (Some NaN) (Some (mkCost (Some (Num 350)) (Some (Num 100)) (Some (Num 250)))).

(** A database that accepts the write of [bookings/b1] and denies any other. *)
Definition onlyFirstWritable : FirebaseDb.Firebase :=
  FirebaseDb.mkFirebase
    true (fun _ => FirebaseDb.Snapshot [])
    (fun path _ => if String.eqb path "bookings/b1" then None else Some permissionDenied)
    None None.

(** A persisted log of [n] entries, stamped 1 to [n]. *)
Definition logsUpTo (n : nat) : list (option jsobj) :=
  map (fun t => Some (logEntryAt (Z.of_nat t))) (seq 1 n).

Definition loggerWith (logs : list (option jsobj)) : BookingSecurityLogger.Logger :=
  BookingSecurityLogger.mkLogger
    VNull 0
    (mkStorage {[ BookingSecurityLogger.STORAGE_KEY := Json (VArr logs) ]} []).

(** A store whose bookings do not parse, next to one fresh and one stale log
    entry (the clock of the example is at 10 days). *)
Definition brokenBookings : Storage :=
  mkStorage
    (<["bookings" := Unparsable "Unexpected end of JSON input"]>
       (<["bookingSecurityLogs" := Json (VArr [Some (logEntryAt 1000);
                                               Some (logEntryAt 800000000)])]> ∅))
    [].

(** ** Vocabulary for the batched writes and the removal of keys *)

(** A run of [queueWrite] calls. *)
Definition queueAll (writes : list (string * StorageManager.jsarg)) (b : StorageManager.Batcher)
  : StorageManager.Batcher :=
  foldl (fun st w => StorageManager.queueWrite (fst w) (snd w) st) b writes.

(** The text queued last for [key] among [writes], if any. *)
Definition lastWrite (key : string) (writes : list (string * stored)) : option stored :=
  foldl (fun acc w => if String.eqb (fst w) key then Some (snd w) else acc) None writes.

(** The writes as the queue holds them: a later write to a key replaces the
    earlier one in its place. *)
Definition coalesce (writes : list (string * stored)) : list (string * stored) :=
  foldl (fun q w => StorageManager.Map_set (fst w) (snd w) q) [] writes.

(** The successful [setItem] calls that store [writes], in order. *)
Definition stores (writes : list (string * stored)) : list LsOp :=
  map (fun w => OpSet (fst w) (snd w) true) writes.

(** Texts handed to [queueWrite]. *)
Definition asTexts (writes : list (string * stored)) : list (string * StorageManager.jsarg) :=
  map (fun w => (fst w, StorageManager.Serializable (snd w))) writes.

(** What can happen to the write queue: a call of [queueWrite], a call of
    [flushWrites], or a timer coming due. *)
Inductive batchEvent : Type :=
  | QueueWrite (key : string) (value : StorageManager.jsarg)
  | FlushWrites (br : Browser)
  | TimerDue (br : Browser) (handle : nat).

Definition happen (e : batchEvent) (b : StorageManager.Batcher) : StorageManager.Batcher :=
  match e with
  | QueueWrite key value => StorageManager.queueWrite key value b
  | FlushWrites br => StorageManager.flushWrites br b
  | TimerDue br handle => StorageManager.timerFires br handle b
  end.

Definition happenAll (events : list batchEvent) (b : StorageManager.Batcher)
  : StorageManager.Batcher :=
  foldl (fun st e => happen e st) b events.

(** The object as it is created: nothing queued, no timer. *)
Definition idleBatcher (ls : Storage) : StorageManager.Batcher :=
  StorageManager.mkBatcher [] None 0 ∅ ls.

(** An enumeration of the keys: that of the map. *)
Definition keysInMapOrder : StorageManager.KeyOrder :=
  StorageManager.mkKeyOrder (fun m => (map_to_list m).*1) (fun m => Permutation_refl _).

(** A key that [removeUnusedKeys] removes: one of the listed legacy keys, or
    a temporary one. *)
Definition unusedKey (k : string) : bool :=
  bool_decide (k ∈ StorageManager.unusedKeys) || StorageManager.isTemporaryKey k.

(** A key that [clearAll] removes: an application key or a cached Firebase
    user. *)
Definition appKey (k : string) : bool :=
  bool_decide (k ∈ StorageManager.appKeys) || StorageManager.startsWith k "firebase_user_".

(** ** Vocabulary for the gateway's other reads and writes *)

(** The caches of the gateway, its read latches and the events it has
    dispatched are the same in [s] and [s']. *)
Definition sameCaches (s s' : FirebaseDb.State) : Prop :=
  FirebaseDb.usersCache s' = FirebaseDb.usersCache s
  /\ FirebaseDb.usersCacheTime s' = FirebaseDb.usersCacheTime s
  /\ FirebaseDb.usersPermissionDenied s' = FirebaseDb.usersPermissionDenied s
  /\ FirebaseDb.bookingsCache s' = FirebaseDb.bookingsCache s
  /\ FirebaseDb.bookingsCacheTime s' = FirebaseDb.bookingsCacheTime s
  /\ FirebaseDb.bookingsPermissionDenied s' = FirebaseDb.bookingsPermissionDenied s
  /\ FirebaseDb.groomersCache s' = FirebaseDb.groomersCache s
  /\ FirebaseDb.groomersCacheTime s' = FirebaseDb.groomersCacheTime s
  /\ FirebaseDb.groomersPermissionDenied s' = FirebaseDb.groomersPermissionDenied s
  /\ FirebaseDb.dispatched s' = FirebaseDb.dispatched s.

(** The shape that [saveUsers], [saveGroomers] and [savePackages] share:
    [text] is what goes to [localStorage] under [key], [obj] what goes to
    the database. *)
Definition saveVia (br : Browser) (fb : FirebaseDb.Firebase) (key : string) (text : stored)
           (obj : gmap string jsobj) (s : FirebaseDb.State)
  : completion unit * FirebaseDb.State :=
  if negb (FirebaseDb.db fb) || FirebaseDb.firebaseWriteDenied s
  then FirebaseDb.persist br key text s
  else
    let s1 := FirebaseDb.remote [FirebaseDb.RSet key (FirebaseDb.PDict obj)] s in
    match FirebaseDb.remote_set fb key (FirebaseDb.PDict obj) with
    | None => FirebaseDb.persist br key text s1
    | Some error => (Normal tt, FirebaseDb.persistAnyway br key text error s1)
    end.

(** The persisted entry under [key] does not parse. *)
Definition corrupt (key : string) (s : FirebaseDb.State) : Prop :=
  exists msg, getItem (FirebaseDb.localStorage s) key = Some (Unparsable msg).

(** The call ends in a rejection. *)
Definition rejects {A : Type} (r : completion A * FirebaseDb.State) : Prop :=
  exists e, fst r = Throw e.

(** The external implementation of [getUsers] is missing or fails. *)
Definition implFails (fb : FirebaseDb.Firebase) : Prop :=
  forall users, FirebaseDb.getUsersImpl fb <> Some (Normal users).

Definition groomerOf (i : string) : jsobj := FirebaseDb.groomer i "Ana".

(** A [localStorage] whose [bookings] entry is not JSON. *)
Definition corruptBookings : Storage :=
  mkStorage {[ "bookings" := Unparsable "Unexpected token b in JSON at position 0" ]} [].

(** ** Vocabulary for the security logger *)

(** The words that make an action more than informational. *)
Definition keywords : list string :=
  ["blocked"; "duplicate"; "error"; "failed"; "abuse"; "suspicious"].

(** The action contains one of them. *)
Definition critical (actionName : string) : bool :=
  existsb (str_includes actionName) keywords.

(** What makes [getStats] throw on the value that [getLogs] gives it: it is
    not an array, or it has a [null] member, or one of its entries inside
    the window has no [action]. *)
Definition unreadableLog (cutoff : Z) (v : jsval) : Prop :=
  match v with
  | VArr logs =>
      In None logs
      \/ exists entry, In (Some entry) logs
                       /\ BookingSecurityLogger.isRecent cutoff entry = true
                       /\ action entry = None
  | _ => True
  end.

Definition noStats : BookingSecurityLogger.Stats := BookingSecurityLogger.mkStats 0 0 0 0 0.

(** A page whose session storage is empty and whose logger has [logs]
    persisted. *)
Definition pageWith (logs : list (option jsobj)) : BookingSecurityLogger.Page :=
  BookingSecurityLogger.mkPage (loggerWith logs) None true ∅.

Definition quietEnv : BookingSecurityLogger.SessionEnv :=
  BookingSecurityLogger.mkSessionEnv "k3j9x2m1q" None.

(** ** Vocabulary for the console manager *)

(** A call of one of the two overridden console methods. *)
Inductive consoleCall : Type :=
  | SayError (msg : string)
  | SayWarn (msg : string).

Definition say (c : consoleCall) (m : ConsoleManager.Manager) : ConsoleManager.Manager :=
  match c with
  | SayError msg => ConsoleManager.console_error msg m
  | SayWarn msg => ConsoleManager.console_warn msg m
  end.

Definition sayAll (calls : list consoleCall) (m : ConsoleManager.Manager)
  : ConsoleManager.Manager :=
  foldl (fun st c => say c st) m calls.

(** What the original console shows for a call that gets through. *)
Definition shown (c : consoleCall) : ConsoleManager.Channel * string :=
  match c with
  | SayError msg => (ConsoleManager.ChError, msg)
  | SayWarn msg => (ConsoleManager.ChWarn, msg)
  end.

Definition said (c : consoleCall) : string :=
  match c with SayError msg | SayWarn msg => msg end.

(** The prefix of the keys of a method. *)
Definition tagOf (c : consoleCall) : string :=
  match c with SayError _ => EmptyString | SayWarn _ => "w-" end.

(** The message contains one of the patterns. *)
Definition matchesSome (patterns : list string) (msg : string) : Prop :=
  exists pattern, In pattern patterns /\ str_includes msg pattern = true.

(** The keys under which the patterns are remembered, for errors and for
    warnings. *)
Definition patternKeys (patterns : list string) : list string :=
  map (fun pattern => substring 0 20 pattern) patterns
  ++ map (fun pattern => ("w-" ++ substring 0 20 pattern)%string) patterns.

(** ** Vocabulary for the status helpers *)

(** No character of the string is white space. *)
Fixpoint spaceless (s : string) : Prop :=
  match s with
  | EmptyString => True
  | String c rest => Customer.isWhitespace c = false /\ spaceless rest
  end.

(** ** Vocabulary for the global loader *)

(** What can happen to the global loader: it is shown, it is hidden, or a
    timer comes due. *)
Inductive loaderEvent : Type :=
  | ShowGlobal (message : string) (timeout : Z)
  | HideGlobal
  | LoaderTimerDue (timeoutId : nat).

Definition occur (e : loaderEvent) (m : LoadingManager.Manager) : LoadingManager.Manager :=
  match e with
  | ShowGlobal message timeout => snd (LoadingManager.showGlobalLoader message timeout m)
  | HideGlobal => LoadingManager.hideGlobalLoader m
  | LoaderTimerDue timeoutId => LoadingManager.timerFires timeoutId m
  end.

Definition occurAll (events : list loaderEvent) (m : LoadingManager.Manager)
  : LoadingManager.Manager :=
  foldl (fun st e => occur e st) m events.

(** The loader is consistent: at most one overlay is in the document, it is
    there exactly when the loader counts as active, and the only timer that
    can be pending is the one registered for it. *)
Definition tidy (m : LoadingManager.Manager) : Prop :=
  (length (LoadingManager.overlays m) <= 1)%nat
  /\ (LoadingManager.globalLoader ∈ LoadingManager.activeLoaders m
      <-> LoadingManager.overlays m <> [])
  /\ (forall timeoutId, timeoutId ∈ LoadingManager.pending m ->
        LoadingManager.loadingTimeouts m !! LoadingManager.globalLoader = Some timeoutId)
  /\ (forall timeoutId,
        LoadingManager.loadingTimeouts m !! LoadingManager.globalLoader = Some timeoutId ->
        LoadingManager.overlays m <> []).

(* ===================================================================== *)
(** * Part II: properties                                                 *)
(* ===================================================================== *)

Local Open Scope list_scope.

(** ** Basic facts about the JavaScript helpers *)

Lemma strict_eq_true (a b : option string) : strict_eq a b = true <-> a = b.
Proof. unfold strict_eq. apply bool_decide_eq_true. Qed.

Lemma includes_str_true (l : list string) (x : option string) :
  includes_str l x = true <-> exists s, x = Some s /\ In s l.
Proof.
  destruct x as [s|]; simpl.
  - rewrite existsb_exists. split.
    + intros (y & Hy & Heq). apply String.eqb_eq in Heq. subst y. eauto.
    + intros (y & Hy & Hin). injection Hy as <-. exists s. split; [done|]. apply String.eqb_refl.
  - split; [discriminate|]. intros (s & Hs & _). discriminate.
Qed.


(** ** Duplicate prevention *)

Section DuplicateCheck.
Import BookingFlow.





(** The scenarios of the specification: a second booking for "Max" on the
    same day and time is blocked, and the user is told which pet, day and
    time; on another day it is allowed; so it is under another spelling of
    the name, or when the first booking was cancelled. *)
Example second_booking_same_slot_blocked :
  submitBooking fullPage customer [maxPending]
                (bookingOf "bk-2" "Max" "2025-06-01" "10:00 AM" "pending" 2000 false)
                (Some "tok") idleUi
  = (BLOCKED,
     mkUi false false 4 [("tok", "Duplicate booking detected")]
          [("Duplicate Booking",
            duplicateMessage (bookingOf "bk-2" "Max" "2025-06-01" "10:00 AM" "pending"
                                        2000 false))]
          []).
Proof. reflexivity. Qed.

Example second_booking_other_day_allowed :
  fst (submitBooking fullPage customer [maxPending]
                     (bookingOf "bk-2" "Max" "2025-06-08" "10:00 AM" "pending" 2000 false)
                     None idleUi) = ALLOWED
  /\ fst (submitBooking fullPage customer [maxPending]
                        (bookingOf "bk-2" "max" "2025-06-01" "10:00 AM" "pending" 2000 false)
                        None idleUi) = ALLOWED
  /\ fst (submitBooking fullPage customer
                        [bookingOf "bk-1" "Max" "2025-06-01" "10:00 AM" "cancelledByCustomer"
                                   1000 false]
                        (bookingOf "bk-2" "Max" "2025-06-01" "10:00 AM" "pending" 2000 false)
                        None idleUi) = ALLOWED.
Proof. repeat split. Qed.

(** With an empty submission token, or on a page that does not define
    [completeSubmissionFailed], the blocked attempt is not recorded as a
    failed submission; the rest of the block runs all the same. *)
Example blocked_without_a_token :
  let attempt := bookingOf "bk-2" "Max" "2025-06-01" "10:00 AM" "pending" 2000 false in
  failedSubmissions (snd (submitBooking fullPage customer [maxPending] attempt
                                        (Some EmptyString) idleUi)) = []
  /\ failedSubmissions (snd (submitBooking (mkHelpers false true) customer [maxPending]
                                           attempt (Some "tok") idleUi)) = []
  /\ isSubmittingBooking (snd (submitBooking (mkHelpers false false) customer [maxPending]
                                             attempt (Some "tok") idleUi)) = false
  /\ loadingOverlay (snd (submitBooking (mkHelpers false false) customer [maxPending]
                                        attempt (Some "tok") idleUi)) = true.
Proof. repeat split. Qed.

End DuplicateCheck.

(** ** Reconciliation of a transaction that did not commit *)

Section Reconciliation.
Import BookingFlow.

Lemma isRecentBooking_reconciles (user bookingData : jsobj) (dateNow : Z) (r : jsobj) :
  isRecentBooking user bookingData dateNow r = true <-> reconciles user bookingData dateNow r.
Proof.
  unfold isRecentBooking, reconciles.
  rewrite !andb_true_iff, !strict_eq_true, bool_decide_eq_true.
  destruct (createdAt r) as [c|].
  - rewrite Z.ltb_lt. split.
    + intros (((((?&?)&?)&?)&?)&?). repeat split; try done. by exists c.
    + intros (?&?&?&?&?&c'&Hc&?). injection Hc as <-. repeat split; done.
  - split.
    + intros (_ & ?). discriminate.
    + intros (_&_&_&_&_&c&Hc&_). discriminate.
Qed.

Lemma find_first {A : Type} (f : A -> bool) (l : list A) (x : A) :
  List.find f l = Some x ->
  f x = true
  /\ exists before after, l = before ++ x :: after /\ forall y, In y before -> f y = false.
Proof.
  induction l as [|a l IH]; [discriminate|]. cbn.
  destruct (f a) eqn:Hfa.
  - intros [= <-]. split; [done|]. exists [], l. split; [done|]. intros y [].
  - intros Hfind. destruct (IH Hfind) as (Hx & before & after & -> & Hnone).
    split; [done|]. exists (a :: before), after. split; [done|].
    intros y [<-|Hy]; [done|by apply Hnone].
Qed.

(** C2 (as amended).  When [runTransaction] reports not-committed,
    [createBookingSecure] either returns a record of the transaction
    snapshot or throws the duplicate-creation failure.  The record it
    returns matches the attempt (same user, date, time and pet name,
    [serverGenerated] true) and its age [dateNow - createdAt] is below
    10 000 ms, which a record dated after [dateNow] satisfies as well; it is
    the first such record of the snapshot.  The failure is thrown exactly
    when the snapshot holds no such record.  The branch is a function of the
    snapshot alone: it writes nothing. *)
Theorem createBookingSecure_not_committed
    (user bookingData : jsobj) (dateNow : Z) (snap : option DataSnapshot) :
  match createBookingSecure_afterTransaction user bookingData dateNow (mkResult false snap) with
  | Some (Normal r) =>
      reconciles user bookingData dateNow r
      /\ (exists c, createdAt r = Some c /\ (dateNow - c < 10000)%Z)
      /\ exists before after,
          snapshotRecords snap = before ++ r :: after
          /\ forall earlier, In earlier before -> ~ reconciles user bookingData dateNow earlier
  | Some (Throw e) =>
      e = duplicateFailure
      /\ forall r, In r (snapshotRecords snap) -> ~ reconciles user bookingData dateNow r
  | None => False
  end.
Proof.
  unfold createBookingSecure_afterTransaction, snapshotRecords. simpl.
  destruct snap as [[[children|]]|]; simpl; try (split; [done|]; intros r []).
  destruct (List.find _ _) as [r|] eqn:Hfind.
  - apply find_first in Hfind as (Hrec & before & after & Hsplit & Hnone).
    apply isRecentBooking_reconciles in Hrec.
    split; [done|]. split; [apply Hrec|].
    exists before, after. split; [done|].
    intros earlier Hin Hearlier. apply isRecentBooking_reconciles in Hearlier.
    rewrite (Hnone earlier Hin) in Hearlier. discriminate.
  - split; [done|]. intros r Hin Hrec.
    apply isRecentBooking_reconciles in Hrec.
    pose proof (find_none _ _ Hfind r Hin) as Hn. congruence.
Qed.

(** C2 at the scenario of the specification: the record returned was
    created 3 s before now. *)
Lemma createBookingSecure_not_committed_witness :
  reconciles customer (bookingOf "new" "Bella" "2025-07-01" "2:00 PM" "pending" 0 false) 100000
             (bookingOf "bk-7" "Bella" "2025-07-01" "2:00 PM" "pending" 97000 true).
Proof.
  pose proof (createBookingSecure_not_committed
                customer (bookingOf "new" "Bella" "2025-07-01" "2:00 PM" "pending" 0 false) 100000
                (Some (mkSnapshot
                         (Some [("bk-1", maxPending);
                                ("bk-7", bookingOf "bk-7" "Bella" "2025-07-01" "2:00 PM"
                                                   "pending" 97000 true)])))) as H.
  change (createBookingSecure_afterTransaction _ _ _ _)
    with (Some (Normal (bookingOf "bk-7" "Bella" "2025-07-01" "2:00 PM" "pending" 97000 true)))
    in H.
  exact (proj1 H).
Defined.

(** C2, counterexample.  The only matching record of the snapshot is dated
    4 900 s after now (the clock of the page is behind): its age is
    negative, hence below 10 000 ms, and the record is returned although it
    is not within 10 s of now. *)
Lemma future_record_is_returned :
  let created := bookingOf "bk-7" "Bella" "2025-07-01" "2:00 PM" "pending" 5000000 true in
  createBookingSecure_afterTransaction
    customer (bookingOf "new" "Bella" "2025-07-01" "2:00 PM" "pending" 0 false) 100000
    (mkResult false (Some (mkSnapshot (Some [("bk-7", created)]))))
  = Some (Normal created)
  /\ createdAt created = Some 5000000%Z
  /\ ~ (Z.abs (100000 - 5000000) < 10000)%Z.
Proof. split; [reflexivity|]. split; [reflexivity|]. lia. Qed.

(** The scenario of the specification: the write for "Bella" is reported
    as not committed while the snapshot holds the record, created by the
    secure path 3 seconds ago: that record is returned. *)
Example not_committed_but_created :
  let created := bookingOf "bk-7" "Bella" "2025-07-01" "2:00 PM" "pending" 97000 true in
  createBookingSecure_afterTransaction
    customer (bookingOf "new" "Bella" "2025-07-01" "2:00 PM" "pending" 0 false) 100000
    (mkResult false (Some (mkSnapshot (Some [("bk-1", maxPending); ("bk-7", created)]))))
  = Some (Normal created).
Proof. reflexivity. Qed.

Example not_committed_and_absent :
  createBookingSecure_afterTransaction
    customer (bookingOf "new" "Bella" "2025-07-01" "2:00 PM" "pending" 0 false) 100000
    (mkResult false (Some (mkSnapshot (Some [("bk-1", maxPending)]))))
  = Some (Throw duplicateFailure).
Proof. reflexivity. Qed.

End Reconciliation.

(** ** The gateway: groomers *)

Section Groomers.
Import FirebaseDb.

Lemma arr_nonempty_children (children : list (string * jsobj)) :
  children <> [] -> arr_nonempty (VArr (children_to_array children)) = true.
Proof. by destruct children. Qed.


Lemma getGroomers_catch_result (br : Browser) (error : JsError) (s : State) :
  match fst (getGroomers_catch br error s) with
  | Normal v =>
      exists localGroomers,
        parse_or VNull (getItem (localStorage s) "groomers") = Normal localGroomers
        /\ v = local_or_default localGroomers
  | Throw e =>
      exists msg, getItem (localStorage s) "groomers" = Some (Unparsable msg)
                  /\ e = SyntaxError msg
  end.
Proof.
  unfold getGroomers_catch.
  assert (Hls : forall s0 : State,
             localStorage (if mentionsPermissionDenied error
                           then set_groomersPermissionDenied s0 else s0) = localStorage s0).
  { intros s0. by destruct (mentionsPermissionDenied error). }
  rewrite Hls. unfold getItem.
  destruct (items (localStorage s) !! "groomers") as [[msg|v]|]; simpl; eauto.
Qed.

Lemma local_or_default_source (fb : Firebase) (s : State) (localGroomers : jsval) :
  parse_or VNull (getItem (localStorage s) "groomers") = Normal localGroomers ->
  groomersSource fb s (local_or_default localGroomers).
Proof.
  unfold local_or_default. intros Hp.
  destruct (arr_nonempty localGroomers) eqn:E; [|by apply Defaults].
  destruct (getItem (localStorage s) "groomers") as [[msg|v]|] eqn:Hg; simpl in Hp.
  - discriminate.
  - injection Hp as ->. by apply FromStorage.
  - injection Hp as <-. discriminate.
Qed.

(** A list made of a primitive node is empty unless the primitive is a
    string with a character. *)
Lemma leaf_to_array_nil (data : primitive) :
  leaf_to_array data = []
  <-> (exists b, data = PBool b) \/ (exists z, data = PNum z) \/ data = PStr EmptyString.
Proof.
  destruct data as [b|z|[|c str]]; cbn; split; eauto; try discriminate;
    intros [[? H]|[[? H]|H]]; discriminate.
Qed.

(** What [getGroomers] answers on each of its paths: a value of one of
    the five sources, or the SyntaxError of an unparsable persisted entry. *)
Lemma getGroomers_answers (br : Browser) (fb : Firebase) (s : State) :
  match fst (getGroomers br fb s) with
  | Normal v => groomersSource fb s v
  | Throw e =>
      exists msg, getItem (localStorage s) "groomers" = Some (Unparsable msg)
                  /\ e = SyntaxError msg
  end.
Proof.
  unfold getGroomers.
  destruct (groomersPermissionDenied s).
  { destruct (parse_or VNull (getItem (localStorage s) "groomers")) as [v|e] eqn:Hp; simpl.
    - by apply local_or_default_source.
    - unfold parse_or in Hp. destruct (getItem _ _) as [[msg|v]|]; try discriminate.
      injection Hp as <-. eauto. }
  destruct (arr_nonempty (groomersCache s) && _) eqn:Hfresh.
  { simpl. apply andb_true_iff in Hfresh as [Hne _]. by apply FromCache. }
  assert (Hcatch : forall error (s1 : State),
             items (localStorage s1) = items (localStorage s) ->
             match fst (getGroomers_catch br error s1) with
             | Normal v => groomersSource fb s v
             | Throw e =>
                 exists msg, getItem (localStorage s) "groomers" = Some (Unparsable msg)
                             /\ e = SyntaxError msg
             end).
  { intros error s1 Hls. pose proof (getGroomers_catch_result br error s1) as H.
    destruct (fst (getGroomers_catch br error s1)) as [v|e].
    - destruct H as (lg & Hp & ->). unfold getItem in Hp. rewrite Hls in Hp.
      by apply local_or_default_source.
    - unfold getItem in H. by rewrite Hls in H. }
  assert (Hfound : forall groomers,
             match fst (getGroomers_found br groomers (remote [RGet "groomers"] s)) with
             | Normal v => v = VArr groomers
                           \/ groomersSource fb s v
             | Throw e =>
                 exists msg, getItem (localStorage s) "groomers" = Some (Unparsable msg)
                             /\ e = SyntaxError msg
             end).
  { intros groomers. unfold getGroomers_found, setItem.
    destruct (setItemError _ _ _ _) as [err|]; [|by left].
    match goal with |- context [getGroomers_catch br err ?s1] =>
      pose proof (Hcatch err s1 eq_refl) as H; destruct (fst (getGroomers_catch br err s1))
    end; [by right|done]. }
  destruct (db fb); simpl.
  - destruct (remote_get fb "groomers") as [[|child children]|data|error] eqn:Hget.
    + simpl. by apply Defaults.
    + pose proof (Hfound (children_to_array (child :: children))) as H.
      destruct (fst (getGroomers_found _ _ _)); [|done].
      destruct H as [->|H]; [|done]. by eapply FromRemote.
    + pose proof (Hfound (leaf_to_array data)) as H.
      destruct (fst (getGroomers_found _ _ _)); [|done].
      destruct H as [->|H]; [|done]. by eapply FromLeaf.
    + apply Hcatch. reflexivity.
  - destruct (parse_or VNull (getItem (localStorage s) "groomers")) as [v|error] eqn:Hp; simpl.
    + by apply local_or_default_source.
    + apply Hcatch. reflexivity.
Qed.

(** C10 (as amended).  [getGroomers] returns a list with at least one
    groomer, taken from the fresh cache, from the children of the remote
    snapshot, from the persisted copy, or else the three built-in defaults,
    whenever the data have the shapes the gateway itself produces: the
    [groomers] node, if it is read, does not hold a bare primitive, neither
    the cache nor the persisted entry is a string, and the persisted entry
    is absent or parses.  While the cache is fresh the persisted entry is
    not even looked at.  With the latch set, the persisted entry is all
    that is read, and when it does not parse the call raises the
    SyntaxError of [JSON.parse]. *)
Theorem getGroomers_nonempty_or_unparsable (br : Browser) (fb : Firebase) (s : State) :
  (forall data, remote_get fb "groomers" <> Leaf data) ->
  (forall str, groomersCache s <> VStr str) ->
  (forall str, getItem (localStorage s) "groomers" <> Some (Json (VStr str))) ->
  ((forall msg, getItem (localStorage s) "groomers" <> Some (Unparsable msg)) ->
     exists member members,
       fst (getGroomers br fb s) = Normal (VArr (member :: members))
       /\ groomersSource fb s (VArr (member :: members)))
  /\ (groomersPermissionDenied s = false -> groomersFresh br s = true ->
        exists member members,
          groomersCache s = VArr (member :: members)
          /\ getGroomers br fb s = (Normal (groomersCache s), s))
  /\ (groomersPermissionDenied s = true ->
        forall msg, getItem (localStorage s) "groomers" = Some (Unparsable msg) ->
                    getGroomers br fb s = (Throw (SyntaxError msg), s)).
Proof.
  intros Hleaf Hcache Hstored.
  assert (Hne : forall v, arr_nonempty v = true -> (forall str, v <> VStr str) ->
                          exists member members, v = VArr (member :: members)).
  { intros v Hv Hstr. destruct v as [| | |[|c str]|[|member members]|]; try discriminate.
    - by destruct (Hstr (String c str)).
    - eauto. }
  split; [|split].
  - intros Hparses. pose proof (getGroomers_answers br fb s) as H.
    destruct (fst (getGroomers br fb s)) as [v|e].
    + assert (Hv : exists member members, v = VArr (member :: members)).
      { destruct H as [-> Hv|children Hget Hc ->|data Hget _|Hget Hv| ->].
        - by apply Hne.
        - destruct children as [|child children]; [done|]. cbn. eauto.
        - by destruct (Hleaf data).
        - apply Hne; [done|]. intros str ->. by destruct (Hstored str).
        - cbn. eauto. }
      destruct Hv as (member & members & ->). eauto.
    + destruct H as (msg & Hmsg & _). by destruct (Hparses msg).
  - intros Hlatch Hfresh. unfold getGroomers. rewrite Hlatch.
    unfold groomersFresh in Hfresh. rewrite Hfresh.
    apply andb_true_iff in Hfresh as [Hv _].
    destruct (Hne _ Hv Hcache) as (member & members & Heq). eauto.
  - intros Hlatch msg Hmsg. unfold getGroomers. by rewrite Hlatch, Hmsg.
Qed.

(** C10 at a first call without a database and with nothing persisted: the
    built-in defaults are returned. *)
Lemma getGroomers_nonempty_or_unparsable_witness :
  exists member members,
    fst (getGroomers (browserAt 1000)
                     (mkFirebase false (fun _ => Snapshot []) (fun _ _ => None) None None)
                     (initial emptyStorage))
    = Normal (VArr (member :: members)).
Proof.
  destruct (getGroomers_nonempty_or_unparsable
              (browserAt 1000)
              (mkFirebase false (fun _ => Snapshot []) (fun _ _ => None) None None)
              (initial emptyStorage)) as (Hlist & _); try done.
  destruct Hlist as (member & members & Hret & _); [done|]. eauto.
Defined.

(** C10, counterexample.  A read of the groomers was denied, which set the
    latch; the persisted [groomers] entry has since been overwritten with
    text that is not JSON.  The next call reads that entry only, and
    raises: the caller receives no list at all. *)
Lemma getGroomers_latched_unparsable_raises :
  let s := session [CallGetGroomers (browserAt 1000) (readsRejected readDenied);
                    OtherStorageUse corruptGroomers]
                   (initial emptyStorage) in
  groomersPermissionDenied s = true
  /\ fst (getGroomers (browserAt 2000) accepting s)
     = Throw (SyntaxError "Unexpected token g in JSON at position 0").
Proof. by vm_compute. Qed.

(** Three more situations in which no list of groomers comes back.  The
    remote read fails and the persisted [groomers] entry is not JSON: the
    [JSON.parse] of the [catch] block throws. *)
Example getGroomers_unparsable_copy_raises :
  fst (getGroomers (browserAt 1000) unreachable (initial corruptGroomers))
  = Throw (SyntaxError "Unexpected token g in JSON at position 0")
  /\ getItem corruptGroomers "groomers" = Some (Unparsable "Unexpected token g in JSON at position 0")
  /\ mentionsPermissionDenied networkError = false.
Proof. by vm_compute. Qed.

(** The [groomers] node of the database holds a number: the snapshot
    exists and has no keys, so the empty list is cached, persisted and
    returned. *)
Example getGroomers_primitive_node_gives_empty_list :
  let r := getGroomers (browserAt 1000) (holdingLeaf (PNum 0)) (initial emptyStorage) in
  fst r = Normal (VArr [])
  /\ groomersCache (snd r) = VArr []
  /\ getItem (localStorage (snd r)) "groomers" = Some (Json (VArr [])).
Proof. by vm_compute. Qed.

(** The persisted [groomers] entry is a string with a character: it passes
    the test [localGroomers && localGroomers.length > 0] and is returned in
    place of a list. *)
Example getGroomers_persisted_string_is_returned :
  fst (getGroomers (browserAt 1000) unreachable (initial groomersAsText))
  = Normal (VStr "none yet").
Proof. by vm_compute. Qed.

End Groomers.

(** ** The gateway: writing bookings *)

Section Writes.
Import FirebaseDb.

Lemma defined_NaN_true (x : option jsnum) : defined_NaN x = true <-> x = Some NaN.
Proof.
  destruct x as [[]|]; simpl; split; congruence.
Qed.

Lemma defined_NaN_false (x : option jsnum) : defined_NaN x = false <-> x <> Some NaN.
Proof.
  rewrite <- defined_NaN_true. destruct (defined_NaN x); split; congruence.
Qed.

Lemma subtotal_or_zero_subtotal (b : jsobj) (c : Cost) (n : jsnum) :
  cost b = Some c -> subtotal c = Some n -> n <> NaN -> n <> Num 0 -> subtotal_or_zero b = n.
Proof.
  unfold subtotal_or_zero. intros -> -> Hnan Hzero.
  destruct n as [z| | |]; cbn; try done.
  destruct (z =? 0)%Z eqn:Hz; [|done]. apply Z.eqb_eq in Hz as ->. done.
Qed.

Lemma subtotal_or_zero_zero (b : jsobj) : noSubtotal b -> subtotal_or_zero b = Num 0.
Proof.
  unfold subtotal_or_zero. intros [->|(c & -> & [->|[->| ->]])]; done.
Qed.

Lemma subtotal_or_zero_not_NaN (b : jsobj) : subtotal_or_zero b <> NaN.
Proof.
  unfold subtotal_or_zero. destruct (cost b) as [c|]; [|done].
  destruct (subtotal c) as [[z| | |]|]; cbn; try done. by destruct (z =? 0)%Z.
Qed.

Lemma zero_if_NaN_not_NaN (x : option jsnum) : zero_if_NaN x <> Some NaN.
Proof. unfold zero_if_NaN. by destruct x as [[]|]. Qed.

Local Ltac by_cases_on_numbers b :=
  destruct b as [? ? ? ? ? ? ? ? ? ? ? ? ? ? ? ? tp co];
  destruct tp as [[]|]; destruct co as [[[[]|] ? [[]|]]|]; reflexivity.

Lemma sanitize_totalPrice (b : jsobj) :
  totalPrice (sanitize b)
  = if defined_NaN (totalPrice b) then Some (subtotal_or_zero b) else totalPrice b.
Proof. by_cases_on_numbers b. Qed.

Lemma sanitize_cost (b : jsobj) :
  cost (sanitize b)
  = option_map (fun c => mkCost (zero_if_NaN (subtotal c)) (bookingFee c)
                                (zero_if_NaN (balanceOnVisit c)))
               (cost b).
Proof. by_cases_on_numbers b. Qed.

Lemma sanitize_details (b : jsobj) : details (sanitize b) = details b.
Proof. by_cases_on_numbers b. Qed.

Lemma sanitize_id (b : jsobj) : id (sanitize b) = id b.
Proof. by_cases_on_numbers b. Qed.

Lemma sanitize_sanitized (b : jsobj) : sanitized b (sanitize b).
Proof.
  split.
  - rewrite sanitize_totalPrice. destruct (defined_NaN (totalPrice b)) eqn:E.
    + pose proof (subtotal_or_zero_not_NaN b). congruence.
    + by apply defined_NaN_false.
  - intros H. apply defined_NaN_false in H. by rewrite sanitize_totalPrice, H.
  - intros H c n Hc Hn Hnan Hzero. apply defined_NaN_true in H.
    rewrite sanitize_totalPrice, H. f_equal. by eapply subtotal_or_zero_subtotal.
  - intros H Hno. apply defined_NaN_true in H.
    rewrite sanitize_totalPrice, H. f_equal. by apply subtotal_or_zero_zero.
  - rewrite sanitize_cost. by destruct (cost b).
  - intros c0 c H0. rewrite sanitize_cost, H0. simpl. intros [= <-]. simpl.
    unfold zero_if_NaN.
    destruct (defined_NaN (subtotal c0)) eqn:Es;
      destruct (defined_NaN (balanceOnVisit c0)) eqn:Eb;
      repeat match goal with
             | H : defined_NaN _ = true |- _ => rewrite defined_NaN_true in H
             | H : defined_NaN _ = false |- _ => rewrite defined_NaN_false in H
             end;
      repeat split; congruence.
  - apply sanitize_details.
Qed.

(** *** The collection built by [saveBookings] *)

Lemma list_to_map_setProperty (key : string) (value : jsobj) (obj : properties) :
  (list_to_map (setProperty key value obj) : gmap string jsobj)
  = <[key := value]> (list_to_map obj).
Proof.
  induction obj as [|[k v] rest IH]; [done|]. cbn [setProperty].
  destruct (String.eqb k key) eqn:E.
  - apply String.eqb_eq in E as ->. cbn. by rewrite insert_insert_eq.
  - apply String.eqb_neq in E. cbn. rewrite IH. by apply insert_insert_ne.
Qed.

Lemma setProperty_keys (key : string) (value : jsobj) (obj : properties) (k : string) :
  k ∈ (setProperty key value obj).*1 <-> k = key \/ k ∈ obj.*1.
Proof.
  induction obj as [|[k0 v] rest IH]; cbn [setProperty].
  - cbn. rewrite list_elem_of_singleton. split; [by left|]. intros [H|H]; [done|].
    by apply not_elem_of_nil in H.
  - destruct (String.eqb k0 key) eqn:E.
    + apply String.eqb_eq in E as ->. cbn. rewrite !elem_of_cons. tauto.
    + cbn. rewrite !elem_of_cons, IH. tauto.
Qed.

Lemma setProperty_NoDup (key : string) (value : jsobj) (obj : properties) :
  NoDup obj.*1 -> NoDup (setProperty key value obj).*1.
Proof.
  induction obj as [|[k0 v] rest IH]; cbn [setProperty]; intros Hnd.
  - cbn. apply NoDup_singleton.
  - cbn in Hnd. apply NoDup_cons in Hnd as [Hnotin Hnd].
    destruct (String.eqb k0 key) eqn:E.
    + cbn. by apply NoDup_cons.
    + apply String.eqb_neq in E. cbn. apply NoDup_cons. split; [|by apply IH].
      rewrite setProperty_keys. intros [H|H]; done.
Qed.

Lemma bookingsObj_collection (bookings : list jsobj) :
  NoDup (bookingsObj bookings).*1
  /\ (list_to_map (bookingsObj bookings) : gmap string jsobj) = collection bookings.
Proof.
  unfold bookingsObj, collection.
  assert (H : forall (acc : properties),
             NoDup acc.*1 ->
             NoDup (foldl addBooking acc bookings).*1
             /\ (list_to_map (foldl addBooking acc bookings) : gmap string jsobj)
                = foldl (fun obj b => <[interpolate (id b) := sanitize b]> obj)
                        (list_to_map acc) bookings).
  { induction bookings as [|b l IH]; intros acc Hnd; [done|]. cbn [foldl].
    destruct (IH (addBooking acc b)) as [H1 H2].
    - by apply setProperty_NoDup.
    - split; [done|]. rewrite H2. unfold addBooking. by rewrite list_to_map_setProperty. }
  apply (H []). apply NoDup_nil_2.
Qed.

Lemma insertByIndex_perm (n : N) (entry : string * jsobj)
      (sorted : list (N * (string * jsobj))) :
  insertByIndex n entry sorted ≡ₚ (n, entry) :: sorted.
Proof.
  induction sorted as [|[m e] rest IH]; [done|]. cbn [insertByIndex].
  destruct (n <? m)%N; [done|]. rewrite IH. apply Permutation_swap.
Qed.

Lemma indexEntries_perm (obj : properties) :
  indexEntries obj
  ≡ₚ List.filter (fun entry => bool_decide (is_Some (arrayIndex (fst entry)))) obj.
Proof.
  unfold indexEntries.
  assert (H : forall acc : list (N * (string * jsobj)),
             map snd (foldl (fun sorted entry =>
                               match arrayIndex (fst entry) with
                               | Some n => insertByIndex n entry sorted
                               | None => sorted
                               end) acc obj)
             ≡ₚ map snd acc
                ++ List.filter (fun entry => bool_decide (is_Some (arrayIndex (fst entry)))) obj).
  { induction obj as [|entry rest IH]; intros acc; [by rewrite app_nil_r|].
    cbn [foldl List.filter]. rewrite IH.
    destruct (arrayIndex (fst entry)) as [n|].
    - rewrite bool_decide_eq_true_2 by eauto.
      rewrite (Permutation_map snd (insertByIndex_perm n entry acc)).
      cbn [map snd app]. apply Permutation_middle.
    - rewrite bool_decide_eq_false_2; [done|]. by intros [? ?]. }
  apply (H []).
Qed.

Lemma filter_partition {A : Type} (f : A -> bool) (l : list A) :
  List.filter f l ++ List.filter (fun x => negb (f x)) l ≡ₚ l.
Proof.
  induction l as [|x l IH]; [done|]. cbn [List.filter].
  destruct (f x); cbn [negb app].
  - by rewrite IH.
  - rewrite <- Permutation_middle. by rewrite IH.
Qed.

Lemma Object_entries_perm (obj : properties) : Object_entries obj ≡ₚ obj.
Proof.
  unfold Object_entries. rewrite indexEntries_perm. apply filter_partition.
Qed.

(** The children that [saveBookings] writes are those of the collection. *)
Lemma bookingsObj_entries (bookings : list jsobj) :
  Object_entries (bookingsObj bookings) ≡ₚ map_to_list (collection bookings).
Proof.
  destruct (bookingsObj_collection bookings) as [Hnd Hmap].
  rewrite Object_entries_perm, <- Hmap. symmetry. by apply map_to_list_to_map.
Qed.

Lemma collection_lookup (bookings : list jsobj) (k : string) (o : jsobj) :
  collection bookings !! k = Some o ->
  exists b, In b bookings /\ k = interpolate (id b) /\ o = sanitize b.
Proof.
  unfold collection.
  assert (H : forall acc : gmap string jsobj,
             foldl (fun obj b => <[interpolate (id b) := sanitize b]> obj) acc bookings !! k
             = Some o ->
             acc !! k = Some o
             \/ exists b, In b bookings /\ k = interpolate (id b) /\ o = sanitize b).
  { induction bookings as [|b l IH]; intros acc H; simpl in *; [by left|].
    apply IH in H as [H|(b' & Hin & Hk & Ho)].
    - destruct (decide (interpolate (id b) = k)) as [<-|Hne].
      + rewrite lookup_insert_eq in H. injection H as <-. right. exists b. auto.
      + rewrite lookup_insert_ne in H by done. by left.
    - right. exists b'. auto. }
  intros Hk. apply H in Hk as [Hk|Hk]; [|done]. by rewrite lookup_empty in Hk.
Qed.

Lemma collection_covers (bookings : list jsobj) (b : jsobj) :
  In b bookings -> is_Some (collection bookings !! interpolate (id b)).
Proof.
  unfold collection.
  assert (Hkeeps : forall (l : list jsobj) (acc : gmap string jsobj) (k : string),
             is_Some (acc !! k) ->
             is_Some (foldl (fun obj b => <[interpolate (id b) := sanitize b]> obj) acc l
                      !! k)).
  { induction l as [|b' l IH]; intros acc k H; simpl; [done|].
    apply IH. destruct (decide (interpolate (id b') = k)) as [<-|Hne].
    - rewrite lookup_insert_eq. eauto.
    - by rewrite lookup_insert_ne. }
  generalize (∅ : gmap string jsobj).
  induction bookings as [|b' l IH]; intros acc Hin; simpl in *; [done|].
  destruct Hin as [Heq|Hin].
  - subst b'. apply Hkeeps. rewrite lookup_insert_eq. eauto.
  - by apply IH.
Qed.

(** The errors of the per-child writes, in the order of the writes. *)
Lemma rejections_nil (fb : Firebase) (bookings : list jsobj) :
  omap (fun kv : string * jsobj => remote_set fb (childPath (fst kv)) (PObj (snd kv)))
       (Object_entries (bookingsObj bookings)) = []
  <-> ~ childRejected fb (collection bookings).
Proof.
  pose proof (bookingsObj_entries bookings) as Hperm.
  unfold childRejected. split.
  - intros Hnil (k & o & Hko & Hrej).
    destruct (remote_set fb ("bookings/" ++ k) (PObj o)) as [e|] eqn:He; [|done].
    assert (Hin : e ∈ omap (fun kv : string * jsobj =>
                              remote_set fb (childPath (fst kv)) (PObj (snd kv)))
                           (Object_entries (bookingsObj bookings))).
    { apply list_elem_of_omap. exists (k, o). split; [|done].
      rewrite Hperm. by apply elem_of_map_to_list. }
    rewrite Hnil in Hin. by apply not_elem_of_nil in Hin.
  - intros Hno.
    destruct (omap _ _) as [|e rest] eqn:Hom; [done|]. exfalso. apply Hno.
    assert (Hin : e ∈ omap (fun kv : string * jsobj =>
                              remote_set fb (childPath (fst kv)) (PObj (snd kv)))
                           (Object_entries (bookingsObj bookings))).
    { rewrite Hom. apply list_elem_of_here. }
    apply list_elem_of_omap in Hin as ([k o] & Hin & He).
    rewrite Hperm in Hin. apply elem_of_map_to_list in Hin.
    exists k, o. split; [done|]. unfold childPath in He. cbn [fst snd] in He. congruence.
Qed.

Lemma classic_childRejected (fb : Firebase) (bookings : list jsobj) :
  childRejected fb (collection bookings) \/ ~ childRejected fb (collection bookings).
Proof.
  destruct (omap (fun kv : string * jsobj =>
                    remote_set fb (childPath (fst kv)) (PObj (snd kv)))
                 (Object_entries (bookingsObj bookings))) as [|e rest] eqn:E.
  - right. by apply rejections_nil.
  - left. destruct (rejections_nil fb bookings) as [_ Hnil].
    assert (Hnn : ~ ~ childRejected fb (collection bookings)).
    { intros Hno. apply Hnil in Hno. congruence. }
    assert (Hin : e ∈ omap (fun kv : string * jsobj =>
                              remote_set fb (childPath (fst kv)) (PObj (snd kv)))
                           (Object_entries (bookingsObj bookings))).
    { rewrite E. apply list_elem_of_here. }
    apply list_elem_of_omap in Hin as ([k o] & Hin & He).
    rewrite (bookingsObj_entries bookings) in Hin. apply elem_of_map_to_list in Hin.
    exists k, o. split; [done|]. unfold childPath in He. cbn [fst snd] in He. congruence.
Qed.

Lemma newCalls_remote (s : State) (calls : list RemoteOp) (s' : State) :
  remoteLog s' = remoteLog s ++ calls -> newCalls s s' = calls.
Proof. unfold newCalls. intros ->. by rewrite drop_app_length. Qed.

Lemma markWriteDenied_remoteLog (e : JsError) (s : State) :
  remoteLog (markWriteDenied e s) = remoteLog s.
Proof. unfold markWriteDenied. by destruct (isPermissionError e). Qed.

Lemma markWriteDenied_localStorage (e : JsError) (s : State) :
  localStorage (markWriteDenied e s) = localStorage s.
Proof. unfold markWriteDenied. by destruct (isPermissionError e). Qed.

Lemma markWriteDenied_flag (e : JsError) (s : State) :
  firebaseWriteDenied (markWriteDenied e s) = isPermissionError e || firebaseWriteDenied s.
Proof. unfold markWriteDenied. by destruct (isPermissionError e). Qed.

Lemma saveBookings_calls (fb : Firebase) (bookings : list jsobj) (s : State) :
  newCalls s (snd (saveBookings fb bookings s))
  = if db fb
    then map childWrite (Object_entries (bookingsObj bookings))
         ++ match omap (fun kv : string * jsobj =>
                          remote_set fb (childPath (fst kv)) (PObj (snd kv)))
                       (Object_entries (bookingsObj bookings)) with
            | [] => []
            | _ :: _ => [rootWrite (collection bookings)]
            end
    else [].
Proof.
  apply newCalls_remote. unfold saveBookings.
  destruct (bookingsObj_collection bookings) as [_ Hmap]. rewrite Hmap.
  destruct (db fb); simpl.
  - destruct (omap _ _) as [|e rest]; simpl.
    + by rewrite app_nil_r.
    + destruct (remote_set fb "bookings" _); simpl;
        rewrite ?markWriteDenied_remoteLog; simpl; by rewrite <- app_assoc.
  - by rewrite markWriteDenied_remoteLog, app_nil_r.
Qed.

(** Every booking of the list has its key in the collection, and the child
    of that key is written on a path of its own. *)
Lemma saveBookings_covers (fb : Firebase) (bookings : list jsobj) (s : State) (b : jsobj) :
  db fb = true -> In b bookings ->
  exists o, collection bookings !! interpolate (id b) = Some o
            /\ In (RSet ("bookings/" ++ interpolate (id b)) (PObj o))
                  (newCalls s (snd (saveBookings fb bookings s))).
Proof.
  intros Hdb Hin. rewrite saveBookings_calls, Hdb.
  destruct (collection_covers bookings b Hin) as [o Ho].
  exists o. split; [done|]. apply in_or_app. left.
  apply in_map_iff. exists (interpolate (id b), o). split; [done|].
  apply list_elem_of_In. rewrite (bookingsObj_entries bookings). by apply elem_of_map_to_list.
Qed.

(** C4 (as amended).  [saveBookings] writes every booking as a child record
    of its own: one [set] on [bookings/<id>] per key of the collection it
    builds, all of them issued whatever the others answer, and no other
    call when none of them is rejected.  Only when one of them was rejected
    does it attempt the single root write, as its last call.  The call
    fails exactly when that last resort fails too (or there is no
    database), and what it raises is the error of the root write, not that
    of the child.  [window.firebaseWriteDenied] is set exactly when the
    error raised is a permission denial (and stays set if it was): a child
    write that is denied sets nothing when the root write is accepted, or
    fails for another reason.  On no path is [localStorage] touched, and a
    call that resolves leaves the bookings cache invalidated. *)
Theorem saveBookings_per_child_then_root
    (fb : Firebase) (bookings : list jsobj) (s : State) :
  let obj := collection bookings in
  let r := saveBookings fb bookings s in
  localStorage (snd r) = localStorage s
  /\ (db fb = true ->
        exists children,
          children ≡ₚ map childWrite (map_to_list obj)
          /\ ((~ childRejected fb obj /\ newCalls s (snd r) = children)
              \/ (childRejected fb obj /\ newCalls s (snd r) = children ++ [rootWrite obj])))
  /\ (db fb = true ->
        forall b, In b bookings ->
          exists o, obj !! interpolate (id b) = Some o
                    /\ In (RSet ("bookings/" ++ interpolate (id b)) (PObj o))
                          (newCalls s (snd r)))
  /\ (db fb = false -> newCalls s (snd r) = [])
  /\ (forall e, fst r = Throw e <->
        (db fb = false /\ e = Error "Firebase Database not initialized")
        \/ (db fb = true /\ childRejected fb obj
            /\ remote_set fb "bookings" (PDict obj) = Some e))
  /\ firebaseWriteDenied (snd r) = raisedDenial (fst r) || firebaseWriteDenied s
  /\ (fst r = Normal tt ->
        bookingsCache (snd r) = VNull /\ bookingsCacheTime (snd r) = 0%Z).
Proof.
  cbv zeta.
  pose proof (saveBookings_calls fb bookings s) as Hcalls.
  pose proof (rejections_nil fb bookings) as Hnil.
  pose proof (bookingsObj_entries bookings) as Hperm.
  pose proof (saveBookings_covers fb bookings s) as Hcovered.
  destruct (bookingsObj_collection bookings) as [_ Hmap].
  unfold saveBookings in *. rewrite Hmap in *.
  destruct (db fb) eqn:Hdb; simpl in *.
  - destruct (omap _ _) as [|e0 rest] eqn:Hrej; simpl in *.
    + assert (Hno : ~ childRejected fb (collection bookings)) by (by apply Hnil).
      rewrite app_nil_r in Hcalls.
      split; [done|]. split.
      { intros _. eexists. split; [by rewrite <- Hperm|]. left. by rewrite Hcalls. }
      split.
      { intros _ b Hin. by apply Hcovered. }
      split; [discriminate|]. split.
      { intros e. split; [discriminate|]. intros [[? _]|(_ & Hrejd & _)]; [discriminate|done]. }
      split; done.
    + assert (Hyes : childRejected fb (collection bookings)).
      { destruct (classic_childRejected fb bookings) as [H|H]; [done|].
        apply Hnil in H. discriminate. }
      destruct (remote_set fb "bookings" (PDict (collection bookings))) as [rootErr|] eqn:Hroot;
        simpl in *.
      * rewrite !markWriteDenied_localStorage, !markWriteDenied_flag. simpl.
        split; [done|]. split.
        { intros _. eexists. split; [by rewrite <- Hperm|]. right. by rewrite Hcalls. }
        split.
        { intros _ b Hin. by apply Hcovered. }
        split; [discriminate|]. split.
        { intros e. split.
          - intros [= <-]. right. done.
          - intros [[? _]|(_ & _ & [= <-])]; [discriminate|done]. }
        split; [|discriminate].
        by destruct (isPermissionError rootErr).
      * split; [done|]. split.
        { intros _. eexists. split; [by rewrite <- Hperm|]. right. by rewrite Hcalls. }
        split.
        { intros _ b Hin. by apply Hcovered. }
        split; [discriminate|]. split.
        { intros e. split; [discriminate|].
          intros [[? _]|(_ & _ & ?)]; discriminate. }
        split; done.
  - rewrite markWriteDenied_localStorage, markWriteDenied_flag. simpl.
    split; [done|]. split; [discriminate|]. split; [discriminate|]. split; [done|]. split.
    { intros e. split.
      - intros [= <-]. by left.
      - intros [[_ ->]|(? & _)]; [done|discriminate]. }
    split; [done|discriminate].
Qed.

(** C4 at the scenario of the specification: the raised error is a
    permission denial, so the flag is set. *)
Lemma saveBookings_per_child_then_root_witness :
  firebaseWriteDenied
    (snd (saveBookings onlyFirstWritable [booking1 None None; booking2] (initial emptyStorage)))
  = true.
Proof.
  destruct (saveBookings_per_child_then_root
              onlyFirstWritable [booking1 None None; booking2] (initial emptyStorage))
    as (_ & _ & _ & _ & _ & Hflag & _).
  rewrite Hflag. vm_compute. reflexivity.
Defined.

(** C4, counterexample.  Of two bookings, the write of the second is denied
    for permission.  When the root write that follows is accepted, the call
    resolves and the write-denied flag stays unset; when the root write
    fails on the network, the call raises that network error, and the flag
    stays unset as well. *)
Lemma child_denial_alone_sets_no_flag :
  let bookings := [booking1 None None; booking2] in
  let accepted := saveBookings (secondDenied None) bookings (initial emptyStorage) in
  let failed := saveBookings (secondDenied (Some networkError)) bookings
                             (initial emptyStorage) in
  remote_set (secondDenied None) "bookings/b2" (PObj booking2) = Some permissionDenied
  /\ isPermissionError permissionDenied = true
  /\ fst accepted = Normal tt
  /\ firebaseWriteDenied (snd accepted) = false
  /\ fst failed = Throw networkError
  /\ firebaseWriteDenied (snd failed) = false.
Proof. by vm_compute. Qed.

(** The scenario of the specification: of two bookings, the write of the
    second is denied (and so is the root write that follows): the first
    booking was written on its own, the call raises the denial, and the
    write-denied flag is set. *)
Example second_write_denied :
  let b1 := booking1 None None in
  let r := saveBookings onlyFirstWritable [b1; booking2] (initial emptyStorage) in
  fst r = Throw permissionDenied
  /\ firebaseWriteDenied (snd r) = true
  /\ remoteLog (snd r)
     = [RSet "bookings/b1" (PObj b1); RSet "bookings/b2" (PObj booking2);
        rootWrite (collection [b1; booking2])]
  /\ localStorage (snd r) = emptyStorage.
Proof. vm_compute. repeat split; auto. Qed.

(** The per-child writes go out in the order of [Object.keys]: the ids that
    are array indices first, by ascending index, then the others as they
    came. *)
Example child_writes_follow_Object_keys :
  let named (i : string) :=
    mkObj (Some i) None None None None None None None None None
          None None None None None None None None in
  newCalls (initial emptyStorage)
           (snd (saveBookings accepting [named "b"; named "10"; named "a"; named "9"; named "07"]
                              (initial emptyStorage)))
  = [RSet "bookings/9" (PObj (named "9")); RSet "bookings/10" (PObj (named "10"));
     RSet "bookings/b" (PObj (named "b")); RSet "bookings/a" (PObj (named "a"));
     RSet "bookings/07" (PObj (named "07"))].
Proof. by vm_compute. Qed.

Lemma updateBooking_calls (fb : Firebase) (booking : option jsobj) (s : State) :
  newCalls s (snd (updateBooking fb booking s))
  = match booking with
    | Some b0 =>
        if db fb && negb (missing_id booking)
        then [RSet (childPath (interpolate (id (sanitize b0)))) (PObj (sanitize b0))]
        else []
    | None => []
    end.
Proof.
  apply newCalls_remote. unfold updateBooking.
  destruct (db fb); cbn [negb andb snd].
  - destruct booking as [b0|]; cbn [snd].
    + destruct (missing_id (Some b0)); cbn [negb snd].
      * by rewrite markWriteDenied_remoteLog, app_nil_r.
      * destruct (remote_set fb _ _); cbn [snd]; by rewrite ?markWriteDenied_remoteLog.
    + by rewrite markWriteDenied_remoteLog, app_nil_r.
  - rewrite markWriteDenied_remoteLog. destruct booking; by rewrite app_nil_r.
Qed.

(** C6 (as amended).  Every booking that [saveBookings] or [updateBooking]
    hands to the database is the sanitised form of a booking it was given
    (and each booking given is handed over in that form, the last one when
    several share an id), and in the sanitised form [totalPrice], [cost.subtotal] and
    [cost.balanceOnVisit] are never NaN: a NaN subtotal or balance has
    become 0; a NaN total price has become the subtotal the booking came
    with when that is a number other than 0 (an infinite one included), and
    0 when that subtotal is missing, NaN or 0; and every value that is not
    NaN, infinities included, is written as it came.  [cost.bookingFee] is
    not looked at: it is written unchanged, and so are the properties that
    are not prices. *)
Theorem written_bookings_sanitized (fb : Firebase) (s : State) :
  (forall bookings o,
      written (newCalls s (snd (saveBookings fb bookings s))) o ->
      exists b, In b bookings /\ sanitized b o)
  /\ (forall booking o,
        written (newCalls s (snd (updateBooking fb booking s))) o ->
        exists b, booking = Some b /\ sanitized b o)
  /\ (forall bookings b, db fb = true -> In b bookings ->
        exists b' o, In b' bookings /\ interpolate (id b') = interpolate (id b)
                     /\ sanitized b' o
                     /\ written (newCalls s (snd (saveBookings fb bookings s))) o)
  /\ (forall b i, db fb = true -> id b = Some i -> i <> EmptyString ->
        exists o, sanitized b o
                  /\ written (newCalls s (snd (updateBooking fb (Some b) s))) o).
Proof.
  split; [|split; [|split]].
  - intros bookings o Hw. rewrite saveBookings_calls in Hw.
    assert (Hchild : forall path p,
              In (RSet path p) (map childWrite (Object_entries (bookingsObj bookings))) ->
              exists k v, p = PObj v /\ collection bookings !! k = Some v).
    { intros path p Hin. apply in_map_iff in Hin as ([k v] & Heq & Hin).
      injection Heq as _ <-. exists k, v. split; [done|].
      apply elem_of_map_to_list. rewrite <- (bookingsObj_entries bookings).
      by apply list_elem_of_In. }
    assert (Hobj : forall k v, collection bookings !! k = Some v ->
              exists b, In b bookings /\ sanitized b v).
    { intros k v Hkv. apply collection_lookup in Hkv as (b & ? & _ & ->).
      exists b. split; [done|apply sanitize_sanitized]. }
    destruct (db fb); [|by destruct Hw as [(? & [])|(? & ? & ? & [] & _)]].
    destruct Hw as [(path & Hin)|(path & d & k & Hin & Hd)];
      apply in_app_or in Hin as [Hin|Hin].
    + apply Hchild in Hin as (k & v & [= <-] & Hkv). by eapply Hobj.
    + destruct (omap _ _); [done|].
      destruct Hin as [Heq|[]]. discriminate.
    + apply Hchild in Hin as (k' & v & Heq & _). discriminate.
    + destruct (omap _ _); [done|].
      destruct Hin as [Heq|[]]. unfold rootWrite in Heq. injection Heq as _ <-.
      by eapply Hobj.
  - intros booking o Hw. rewrite updateBooking_calls in Hw.
    destruct booking as [b0|]; [|by destruct Hw as [(? & [])|(? & ? & ? & [] & _)]].
    exists b0. split; [done|].
    destruct (db fb && negb (missing_id (Some b0)));
      [|by destruct Hw as [(? & [])|(? & ? & ? & [] & _)]].
    destruct Hw as [(path & [Heq|[]])|(path & d & k & [Heq|[]] & _)]; [|discriminate].
    injection Heq as _ <-. apply sanitize_sanitized.
  - intros bookings b Hdb Hin.
    destruct (saveBookings_covers fb bookings s b Hdb Hin) as (o & Ho & Hw).
    apply collection_lookup in Ho as (b' & Hin' & Hk & ->).
    exists b', (sanitize b'). split; [done|]. split; [done|].
    split; [apply sanitize_sanitized|]. left. eauto.
  - intros b i Hdb Hid Hne. exists (sanitize b). split; [apply sanitize_sanitized|].
    rewrite updateBooking_calls, Hdb. unfold missing_id. rewrite Hid.
    apply String.eqb_neq in Hne. rewrite Hne. cbn. left. eexists. by left.
Qed.

(** C6 at an update of a booking whose total price, subtotal and balance
    are all NaN: what is written has 0 for the three of them, and the
    booking fee, NaN as well, as it came. *)
Lemma written_bookings_sanitized_witness :
  exists o, written (newCalls (initial emptyStorage)
                              (snd (updateBooking accepting (Some allNaN) (initial emptyStorage))))
                    o
            /\ totalPrice o = Some (Num 0)
            /\ (cost o ≫= subtotal) = Some (Num 0)
            /\ (cost o ≫= balanceOnVisit) = Some (Num 0)
            /\ (cost o ≫= bookingFee) = Some NaN.
Proof.
  destruct (written_bookings_sanitized accepting (initial emptyStorage)) as (_ & _ & _ & Hupdate).
  destruct (Hupdate allNaN "b7" eq_refl eq_refl) as (o & Hsan & Hw); [done|].
  exists o. split; [done|].
  destruct (cost o) as [c|] eqn:Hc.
  - destruct (san_cost _ _ Hsan _ c eq_refl Hc) as (_ & _ & _ & Hsub & _ & Hbal & Hfee).
    split; [|cbn; rewrite Hsub, Hbal, Hfee; done].
    apply (san_totalPrice_zero _ _ Hsan eq_refl). right. eexists. split; [reflexivity|].
    right. by left.
  - apply (san_cost_defined _ _ Hsan) in Hc. discriminate.
Defined.

(** C6, counterexample.  A booking whose [cost.bookingFee] is NaN and whose
    [cost.subtotal] is Infinity is written as it is, by [updateBooking] and
    by [saveBookings] alike. *)
Lemma bookingFee_NaN_is_written :
  let b := booking1 (Some NaN) (Some PosInf) in
  newCalls (initial emptyStorage) (snd (updateBooking accepting (Some b) (initial emptyStorage)))
  = [RSet "bookings/b1" (PObj b)]
  /\ newCalls (initial emptyStorage) (snd (saveBookings accepting [b] (initial emptyStorage)))
     = [RSet "bookings/b1" (PObj b)]
  /\ (cost b ≫= bookingFee) = Some NaN
  /\ (cost b ≫= subtotal) = Some PosInf.
Proof. by vm_compute. Qed.

(** A total price that is NaN becomes the subtotal the booking came with. *)
Example total_price_from_subtotal :
  totalPrice (sanitize totalNaN) = Some (Num 350)
  /\ cost (sanitize totalNaN) = cost totalNaN.
Proof. by vm_compute. Qed.

End Writes.

(** ** The gateway: reading bookings, users and groomers *)

Section Reads.
Import FirebaseDb.

Local Ltac calls :=
  unfold newCalls; cbn [fst snd remoteLog remote set_bookingsCache set_usersCache set_groomersCache
                        set_bookingsPermissionDenied set_usersPermissionDenied
                        set_groomersPermissionDenied set_localStorage];
  rewrite <- ?app_assoc, ?drop_app_length, ?drop_all; cbn [In app].

(** *** Bookings *)

Lemma getBookings_catch_remoteLog (error : JsError) (s : State) :
  remoteLog (snd (getBookings_catch error s)) = remoteLog s.
Proof.
  unfold getBookings_catch.
  destruct (mentionsPermissionDenied error); simpl;
    repeat (match goal with |- context [match ?x with _ => _ end] => destruct x end; simpl);
    reflexivity.
Qed.



Lemma getBookings_latched (br : Browser) (fb : Firebase) (s : State) :
  bookingsPermissionDenied s = true ->
  getBookings br fb s = (persistedCopy "bookings" s, s).
Proof. unfold getBookings. by intros ->. Qed.

Lemma getBookings_calls (br : Browser) (fb : Firebase) (s : State) :
  newCalls s (snd (getBookings br fb s))
  = if negb (bookingsPermissionDenied s) && negb (bookingsFresh br s) && db fb
    then [RGet "bookings"] else [].
Proof.
  unfold getBookings. fold (bookingsFresh br s).
  destruct (bookingsPermissionDenied s); [by calls|].
  destruct (bookingsFresh br s); [by calls|].
  destruct (db fb); cbn [negb andb].
  - unfold getBookings_found.
    destruct (remote_get fb "bookings") as [[|child children]|data|error]; cbn [snd].
    + by calls.
    + by calls.
    + by calls.
    + unfold newCalls. rewrite getBookings_catch_remoteLog. by calls.
  - destruct (parse_or _ _); cbn [snd]; [by calls|].
    unfold newCalls. rewrite getBookings_catch_remoteLog. by calls.
Qed.

(** The result of a remote read of the bookings. *)
Lemma getBookings_remote (br : Browser) (fb : Firebase) (s : State) :
  bookingsPermissionDenied s = false -> bookingsFresh br s = false -> db fb = true ->
  match remote_get fb "bookings" with
  | Snapshot children => fst (getBookings br fb s) = Normal (VArr (children_to_array children))
  | Leaf data => fst (getBookings br fb s) = Normal (VArr (leaf_to_array data))
  | Rejected error =>
      getBookings br fb s = getBookings_catch error (remote [RGet "bookings"] s)
  end.
Proof.
  intros Hflag Hfresh Hdb. unfold getBookings. fold (bookingsFresh br s).
  rewrite Hflag, Hfresh, Hdb. cbn [negb].
  by destruct (remote_get fb "bookings") as [[|child children]|data|error].
Qed.

(** C3 (as amended).  A successful [updateBooking] leaves the bookings
    cache absent ([null], time 0).  The next [getBookings] therefore never
    answers from the in-memory cache, whatever the clock says: when the
    read latch is not set and the database is available it performs the
    remote read, and returns the remote list when that read succeeds; when
    the read latch is set it performs no remote read and returns the
    persisted copy. *)
Theorem updateBooking_invalidates_cache
    (fb : Firebase) (booking : option jsobj) (s : State) (updated : jsobj) (s' : State) :
  updateBooking fb booking s = (Normal updated, s') ->
  bookingsCache s' = VNull
  /\ bookingsCacheTime s' = 0%Z
  /\ forall (br : Browser) (fb' : Firebase),
      bookingsFresh br s' = false
      /\ (bookingsPermissionDenied s' = false -> db fb' = true ->
            newCalls s' (snd (getBookings br fb' s')) = [RGet "bookings"]
            /\ forall children,
                remote_get fb' "bookings" = Snapshot children ->
                fst (getBookings br fb' s') = Normal (VArr (children_to_array children)))
      /\ (bookingsPermissionDenied s' = true ->
            getBookings br fb' s' = (persistedCopy "bookings" s', s')).
Proof.
  intros Hupd.
  assert (Hcache : bookingsCache s' = VNull /\ bookingsCacheTime s' = 0%Z).
  { unfold updateBooking in Hupd.
    destruct (db fb); [|discriminate]. cbn [negb] in Hupd.
    destruct booking as [b0|]; [|discriminate].
    destruct (missing_id (Some b0)); [discriminate|].
    destruct (remote_set fb _ _); [discriminate|].
    injection Hupd as _ <-. done. }
  destruct Hcache as [Hc Ht]. split; [done|]. split; [done|].
  intros br fb'.
  assert (Hfresh : bookingsFresh br s' = false) by (unfold bookingsFresh; by rewrite Hc).
  split; [done|]. split.
  - intros Hflag Hdb. split.
    + rewrite getBookings_calls, Hflag, Hfresh, Hdb. done.
    + intros children Hget.
      pose proof (getBookings_remote br fb' s' Hflag Hfresh Hdb) as H.
      by rewrite Hget in H.
  - apply getBookings_latched.
Qed.

(** C3 at an update that follows a denied read. *)
Lemma updateBooking_invalidates_cache_witness :
  let s' := snd (updateBooking accepting (Some booking2) afterDeniedRead) in
  bookingsCache s' = VNull
  /\ bookingsCacheTime s' = 0%Z
  /\ forall (br : Browser) (fb' : Firebase),
      bookingsFresh br s' = false
      /\ (bookingsPermissionDenied s' = false -> db fb' = true ->
            newCalls s' (snd (getBookings br fb' s')) = [RGet "bookings"]
            /\ forall children,
                remote_get fb' "bookings" = Snapshot children ->
                fst (getBookings br fb' s') = Normal (VArr (children_to_array children)))
      /\ (bookingsPermissionDenied s' = true ->
            getBookings br fb' s' = (persistedCopy "bookings" s', s')).
Proof.
  apply (updateBooking_invalidates_cache accepting (Some booking2) afterDeniedRead booking2).
  vm_compute. reflexivity.
Defined.

(** C3, counterexample.  The list was cached, a later read was denied (the
    latch is set), then a booking is updated successfully: the cache is
    dropped, yet the next [getBookings] makes no remote read and returns
    the list that was cached before the update. *)
Lemma getBookings_after_update_not_remote :
  let s' := snd (updateBooking accepting (Some booking2) afterDeniedRead) in
  fst (updateBooking accepting (Some booking2) afterDeniedRead) = Normal booking2
  /\ bookingsCache afterDeniedRead = VArr [Some (booking1 None None)]
  /\ bookingsCache s' = VNull
  /\ fst (getBookings (browserAt 60000) (holding [("b2", booking2)]) s')
     = Normal (VArr [Some (booking1 None None)])
  /\ newCalls s' (snd (getBookings (browserAt 60000) (holding [("b2", booking2)]) s')) = [].
Proof. by vm_compute. Qed.


Lemma getBookings_reads_iff (br : Browser) (fb : Firebase) (s : State) :
  readsRemote "bookings" s (snd (getBookings br fb s))
  <-> bookingsPermissionDenied s = false /\ bookingsFresh br s = false /\ db fb = true.
Proof.
  unfold readsRemote. rewrite getBookings_calls.
  destruct (bookingsPermissionDenied s), (bookingsFresh br s), (db fb); simpl;
    split; intros H;
    try (destruct H as (?&?&?); discriminate); try (destruct H; fail);
    try done; by left.
Qed.

(** *** Users *)









(** *** Groomers *)







(** *** The latches over a session *)








End Reads.

(** ** The security log *)

Section SecurityLog.
Import BookingSecurityLogger.

Lemma trim_drop (logs : list (option jsobj)) :
  trim logs = drop (length logs - MAX_LOGS) logs.
Proof.
  unfold trim. destruct (MAX_LOGS <? length logs)%nat eqn:E; [done|].
  apply Nat.ltb_ge in E. by replace (length logs - MAX_LOGS)%nat with 0%nat by lia.
Qed.


Lemma trim_last (logs : list (option jsobj)) (entry : option jsobj) :
  last (trim (logs ++ [entry])) = Some entry.
Proof.
  rewrite trim_drop. unfold MAX_LOGS.
  rewrite length_app. cbn [length].
  replace (length logs + 1 - 100)%nat with (length logs - 99)%nat by lia.
  rewrite drop_app_le by lia. by rewrite last_snoc.
Qed.

Lemma getLogs_storage (br : Browser) (s : Logger) :
  storage (snd (getLogs br s)) = storage s.
Proof.
  unfold getLogs. destruct (truthy (_cache s) && _); [done|].
  by destruct (getItem (storage s) STORAGE_KEY) as [[msg|v]|].
Qed.







(** With 100 entries persisted, appending one more drops the oldest. *)
Example hundred_and_first_entry :
  getItem (storage (saveLog (browserAt 1000000) (logEntryAt 101) (loggerWith (logsUpTo 100))))
          STORAGE_KEY
  = Some (Json (VArr (drop 1 (logsUpTo 100) ++ [Some (logEntryAt 101)]))).
Proof. by vm_compute. Qed.

End SecurityLog.

(** ** The storage manager *)

Section ImmediateWrites.
Import StorageManager.

Lemma all_objects_objects (l : list jsobj) : all_objects (objects l) = Some l.
Proof.
  induction l as [|o l IH]; [done|].
  change (all_objects (objects (o :: l))) with (option_map (cons o) (all_objects (objects l))).
  by rewrite IH.
Qed.

Lemma all_objects_Some (l : list (option jsobj)) (objs : list jsobj) :
  all_objects l = Some objs -> l = objects objs.
Proof.
  revert objs. induction l as [|[o|] l IH]; intros objs H; simpl in H.
  - by injection H as <-.
  - destruct (all_objects l) as [objs'|]; [|discriminate].
    injection H as <-. simpl. by rewrite (IH objs').
  - discriminate.
Qed.

Lemma filter_without {A : Type} (expired : A -> Prop) (keep : A -> bool) (l : list A) :
  (forall x, keep x = false <-> expired x) -> without expired l (List.filter keep l).
Proof.
  intros Hkeep. induction l as [|x l IH]; cbn [List.filter]; [constructor|].
  destruct (keep x) eqn:Hx.
  - apply without_keep; [|done]. intros Hexp. apply Hkeep in Hexp. congruence.
  - apply without_drop; [|done]. by apply Hkeep.
Qed.

Lemma without_functional {A : Type} (expired : A -> Prop) (l kept kept' : list A) :
  without expired l kept -> without expired l kept' -> kept = kept'.
Proof.
  intros H. revert kept'. induction H as [|x l kept Hx H IH|x l kept Hx H IH]; intros kept' H'.
  - by inversion H'.
  - inversion H' as [|? ? ? Hx' H''|? ? ? Hx' H'']; subst; [by apply IH|done].
  - inversion H' as [|? ? ? Hx' H''|? ? ? Hx' H'']; subst; [done|]. f_equal. by apply IH.
Qed.








(** An instance: a store that holds at most three entries is full; writing
    a new key fails, the cleanup evicts three entries and trims the
    bookings, and the retry succeeds. *)
Example writeImmediate_on_full_store :
  let r := writeImmediate (smallStore 3) "users" (Serializable (Json (VArr []))) fullStore in
  fst r = Normal true
  /\ items (snd r) !! "users" = Some (Json (VArr []))
  /\ items (snd r) !! "bookings"
     = Some (Json (VArr [Some (bookingWithStatus "a" "pending");
                         Some (bookingWithStatus "c" "in-progress")]))
  /\ items (snd r) !! "bookingSecurityLogs" = None
  /\ ops (snd r)
     = [OpSet "users" (Json (VArr [])) false] ++ evictions
       ++ [OpSet "bookings" (Json (VArr [Some (bookingWithStatus "a" "pending");
                                         Some (bookingWithStatus "c" "in-progress")])) true;
           OpSet "users" (Json (VArr [])) true].
Proof. vm_compute. repeat split. Qed.

End ImmediateWrites.

(** ** The periodic sweep *)

Section Sweep.
Import StorageManager.

Lemma filter_same_length {A : Type} (f : A -> bool) (l : list A) :
  length (List.filter f l) = length l -> List.filter f l = l.
Proof.
  induction l as [|x l IH]; [done|]. simpl.
  pose proof (List.filter_length_le f l) as Hle.
  destruct (f x); simpl; intros H.
  - f_equal. apply IH. lia.
  - lia.
Qed.

Lemma all_objects_length (l : list (option jsobj)) (objs : list jsobj) :
  all_objects l = Some objs -> length l = length objs.
Proof. intros H. apply all_objects_Some in H as ->. unfold objects. by rewrite length_map. Qed.

Lemma keepBooking_false (br : Browser) (b : jsobj) :
  keepBooking br b = false <-> expiredBooking br b.
Proof.
  unfold keepBooking, expiredBooking, isOld, isCompleted, bookingDate, cutoffDate, days_ms,
    day_ms, MAX_AGE. cbn [bookings].
  rewrite negb_false_iff, andb_true_iff, includes_str_true. split.
  - intros [Hold (v & Hv & Hin)]. split.
    { rewrite Hv. destruct Hin as [<-|[<-|[<-|[]]]]; auto. }
    destruct (createdAt b) as [c|].
    + destruct (c =? 0)%Z eqn:Hc.
      * apply Z.eqb_eq in Hc as ->.
        destruct (Date_getTime br (date b)) as [t|]; [|discriminate].
        apply Z.ltb_lt in Hold. exists t. split; [right; auto | lia].
      * apply Z.eqb_neq in Hc. apply Z.ltb_lt in Hold. exists c. split; [left; auto | lia].
    + destruct (Date_getTime br (date b)) as [t|]; [|discriminate].
      apply Z.ltb_lt in Hold. exists t. split; [right; auto | lia].
  - intros [Hst (t & Ht & Hlt)]. split.
    + destruct Ht as [[-> Hne]|[[->| ->] ->]].
      * apply Z.eqb_neq in Hne. rewrite Hne. apply Z.ltb_lt. lia.
      * apply Z.ltb_lt. lia.
      * cbn. apply Z.ltb_lt. lia.
    + destruct Hst as [H|[H|H]]; rewrite H; eexists; (split; [done|]); cbn; auto.
Qed.

Lemma keepEntry_false (br : Browser) (e : jsobj) :
  keepEntry br e = false <-> expiredEntry br e.
Proof.
  unfold keepEntry, expiredEntry, entryDate, cutoffDate, days_ms, day_ms, MAX_AGE.
  cbn [bookingHistory]. rewrite Z.ltb_ge. split.
  - intros H. destruct (timestamp e) as [t|].
    + destruct (t =? 0)%Z eqn:Ht.
      * apply Z.eqb_eq in Ht as ->. destruct (createdAt e) as [c|]; cbn in H.
        -- exists c. split; [right; auto | lia].
        -- exists 0%Z. split; [right; auto | lia].
      * apply Z.eqb_neq in Ht. exists t. split; [left; auto | lia].
    + destruct (createdAt e) as [c|]; cbn in H.
      * exists c. split; [right; auto | lia].
      * exists 0%Z. split; [right; auto | lia].
  - intros (t & Ht & Hle).
    destruct Ht as [[-> Hne]|[[->| ->] [->|[-> ->]]]]; cbn.
    + apply Z.eqb_neq in Hne. rewrite Hne. lia.
    + lia.
    + lia.
    + lia.
    + lia.
Qed.

Lemma keepLog_false (br : Browser) (l : jsobj) :
  keepLog br l = false <-> expiredLog br l.
Proof.
  unfold keepLog, expiredLog, cutoffDate, days_ms, day_ms, MAX_AGE. cbn [securityLogs].
  destruct (timestamp l) as [t|].
  - rewrite Z.ltb_ge. split.
    + intros H. right. exists t. split; [done|lia].
    + intros [H|(t' & [= <-] & H)]; [discriminate|lia].
  - split; [by left|done].
Qed.

Lemma staleLock_true (br : Browser) (k : jsobj) :
  staleLock br k = true <-> expiredLock br k.
Proof.
  unfold staleLock, expiredLock, cutoffDate, days_ms, day_ms, MAX_AGE. cbn [actionLocks].
  destruct (startedAt k) as [t|].
  - rewrite Z.ltb_lt. split.
    + intros H. exists t. split; [done|lia].
    + intros (t' & [= <-] & H). lia.
  - split; [discriminate|]. intros (t & Ht & _). discriminate.
Qed.

(** A step that leaves the entries as they are. *)
Lemma sweptEntry_unchanged (br : Browser) (key : string) (swept : stored -> option stored)
      (m : gmap string stored) :
  (forall v, m !! key = Some v -> swept v = None \/ swept v = Some v) ->
  sweptEntry br key swept m m.
Proof.
  intros H. split; [by left|]. intros _ v v' Hv Hs.
  destruct (H v Hv) as [H'|H']; congruence.
Qed.

Lemma sweptEntry_refused (br : Browser) (key : string) (swept : stored -> option stored)
      (m : gmap string stored) (k : string) (v : stored) (e : JsError) :
  setItemError br m k v = Some e -> sweptEntry br key swept m m.
Proof.
  intros He. split; [by left|]. intros Hacc. by rewrite (Hacc m k v) in He.
Qed.

Lemma sweptEntry_written (br : Browser) (key : string) (swept : stored -> option stored)
      (m : gmap string stored) (v v' : stored) :
  m !! key = Some v -> swept v = Some v' ->
  sweptEntry br key swept m (<[key := v']> m).
Proof.
  intros Hv Hs. split.
  - right. exists v, v'. by rewrite lookup_insert_eq.
  - intros _ w w' Hw Hs'. rewrite lookup_insert_eq. congruence.
Qed.

Lemma onlyTouches_refl (key : string) (m : gmap string stored) : onlyTouches key m m.
Proof. by intros k _. Qed.

Lemma onlyTouches_insert (key : string) (v : stored) (m : gmap string stored) :
  onlyTouches key m (<[key := v]> m).
Proof. intros k Hk. by rewrite lookup_insert_ne. Qed.

(** The three array categories: parse, filter, write back. *)
Lemma cleanupArray_sweeps (br : Browser) (key : string) (keep : jsobj -> bool) (ls : Storage) :
  let r := cleanupArray_try br key keep ls in
  onlyTouches key (items ls) (items (snd r))
  /\ sweptEntry br key (sweptArray keep) (items ls) (items (snd r)).
Proof.
  cbv zeta. unfold cleanupArray_try, getItem.
  destruct (items ls !! key) as [[msg|v]|] eqn:Hentry; cbn [fst snd].
  - split; [apply onlyTouches_refl|].
    apply sweptEntry_unchanged. intros v. rewrite Hentry. intros [= <-]. by left.
  - destruct v as [| | | |l|]; cbn [fst snd];
      try (split; [apply onlyTouches_refl|];
           apply sweptEntry_unchanged; intros v; rewrite Hentry; intros [= <-]; by left).
    unfold filter_members.
    destruct (all_objects l) as [objs|] eqn:Hobjs; cbn [fst snd].
    + pose proof (all_objects_length l objs Hobjs) as Hlen.
      pose proof (List.filter_length_le keep objs) as Hle.
      destruct (0 <? Z.of_nat (length l) - Z.of_nat (length (List.filter keep objs)))%Z eqn:Hn;
        cbn [fst snd].
      * unfold setItem.
        destruct (setItemError br (items ls) key _) as [e|] eqn:Hset; cbn [fst snd items].
        -- split; [apply onlyTouches_refl|]. by eapply sweptEntry_refused.
        -- split; [apply onlyTouches_insert|].
           apply (sweptEntry_written br key _ _ (Json (VArr l))); [done|].
           cbn. by rewrite Hobjs.
      * split; [apply onlyTouches_refl|].
        apply sweptEntry_unchanged. intros v. rewrite Hentry. intros [= <-]. right.
        cbn. rewrite Hobjs. cbn. apply Z.ltb_ge in Hn.
        rewrite filter_same_length by lia. by rewrite (all_objects_Some l objs Hobjs).
    + split; [apply onlyTouches_refl|].
      apply sweptEntry_unchanged. intros v. rewrite Hentry. intros [= <-]. left.
      cbn. by rewrite Hobjs.
  - split; [apply onlyTouches_refl|].
    apply sweptEntry_unchanged. intros v. by rewrite Hentry.
Qed.

Lemma catch_zero_Normal (r : completion Z * Storage) :
  exists n, fst (catch_zero r) = Normal n /\ snd (catch_zero r) = snd r.
Proof. destruct r as [[n|e] ls]; cbn; eauto. Qed.

(** [cleanupOldBookings] is the same procedure, reporting the count as
    [archived]. *)
Lemma cleanupOldBookings_try_array (br : Browser) (ls : Storage) :
  cleanupOldBookings_try br ls
  = match cleanupArray_try br "bookings" (keepBooking br) ls with
    | (Normal n, ls') => (Normal (mkBookingsCleanup 0 n None), ls')
    | (Throw e, ls') => (Throw e, ls')
    end.
Proof.
  unfold cleanupOldBookings_try, cleanupArray_try.
  destruct (getItem ls "bookings") as [[msg|[| | | |l|]]|]; try done.
  destruct (filter_members (keepBooking br) l) as [active|e]; [|done].
  destruct (0 <? _)%Z; [|done].
  by destruct (setItem br "bookings" _ ls) as [[u|e] ls'].
Qed.

Lemma cleanupOldBookings_Normal (br : Browser) (ls : Storage) :
  exists b, fst (cleanupOldBookings br ls) = Normal b
            /\ snd (cleanupOldBookings br ls)
               = snd (cleanupArray_try br "bookings" (keepBooking br) ls).
Proof.
  unfold cleanupOldBookings. rewrite cleanupOldBookings_try_array.
  destruct (cleanupArray_try br "bookings" (keepBooking br) ls) as [[n|e] ls']; cbn; eauto.
Qed.

Lemma punch_nothing (br : Browser) (l : list (option jsobj)) :
  List.filter (staleMember br) l = [] -> map (punch br) l = l.
Proof.
  induction l as [|m l IH]; [done|]. simpl. unfold punch at 1.
  destruct (staleMember br m); [discriminate|]. intros H. by rewrite IH.
Qed.

Lemma cleanupActionLocks_sweeps (br : Browser) (ls : Storage) :
  let r := cleanupActionLocks_try br ls in
  onlyTouches "actionLocks" (items ls) (items (snd r))
  /\ sweptEntry br "actionLocks" (sweptLocks br) (items ls) (items (snd r)).
Proof.
  cbv zeta. unfold cleanupActionLocks_try, getItem.
  destruct (items ls !! "actionLocks") as [[msg|v]|] eqn:Hentry; cbn [fst snd].
  - split; [apply onlyTouches_refl|].
    apply sweptEntry_unchanged. intros v. rewrite Hentry. intros [= <-]. by left.
  - destruct v as [|b|z|str|locks|locks]; cbn [fst snd];
      try (split; [apply onlyTouches_refl|];
           apply sweptEntry_unchanged; intros v; rewrite Hentry; intros [= <-]; by left).
    + destruct (all_objects locks) as [objs|] eqn:Hobjs; cbn [fst snd].
      * destruct (0 <? Z.of_nat (length (List.filter (staleMember br) locks)))%Z eqn:Hn;
          cbn [fst snd].
        -- unfold setItem.
           destruct (setItemError br (items ls) "actionLocks" _) as [e|] eqn:Hset;
             cbn [fst snd items].
           ++ split; [apply onlyTouches_refl|]. by eapply sweptEntry_refused.
           ++ split; [apply onlyTouches_insert|].
              apply (sweptEntry_written br _ _ _ (Json (VArr locks))); [done|].
              cbn. by rewrite Hobjs.
        -- split; [apply onlyTouches_refl|].
           apply sweptEntry_unchanged. intros v. rewrite Hentry. intros [= <-]. right.
           cbn. rewrite Hobjs. cbn. apply Z.ltb_ge in Hn.
           rewrite punch_nothing; [done|].
           destruct (List.filter (staleMember br) locks); [done|]. cbn in Hn. lia.
      * split; [apply onlyTouches_refl|].
        apply sweptEntry_unchanged. intros v. rewrite Hentry. intros [= <-]. left.
        cbn. by rewrite Hobjs.
    + destruct (bool_decide (map_Forall (fun _ member => is_Some member) locks)) eqn:Hall;
        cbn [fst snd].
      * set (kept := filter (fun kv : string * option jsobj => staleMember br kv.2 = false)
                            locks).
        destruct (0 <? Z.of_nat (size locks) - Z.of_nat (size kept))%Z eqn:Hn; cbn [fst snd].
        -- unfold setItem.
           destruct (setItemError br (items ls) "actionLocks" _) as [e|] eqn:Hset;
             cbn [fst snd items].
           ++ split; [apply onlyTouches_refl|]. by eapply sweptEntry_refused.
           ++ split; [apply onlyTouches_insert|].
              apply (sweptEntry_written br _ _ _ (Json (VDict locks))); [done|].
              cbn. by rewrite Hall.
        -- split; [apply onlyTouches_refl|].
           apply sweptEntry_unchanged. intros v. rewrite Hentry. intros [= <-]. right.
           cbn. rewrite Hall. fold kept. apply Z.ltb_ge in Hn.
           assert (kept = locks) as ->; [|done].
           apply map_subseteq_size_eq; [apply map_filter_subseteq | lia].
      * split; [apply onlyTouches_refl|].
        apply sweptEntry_unchanged. intros v. rewrite Hentry. intros [= <-]. left.
        cbn. by rewrite Hall.
  - split; [apply onlyTouches_refl|].
    apply sweptEntry_unchanged. intros v. by rewrite Hentry.
Qed.

(** Steps on different keys do not disturb each other's entry. *)
Lemma sweptEntry_framed (br : Browser) (key : string) (swept : stored -> option stored)
      (m0 m1 m2 m3 : gmap string stored) :
  m1 !! key = m0 !! key -> m3 !! key = m2 !! key ->
  sweptEntry br key swept m1 m2 -> sweptEntry br key swept m0 m3.
Proof.
  intros H01 H32 [Hentry Hacc]. split.
  - rewrite H32, <- H01. exact Hentry.
  - intros Ha v v'. rewrite H32, <- H01. by apply Hacc.
Qed.

(** The sweep as a sequence of four steps, each on its own entry. *)
Lemma cleanupStaleData_steps (br : Browser) (ls : Storage) :
  exists results ls',
    cleanupStaleData br ls = (Normal results, ls')
    /\ sweptEntry br "bookings" (sweptArray (keepBooking br)) (items ls) (items ls')
    /\ sweptEntry br "bookingHistory" (sweptArray (keepEntry br)) (items ls) (items ls')
    /\ sweptEntry br "bookingSecurityLogs" (sweptArray (keepLog br)) (items ls) (items ls')
    /\ sweptEntry br "actionLocks" (sweptLocks br) (items ls) (items ls')
    /\ (forall k, ~ In k sweptKeys -> items ls' !! k = items ls !! k).
Proof.
  unfold cleanupStaleData.
  destruct (cleanupOldBookings_Normal br ls) as (b & Hb & Hls1).
  destruct (cleanupOldBookings br ls) as [rb ls1]. cbn [fst snd] in Hb, Hls1. subst rb.
  destruct (cleanupArray_sweeps br "bookings" (keepBooking br) ls) as [Ht1 Hs1].
  rewrite <- Hls1 in Ht1, Hs1. clear Hls1.
  unfold cleanupBookingHistory, cleanupSecurityLogs, cleanupActionLocks.
  cbn [andThen].
  destruct (catch_zero_Normal (cleanupArray_try br "bookingHistory" (keepEntry br) ls1))
    as (h & Hh & Hls2).
  destruct (cleanupArray_sweeps br "bookingHistory" (keepEntry br) ls1) as [Ht2 Hs2].
  rewrite <- Hls2 in Ht2, Hs2. clear Hls2.
  destruct (catch_zero _) as [rh ls2]. cbn [fst snd] in Hh, Ht2, Hs2. subst rh.
  cbn [andThen].
  destruct (catch_zero_Normal (cleanupArray_try br "bookingSecurityLogs" (keepLog br) ls2))
    as (l & Hl & Hls3).
  destruct (cleanupArray_sweeps br "bookingSecurityLogs" (keepLog br) ls2) as [Ht3 Hs3].
  rewrite <- Hls3 in Ht3, Hs3. clear Hls3.
  destruct (catch_zero _) as [rl ls3]. cbn [fst snd] in Hl, Ht3, Hs3. subst rl.
  cbn [andThen].
  destruct (catch_zero_Normal (cleanupActionLocks_try br ls3)) as (k & Hk & Hls4).
  destruct (cleanupActionLocks_sweeps br ls3) as [Ht4 Hs4].
  rewrite <- Hls4 in Ht4, Hs4. clear Hls4.
  destruct (catch_zero _) as [rk ls4]. cbn [fst snd] in Hk, Ht4, Hs4. subst rk.
  cbn [andThen].
  exists (mkResults b h l k), ls4. split; [done|].
  split.
  { apply (sweptEntry_framed br _ _ (items ls) (items ls) (items ls1) (items ls4));
      [done| |done].
    rewrite Ht4, Ht3, Ht2 by done. done. }
  split.
  { apply (sweptEntry_framed br _ _ (items ls) (items ls1) (items ls2) (items ls4));
      [by apply Ht1| |done].
    rewrite Ht4, Ht3 by done. done. }
  split.
  { apply (sweptEntry_framed br _ _ (items ls) (items ls2) (items ls3) (items ls4));
      [|by apply Ht4|done].
    rewrite Ht2, Ht1 by done. done. }
  split.
  { apply (sweptEntry_framed br _ _ (items ls) (items ls3) (items ls4) (items ls4));
      [|done|done].
    rewrite Ht3, Ht2, Ht1 by done. done. }
  intros key Hkey.
  rewrite Ht4, Ht3, Ht2, Ht1; [done| | | |]; intros ->; apply Hkey; cbn; tauto.
Qed.

(** *** From the filters of the code to the members that are expired *)

Lemma map_Some_inj (l l' : list jsobj) : map Some l = map Some l' -> l = l'.
Proof.
  revert l'. induction l as [|x l IH]; intros [|x' l'] H; try discriminate; [done|].
  cbn in H. injection H as -> H. f_equal. by apply IH.
Qed.

Lemma sweptArray_records (expired : jsobj -> Prop) (keep : jsobj -> bool) (v : stored) :
  (forall x, keep x = false <-> expired x) ->
  (forall v', sweptArray keep v = Some v' -> sweptRecords expired (Some v) (Some v'))
  /\ (forall after, sweptRecords expired (Some v) after ->
        exists v', sweptArray keep v = Some v' /\ after = Some v').
Proof.
  intros Hkeep. split.
  - intros v' Hs. destruct v as [msg|[| | | |l|]]; try discriminate. cbn in Hs.
    destruct (all_objects l) as [objs|] eqn:Hobjs; [|discriminate].
    injection Hs as <-. apply all_objects_Some in Hobjs as ->.
    exists objs, (List.filter keep objs). split; [done|]. split; [|done].
    by apply filter_without.
  - intros after (l & kept & [= ->] & Hw & ->). eexists. split; [|reflexivity].
    cbn. fold (objects l). rewrite all_objects_objects. cbn. do 3 f_equal.
    unfold objects. f_equal. symmetry.
    by apply (without_functional expired l kept), filter_without.
Qed.

Lemma punch_Forall2 (br : Browser) (locks : list jsobj) :
  Forall2 (fun lock member => (expiredLock br lock /\ member = None)
                              \/ (~ expiredLock br lock /\ member = Some lock))
          locks (map (punch br) (map Some locks)).
Proof.
  induction locks as [|lock locks IH]; [constructor|]. cbn [map]. constructor; [|done].
  unfold punch, staleMember. destruct (staleLock br lock) eqn:Hs.
  - left. split; [by apply staleLock_true|done].
  - right. split; [|done]. intros Hexp. apply staleLock_true in Hexp. congruence.
Qed.

Lemma punched_functional (br : Browser) (locks : list jsobj) (p p' : list (option jsobj)) :
  Forall2 (fun lock member => (expiredLock br lock /\ member = None)
                              \/ (~ expiredLock br lock /\ member = Some lock)) locks p ->
  Forall2 (fun lock member => (expiredLock br lock /\ member = None)
                              \/ (~ expiredLock br lock /\ member = Some lock)) locks p' ->
  p = p'.
Proof.
  intros H. revert p'. induction H as [|lock m locks p Hm H IH]; intros p' H'.
  - by inversion H'.
  - inversion H' as [|? m' ? p'' Hm' H'']; subst. f_equal; [|by apply IH].
    destruct Hm as [[? ->]|[? ->]], Hm' as [[? ->]|[? ->]]; done.
Qed.

Lemma all_Some_fmap (d : gmap string (option jsobj)) :
  map_Forall (fun _ member => is_Some member) d ->
  exists locks : gmap string jsobj, d = Some <$> locks.
Proof.
  intros Hall. exists (omap (fun member => member) d). apply map_eq. intros key.
  rewrite lookup_fmap, lookup_omap.
  destruct (d !! key) as [member|] eqn:Hkey; [|done]. cbn.
  destruct (Hall key member Hkey) as [lock ->]. done.
Qed.

Lemma fmap_Some_all (locks : gmap string jsobj) :
  map_Forall (fun (_ : string) (member : option jsobj) => is_Some member) (Some <$> locks).
Proof.
  intros key member. rewrite lookup_fmap. destruct (locks !! key); cbn; [|done].
  intros [= <-]. eauto.
Qed.

Lemma kept_locks (br : Browser) (locks : gmap string jsobj) :
  filter (fun kv : string * option jsobj => staleMember br kv.2 = false) (Some <$> locks)
  = Some <$> filter (fun kv : string * jsobj => staleLock br kv.2 = false) locks.
Proof.
  apply map_eq. intros key. apply option_eq. intros member.
  rewrite map_lookup_filter_Some, !lookup_fmap. cbn [snd]. split.
  - intros [Hm Hs]. destruct (locks !! key) as [lock|] eqn:Hkey; [|discriminate].
    cbn in Hm. injection Hm as <-. cbn in Hs.
    assert (Hf : filter (fun kv : string * jsobj => staleLock br kv.2 = false) locks !! key
                 = Some lock) by (by apply map_lookup_filter_Some).
    by rewrite Hf.
  - destruct (filter _ locks !! key) as [lock|] eqn:Hf; [|discriminate].
    cbn. intros [= <-]. apply map_lookup_filter_Some in Hf as [Hkey Hs].
    rewrite Hkey. done.
Qed.

Lemma sweptLocks_entries (br : Browser) (v : stored) :
  (forall v', sweptLocks br v = Some v' ->
     sweptLockEntries (expiredLock br) (Some v) (Some v'))
  /\ (forall after, sweptLockEntries (expiredLock br) (Some v) after ->
        exists v', sweptLocks br v = Some v' /\ after = Some v').
Proof.
  assert (Hkept : forall (locks : gmap string jsobj) key lock,
             filter (fun kv : string * jsobj => staleLock br kv.2 = false) locks !! key
             = Some lock
             <-> locks !! key = Some lock /\ ~ expiredLock br lock).
  { intros locks key lock. rewrite map_lookup_filter_Some. cbn [snd].
    rewrite <- staleLock_true. by destruct (staleLock br lock); intuition. }
  split.
  - intros v' Hs. destruct v as [msg|[| | | |l|d]]; try discriminate; cbn in Hs.
    + destruct (all_objects l) as [objs|] eqn:Hobjs; [|discriminate].
      injection Hs as <-. apply all_objects_Some in Hobjs as ->.
      right. exists objs, (map (punch br) (map Some objs)).
      split; [done|]. split; [apply punch_Forall2|done].
    + destruct (bool_decide _) eqn:Hall; [|discriminate]. injection Hs as <-.
      apply bool_decide_eq_true in Hall. apply all_Some_fmap in Hall as [locks ->].
      left. exists locks, (filter (fun kv : string * jsobj => staleLock br kv.2 = false) locks).
      split; [done|]. split; [apply Hkept|]. by rewrite kept_locks.
  - intros after [(locks & kept & [= ->] & Hk & ->)|(locks & punched & [= ->] & Hp & ->)].
    + eexists. split; [|reflexivity]. cbn.
      rewrite bool_decide_eq_true_2 by apply fmap_Some_all.
      rewrite kept_locks. do 4 f_equal. apply map_eq. intros key. apply option_eq.
      intros lock. by rewrite Hkept, Hk.
    + eexists. split; [|reflexivity]. cbn. fold (objects locks).
      rewrite all_objects_objects. cbn. do 3 f_equal.
      apply (punched_functional br locks); [apply punch_Forall2 | exact Hp].
Qed.

Lemma sweptEntry_sweeps (br : Browser) (key : string) (swept : stored -> option stored)
      (rel : option stored -> option stored -> Prop) (m m' : gmap string stored) :
  (forall v,
      (forall v', swept v = Some v' -> rel (Some v) (Some v'))
      /\ (forall after, rel (Some v) after -> exists v', swept v = Some v' /\ after = Some v')) ->
  (forall after, ~ rel None after) ->
  sweptEntry br key swept m m' -> sweeps br rel key m m'.
Proof.
  intros Hrel Hnone [Hentry Hacc]. split.
  - destruct Hentry as [H|(v & v' & Hv & Hs & Hv')]; [by left|].
    right. rewrite Hv, Hv'. by apply Hrel.
  - intros Ha after Hafter. destruct (m !! key) as [v|] eqn:Hv.
    + apply Hrel in Hafter as (v' & Hs & ->). by apply (Hacc Ha v).
    + by destruct (Hnone after).
Qed.

(** The sweep, category by category.  [cleanupStaleData] always completes,
    having run its four cleanups in turn, whatever the four entries hold
    (text that does not parse, a value of another shape, or nothing at all).  Each cleanup
    touches its own entry only, and leaves it either as it was or swept
    (and swept whenever it is an array, or for the locks a dictionary, of
    records and [localStorage] accepts the write, independently of what
    the other three entries hold):
    - the bookings lose those whose status is [completed], [cancelled] or
      [no-show] (no other status, so not [cancelledByCustomer],
      [cancelledByAdmin] or [cancelledBySystem]) and whose own time
      ([createdAt], else the time of [date]) is more than 90 days back;
    - the history loses the entries whose own time ([timestamp], else
      [createdAt], else 0) is 30 days back or more;
    - the security logs lose the entries whose [timestamp] is 7 days back
      or more, or missing;
    - the action locks lose those whose [startedAt] is more than 1 day
      back. *)
Theorem cleanupStaleData_sweeps_each_category (br : Browser) (ls : Storage) :
  exists results ls',
    cleanupStaleData br ls = (Normal results, ls')
    /\ sweeps br (sweptRecords (expiredBooking br)) "bookings" (items ls) (items ls')
    /\ sweeps br (sweptRecords (expiredEntry br)) "bookingHistory" (items ls) (items ls')
    /\ sweeps br (sweptRecords (expiredLog br)) "bookingSecurityLogs" (items ls) (items ls')
    /\ sweeps br (sweptLockEntries (expiredLock br)) "actionLocks" (items ls) (items ls')
    /\ (forall k, ~ In k sweptKeys -> items ls' !! k = items ls !! k).
Proof.
  destruct (cleanupStaleData_steps br ls) as (results & ls' & Hrun & Hb & Hh & Hl & Hk & Hrest).
  assert (Hnone : forall expired after, ~ sweptRecords expired None after).
  { by intros expired after (l & kept & ? & _). }
  exists results, ls'. split; [done|].
  split.
  { eapply sweptEntry_sweeps; [|apply Hnone|exact Hb].
    intros v. apply sweptArray_records, keepBooking_false. }
  split.
  { eapply sweptEntry_sweeps; [|apply Hnone|exact Hh].
    intros v. apply sweptArray_records, keepEntry_false. }
  split.
  { eapply sweptEntry_sweeps; [|apply Hnone|exact Hl].
    intros v. apply sweptArray_records, keepLog_false. }
  split; [|done].
  eapply sweptEntry_sweeps; [| |exact Hk].
  - intros v. apply sweptLocks_entries.
  - by intros after [(locks & kept & ? & _)|(locks & punched & ? & _)].
Qed.

(** At a store whose bookings do not parse, the logs are swept. *)
Lemma cleanupStaleData_isolates_failures :
  exists results ls',
    cleanupStaleData (browserAt (10 * day_ms)) brokenBookings = (Normal results, ls')
    /\ items ls' !! "bookingSecurityLogs" = Some (Json (VArr [Some (logEntryAt 800000000)])).
Proof.
  destruct (cleanupStaleData_sweeps_each_category (browserAt (10 * day_ms)) brokenBookings)
    as (results & ls' & Hrun & _ & _ & [_ Hlogs] & _).
  exists results, ls'. split; [exact Hrun|].
  apply (Hlogs (fun m k v => eq_refl)).
  exists [logEntryAt 1000; logEntryAt 800000000], [logEntryAt 800000000].
  split; [by vm_compute|]. split; [|done].
  apply without_drop.
  - right. exists 1000%Z. split; [done|]. by vm_compute.
  - apply without_keep; [|constructor].
    intros [H|(t & [= <-] & Ht)]; [done|]. vm_compute in Ht. by apply Ht.
Defined.

(** C7.  The sweep at a booking that its customer cancelled 100 days ago.
    Such a booking carries the status [cancelledByCustomer], which is not in
    the list that [cleanupOldBookings] tests ([completed], [cancelled],
    [no-show]): the sweep reports nothing archived and leaves the booking
    in [localStorage]. *)
Lemma cancelled_by_customer_is_kept :
  let br := browserAt (100 * day_ms) in
  status cancelledLongAgo = Some "cancelledByCustomer"
  /\ createdAt cancelledLongAgo = Some 1000%Z
  /\ (1000 < now br - 90 * day_ms)%Z
  /\ isCompleted cancelledLongAgo = false
  /\ cleanupStaleData br oneOldCancellation
     = (Normal (mkResults (mkBookingsCleanup 0 0 None) 0 0 0), oneOldCancellation).
Proof. by vm_compute. Qed.

(** Bookings that do not parse do not keep the logs from being swept. *)
Example logs_swept_despite_broken_bookings :
  let r := cleanupStaleData (browserAt (10 * day_ms)) brokenBookings in
  fst r = Normal (mkResults (mkBookingsCleanup 0 0 (Some (Some "Unexpected end of JSON input")))
                            0 1 0)
  /\ items (snd r) !! "bookingSecurityLogs" = Some (Json (VArr [Some (logEntryAt 800000000)]))
  /\ items (snd r) !! "bookings" = Some (Unparsable "Unexpected end of JSON input").
Proof. vm_compute. repeat split. Qed.

End Sweep.

(** ** The storage manager: reads, batched writes and key removal *)

Section StorageAccess.
Import StorageManager.

(** X1 (read, writeImmediate): whenever [writeImmediate] reports success for
    a text, that text is what the store holds under the key, and [read]
    returns the value it parses to (the default when it is not JSON),
    whether the write went through at once or only after the emergency
    cleanup. *)
Theorem read_returns_what_writeImmediate_wrote
        (br : Browser) (key : string) (text : stored) (d : jsval) (ls ls' : Storage) :
  writeImmediate br key (Serializable text) ls = (Normal true, ls') ->
  getItem ls' key = Some text
  /\ read key d ls' = match text with Json v => v | Unparsable _ => d end.
Proof.
  unfold writeImmediate, serializeAndSet, setItem, read, getItem.
  destruct (setItemError br (items ls) key text) as [e|] eqn:He; cbn [fst snd].
  - destruct (String.eqb (err_name e) "QuotaExceededError"); [|discriminate].
    destruct (setItemError br (items (emergencyCleanup br _)) key text); [discriminate|].
    intros [= <-]. cbn [items]. rewrite lookup_insert_eq. by destruct text.
  - intros [= <-]. cbn [items]. rewrite lookup_insert_eq. by destruct text.
Qed.

Lemma read_returns_what_writeImmediate_wrote_witness :
  fst (writeImmediate (smallStore 2) "draft" (Serializable (Json (VNum 7))) fullStore)
  = Normal true
  /\ read "draft" VNull
          (snd (writeImmediate (smallStore 2) "draft" (Serializable (Json (VNum 7))) fullStore))
     = VNum 7.
Proof.
  assert (H : fst (writeImmediate (smallStore 2) "draft" (Serializable (Json (VNum 7)))
                                  fullStore) = Normal true) by (vm_compute; reflexivity).
  split; [exact H|].
  refine (proj2 (read_returns_what_writeImmediate_wrote
                   (smallStore 2) "draft" (Json (VNum 7)) VNull fullStore _ _)).
  rewrite <- H. apply surjective_pairing.
Defined.

End StorageAccess.

Section BatchedWrites.
Import StorageManager.

Lemma flushEntry_writeImmediate (br : Browser) (ls : Storage) (entry : string * jsarg) :
  flushEntry br ls entry = snd (writeImmediate br (fst entry) (snd entry) ls).
Proof.
  unfold flushEntry, writeImmediate.
  destruct (serializeAndSet br (fst entry) (snd entry) ls) as [[u|e] ls1]; [done|].
  destruct (String.eqb (err_name e) "QuotaExceededError"); [|done].
  by destruct (serializeAndSet br (fst entry) (snd entry) (emergencyCleanup br ls1)) as [[u|e'] ls3].
Qed.

(** X2 (flushWrites): flushing the queue leaves [localStorage] exactly as
    calling [writeImmediate] on each queued entry, in queue order, would
    (the same retry after an emergency cleanup on a full store, the same
    giving up on any other failure); afterwards the queue is empty, and no
    timer of the page has been cancelled. *)
Theorem flushWrites_writes_like_writeImmediate (br : Browser) (b : Batcher) :
  localStorage (flushWrites br b)
  = foldl (fun ls entry => snd (writeImmediate br (fst entry) (snd entry) ls))
          (localStorage b) (_writeQueue b)
  /\ _writeQueue (flushWrites br b) = []
  /\ pending (flushWrites br b) = pending b.
Proof.
  unfold flushWrites. destruct (_writeQueue b) as [|entry queue] eqn:Hq.
  - by rewrite Hq.
  - cbn [localStorage _writeQueue pending]. split; [|done].
    generalize (localStorage b) (entry :: queue). intros ls q. revert ls.
    induction q as [|e q IH]; intros ls; [done|].
    cbn [foldl]. by rewrite IH, flushEntry_writeImmediate.
Qed.

Lemma Map_set_keys {V : Type} (key : string) (value : V) (q : list (string * V)) :
  (Map_set key value q).*1 = if bool_decide (key ∈ q.*1) then q.*1 else q.*1 ++ [key].
Proof.
  induction q as [|[k v] q IH]; [done|].
  cbn [Map_set fmap list_fmap fst]. destruct (String.eqb k key) eqn:Hk.
  - apply String.eqb_eq in Hk as ->. rewrite bool_decide_eq_true_2; [done|]. left.
  - apply String.eqb_neq in Hk. cbn [fmap list_fmap fst]. rewrite IH.
    destruct (bool_decide (key ∈ q.*1)) eqn:Hin.
    + apply bool_decide_eq_true in Hin. rewrite bool_decide_eq_true_2; [done|]. by right.
    + apply bool_decide_eq_false in Hin. rewrite bool_decide_eq_false_2; [done|].
      intros Hin'. apply elem_of_cons in Hin' as [->|Hin']; [done|by apply Hin].
Qed.

Lemma Map_set_NoDup {V : Type} (key : string) (value : V) (q : list (string * V)) :
  NoDup q.*1 -> NoDup (Map_set key value q).*1.
Proof.
  intros Hq. rewrite Map_set_keys. destruct (bool_decide (key ∈ q.*1)) eqn:Hin; [done|].
  apply bool_decide_eq_false in Hin. apply NoDup_app. split; [done|].
  split; [|apply NoDup_singleton].
  intros k Hk Hk'. apply list_elem_of_singleton in Hk' as ->. by apply Hin.
Qed.

Lemma elem_of_Map_set {V : Type} (key : string) (value : V) (q : list (string * V))
      (k : string) (v : V) :
  NoDup q.*1 ->
  (k, v) ∈ Map_set key value q <-> (k = key /\ v = value) \/ (k <> key /\ (k, v) ∈ q).
Proof.
  induction q as [|[k0 v0] q IH]; intros Hq.
  - cbn [Map_set]. rewrite list_elem_of_singleton. split.
    + intros [= -> ->]. by left.
    + intros [[-> ->]|[_ H]]; [done|]. by apply elem_of_nil in H.
  - cbn [fmap list_fmap fst] in Hq. apply NoDup_cons in Hq as [Hk0 Hq].
    cbn [Map_set]. destruct (String.eqb k0 key) eqn:Hk.
    + apply String.eqb_eq in Hk as ->. rewrite !elem_of_cons. split.
      * intros [[= -> ->]|Hin]; [by left|]. right. split; [|by right].
        intros ->. apply Hk0. apply list_elem_of_fmap. by exists (key, v).
      * intros [[-> ->]|[Hne [[= -> ->]|Hin]]]; [by left|done|by right].
    + apply String.eqb_neq in Hk. rewrite !elem_of_cons, (IH Hq). split.
      * intros [[= -> ->]|[[-> ->]|[Hne Hin]]].
        -- right. split; [done|by left].
        -- by left.
        -- right. split; [done|by right].
      * intros [[-> ->]|[Hne [[= -> ->]|Hin]]].
        -- right. by left.
        -- by left.
        -- right. right. by split.
Qed.

Lemma Map_set_texts (key : string) (text : stored) (q : list (string * stored)) :
  Map_set key (Serializable text) (asTexts q) = asTexts (Map_set key text q).
Proof.
  unfold asTexts. induction q as [|[k v] q IH]; [done|].
  cbn [Map_set map fst snd]. destruct (String.eqb k key); [done|].
  cbn [map fst snd]. by rewrite IH.
Qed.

Lemma queueAll_texts (writes q : list (string * stored)) (b : Batcher) :
  _writeQueue b = asTexts q ->
  _writeQueue (queueAll (asTexts writes) b)
  = asTexts (foldl (fun q w => Map_set (fst w) (snd w) q) q writes)
  /\ localStorage (queueAll (asTexts writes) b) = localStorage b.
Proof.
  revert q b. induction writes as [|[k t] writes IH]; intros q b Hq; [done|].
  cbn [asTexts map queueAll foldl fst snd].
  destruct (IH (Map_set k t q) (queueWrite k (Serializable t) b)) as [Hqueue Hls].
  { cbn [queueWrite _writeQueue]. by rewrite Hq, Map_set_texts. }
  by split.
Qed.

Lemma coalesce_snoc (writes : list (string * stored)) (w : string * stored) :
  coalesce (writes ++ [w]) = Map_set (fst w) (snd w) (coalesce writes).
Proof. unfold coalesce. by rewrite foldl_app. Qed.

Lemma lastWrite_snoc (key : string) (writes : list (string * stored)) (w : string * stored) :
  lastWrite key (writes ++ [w])
  = if String.eqb (fst w) key then Some (snd w) else lastWrite key writes.
Proof. unfold lastWrite. by rewrite foldl_app. Qed.

Lemma coalesce_NoDup (writes : list (string * stored)) : NoDup (coalesce writes).*1.
Proof.
  induction writes as [|w writes IH] using rev_ind; [apply NoDup_nil_2|].
  rewrite coalesce_snoc. by apply Map_set_NoDup.
Qed.

Lemma elem_of_coalesce (writes : list (string * stored)) (k : string) (t : stored) :
  (k, t) ∈ coalesce writes <-> lastWrite k writes = Some t.
Proof.
  induction writes as [|w writes IH] using rev_ind.
  - split; [intros H; by apply elem_of_nil in H|done].
  - rewrite coalesce_snoc, lastWrite_snoc, (elem_of_Map_set _ _ _ _ _ (coalesce_NoDup writes)).
    destruct (String.eqb (fst w) k) eqn:Hk.
    + apply String.eqb_eq in Hk as <-. split.
      * intros [[_ ->]|[Hne _]]; [done|by destruct Hne].
      * intros [= <-]. by left.
    + apply String.eqb_neq in Hk. rewrite IH. split.
      * intros [[-> _]|[_ H]]; [by destruct Hk|done].
      * intros H. right. by split.
Qed.

Lemma flushEntry_accepted (br : Browser) (ls : Storage) (k : string) (t : stored) :
  accepts_all br ->
  flushEntry br ls (k, Serializable t)
  = mkStorage (<[k := t]> (items ls)) (ops ls ++ [OpSet k t true]).
Proof.
  intros Hbr. unfold flushEntry, serializeAndSet, setItem. cbn [fst snd]. by rewrite Hbr.
Qed.

Lemma flush_texts (br : Browser) (q : list (string * stored)) (ls : Storage) :
  accepts_all br -> NoDup q.*1 ->
  let ls' := foldl (flushEntry br) ls (asTexts q) in
  ops ls' = ops ls ++ stores q
  /\ forall k, items ls' !! k
               = match list_find (fun w => fst w = k) q with
                 | Some (_, w) => Some (snd w)
                 | None => items ls !! k
                 end.
Proof.
  intros Hbr. revert ls. induction q as [|[k0 t0] q IH]; intros ls Hq; cbv zeta.
  - cbn. by rewrite app_nil_r.
  - cbn [fmap list_fmap fst] in Hq. apply NoDup_cons in Hq as [Hk0 Hq].
    cbn [asTexts map foldl fst snd]. rewrite (flushEntry_accepted _ _ _ _ Hbr).
    destruct (IH (mkStorage (<[k0 := t0]> (items ls)) (ops ls ++ [OpSet k0 t0 true])) Hq)
      as [Hops Hitems].
    split.
    + unfold asTexts in Hops. rewrite Hops. cbn [ops stores map fst snd].
      by rewrite <- app_assoc.
    + intros k. unfold asTexts in Hitems. rewrite Hitems. cbn [items list_find fst].
      destruct (decide (k0 = k)) as [->|Hne].
      * cbn [fmap option_fmap option_map snd].
        destruct (list_find (fun w => fst w = k) q) as [[i w]|] eqn:Hfind.
        -- apply list_find_Some in Hfind as (Hi & Hw & _).
           destruct Hk0. apply list_elem_of_fmap. exists w. split; [done|].
           by eapply list_elem_of_lookup_2.
        -- cbn. apply lookup_insert_eq.
      * destruct (list_find (fun w => fst w = k) q) as [[i w]|]; cbn; [done|].
        by apply lookup_insert_ne.
Qed.

(** X3 (queueWrite, flushWrites): on a store that accepts every write, a
    batch of queued texts is flushed with one [setItem] per key, carrying
    the text queued last for that key: afterwards every queued key holds
    its last text and every other key is untouched. *)
Theorem batched_writes_last_write_wins
        (br : Browser) (writes : list (string * stored)) (b : Batcher) :
  accepts_all br ->
  _writeQueue b = [] ->
  let b' := flushWrites br (queueAll (asTexts writes) b) in
  ops (localStorage b') = ops (localStorage b) ++ stores (coalesce writes)
  /\ NoDup (coalesce writes).*1
  /\ (forall k t, (k, t) ∈ coalesce writes <-> lastWrite k writes = Some t)
  /\ (forall k, items (localStorage b') !! k
                = match lastWrite k writes with
                  | Some t => Some t
                  | None => items (localStorage b) !! k
                  end).
Proof.
  intros Hbr Hempty b'.
  destruct (queueAll_texts writes [] b Hempty) as [Hqueue Hls].
  fold (coalesce writes) in Hqueue.
  pose proof (coalesce_NoDup writes) as Hnodup.
  destruct (flush_texts br (coalesce writes) (localStorage b) Hbr Hnodup) as [Hops Hitems].
  assert (Hb' : localStorage b' = foldl (flushEntry br) (localStorage b) (asTexts (coalesce writes))).
  { unfold b', flushWrites. rewrite Hqueue.
    destruct (asTexts (coalesce writes)) as [|e q] eqn:Hq; [by rewrite Hls|].
    cbn [localStorage]. by rewrite Hls. }
  rewrite Hb'. split; [done|]. split; [done|]. split; [apply elem_of_coalesce|].
  intros k. rewrite Hitems.
  destruct (list_find (fun w => fst w = k) (coalesce writes)) as [[i w]|] eqn:Hfind.
  - apply list_find_Some in Hfind as (Hi & Hw & _).
    assert (Hin : (k, snd w) ∈ coalesce writes).
    { rewrite <- Hw. destruct w. by eapply list_elem_of_lookup_2. }
    apply elem_of_coalesce in Hin. by rewrite Hin.
  - destruct (lastWrite k writes) as [t|] eqn:Hlast; [|done].
    apply elem_of_coalesce in Hlast. apply list_find_None in Hfind.
    rewrite Forall_forall in Hfind. by destruct (Hfind _ Hlast).
Qed.

Lemma batched_writes_last_write_wins_witness :
  accepts_all (browserAt 0)
  /\ items (localStorage
              (flushWrites (browserAt 0)
                 (queueAll (asTexts [("a", Json (VNum 1)); ("b", Json (VNum 2));
                                     ("a", Json (VNum 3))])
                           (idleBatcher emptyStorage)))) !! "a"
     = Some (Json (VNum 3)).
Proof.
  assert (Hbr : accepts_all (browserAt 0)) by done.
  split; [exact Hbr|].
  destruct (batched_writes_last_write_wins
              (browserAt 0)
              [("a", Json (VNum 1)); ("b", Json (VNum 2)); ("a", Json (VNum 3))]
              (idleBatcher emptyStorage) Hbr eq_refl) as (_ & _ & _ & Hitems).
  exact (Hitems "a").
Defined.

Lemma happen_keeps_timer (e : batchEvent) (b : Batcher) :
  (_writeQueue b <> [] ->
   exists handle, _writeTimeout b = Some handle /\ handle ∈ pending b) ->
  _writeQueue (happen e b) <> [] ->
  exists handle, _writeTimeout (happen e b) = Some handle /\ handle ∈ pending (happen e b).
Proof.
  intros Hinv. destruct e as [key value|br|br handle]; cbn [happen].
  - intros _. unfold queueWrite. cbn [_writeTimeout pending]. eexists. split; [done|].
    apply elem_of_union_l. by apply elem_of_singleton.
  - unfold flushWrites. destruct (_writeQueue b) eqn:Hq; cbn; [|done].
    intros Hne. by destruct (Hne Hq).
  - unfold timerFires. destruct (bool_decide (handle ∈ pending b)); [|done].
    unfold flushWrites. cbn [_writeQueue]. destruct (_writeQueue b) eqn:Hq; cbn; [|done].
    intros Hne. by destruct Hne.
Qed.

Lemma happenAll_keeps_timer (events : list batchEvent) (b : Batcher) :
  (_writeQueue b <> [] ->
   exists handle, _writeTimeout b = Some handle /\ handle ∈ pending b) ->
  _writeQueue (happenAll events b) <> [] ->
  exists handle, _writeTimeout (happenAll events b) = Some handle
                 /\ handle ∈ pending (happenAll events b).
Proof.
  revert b. induction events as [|e events IH]; intros b Hinv; [done|].
  cbn [happenAll foldl]. apply IH. by apply happen_keeps_timer.
Qed.

(** X4 (queueWrite, flushWrites and their timer): however calls of
    [queueWrite], calls of [flushWrites] and timers coming due interleave,
    a non-empty queue always has its flush timer pending, and that timer
    coming due empties the queue: a queued write is never left without a
    flush to come. *)
Theorem queued_writes_await_a_flush (events : list batchEvent) (ls : Storage) (br : Browser) :
  let b := happenAll events (idleBatcher ls) in
  _writeQueue b <> [] ->
  exists handle,
    _writeTimeout b = Some handle
    /\ handle ∈ pending b
    /\ _writeQueue (timerFires br handle b) = [].
Proof.
  intros b Hq.
  destruct (happenAll_keeps_timer events (idleBatcher ls)) as (handle & Ht & Hp);
    [by intros [] | exact Hq |].
  exists handle. split; [done|]. split; [done|].
  unfold timerFires. rewrite bool_decide_eq_true_2 by done.
  unfold flushWrites. cbn [_writeQueue]. by destruct (_writeQueue b).
Qed.

Lemma queued_writes_await_a_flush_witness :
  _writeQueue (happenAll [QueueWrite "a" (Serializable (Json (VNum 1)));
                          FlushWrites (browserAt 0);
                          QueueWrite "b" (Serializable (Json (VNum 2)));
                          TimerDue (browserAt 0) 7]
                         (idleBatcher emptyStorage)) <> []
  /\ exists handle,
      _writeTimeout (happenAll [QueueWrite "a" (Serializable (Json (VNum 1)));
                                FlushWrites (browserAt 0);
                                QueueWrite "b" (Serializable (Json (VNum 2)));
                                TimerDue (browserAt 0) 7]
                               (idleBatcher emptyStorage)) = Some handle.
Proof.
  assert (H : _writeQueue (happenAll [QueueWrite "a" (Serializable (Json (VNum 1)));
                                      FlushWrites (browserAt 0);
                                      QueueWrite "b" (Serializable (Json (VNum 2)));
                                      TimerDue (browserAt 0) 7]
                                     (idleBatcher emptyStorage)) <> []).
  { vm_compute. intros Hc. discriminate Hc. }
  split; [exact H|].
  destruct (queued_writes_await_a_flush _ emptyStorage (browserAt 0) H) as (handle & Ht & _).
  by exists handle.
Defined.

End BatchedWrites.

Section KeyRemoval.
Import StorageManager.

Lemma Object_keys_present (ko : KeyOrder) (m : gmap string stored) (k : string) :
  k ∈ Object_keys ko m <-> is_Some (m !! k).
Proof.
  rewrite (Object_keys_spec ko m), list_elem_of_fmap. split.
  - intros [[k' x] [-> Hin]]. apply elem_of_map_to_list in Hin. by exists x.
  - intros [x Hx]. exists (k, x). split; [done|]. by apply elem_of_map_to_list.
Qed.

Lemma Object_keys_NoDup (ko : KeyOrder) (m : gmap string stored) : NoDup (Object_keys ko m).
Proof. rewrite (Object_keys_spec ko m). apply NoDup_fst_map_to_list. Qed.

Lemma size_delete_present (m : gmap string stored) (k : string) :
  is_Some (m !! k) -> (Z.of_nat (size (delete k m)) + 1 = Z.of_nat (size m))%Z.
Proof.
  intros Hk. rewrite (map_size_delete_Some _ _ Hk).
  pose proof (map_size_ne_0_lookup_2 _ _ Hk). lia.
Qed.

Lemma foldl_removeIfPresent (l : list string) (acc : Z * Storage) :
  let r := foldl removeIfPresent acc l in
  (forall k, items (snd r) !! k
             = if bool_decide (k ∈ l) then None else items (snd acc) !! k)
  /\ (fst r + Z.of_nat (size (items (snd r)))
      = fst acc + Z.of_nat (size (items (snd acc))))%Z.
Proof.
  revert acc. induction l as [|key l IH]; intros acc; cbv zeta.
  - split; [|done]. intros k. rewrite bool_decide_eq_false_2; [done|apply not_elem_of_nil].
  - cbn [foldl]. destruct (IH (removeIfPresent acc key)) as [Hitems Hcount].
    assert (Hstep : items (snd (removeIfPresent acc key)) = delete key (items (snd acc))
                    /\ (fst (removeIfPresent acc key)
                        + Z.of_nat (size (items (snd (removeIfPresent acc key))))
                        = fst acc + Z.of_nat (size (items (snd acc))))%Z).
    { unfold removeIfPresent, getItem.
      destruct (items (snd acc) !! key) as [x|] eqn:Hx; cbn [fst snd removeItem items].
      - split; [done|]. pose proof (size_delete_present (items (snd acc)) key) as Hsz.
        rewrite Hx in Hsz. specialize (Hsz (ltac:(by eexists))). lia.
      - split; [|done]. by rewrite delete_id. }
    destruct Hstep as [Hdel Hsize]. split; [|lia].
    intros k. rewrite Hitems, Hdel. destruct (decide (k = key)) as [->|Hne].
    + rewrite (bool_decide_eq_true_2 (key ∈ key :: l)) by left.
      rewrite lookup_delete_eq. by destruct (bool_decide (key ∈ l)).
    + rewrite lookup_delete_ne by done.
      destruct (bool_decide (k ∈ l)) eqn:Hin.
      * apply bool_decide_eq_true in Hin. rewrite bool_decide_eq_true_2; [done|by right].
      * apply bool_decide_eq_false in Hin. rewrite bool_decide_eq_false_2; [done|].
        intros Hin'. apply elem_of_cons in Hin' as [->|Hin']; [done|by apply Hin].
Qed.

Lemma foldl_removeIfTemporary (l : list string) (acc : Z * Storage) :
  NoDup l ->
  (forall k, k ∈ l -> is_Some (items (snd acc) !! k)) ->
  let r := foldl removeIfTemporary acc l in
  (forall k, items (snd r) !! k
             = if bool_decide (k ∈ l) && isTemporaryKey k then None
               else items (snd acc) !! k)
  /\ (fst r + Z.of_nat (size (items (snd r)))
      = fst acc + Z.of_nat (size (items (snd acc))))%Z
  /\ ((forall k, k ∈ l -> isTemporaryKey k = false) -> r = acc).
Proof.
  revert acc. induction l as [|key l IH]; intros acc Hnodup Hpresent; cbv zeta.
  - split; [|done]. intros k. rewrite bool_decide_eq_false_2; [done|apply not_elem_of_nil].
  - apply NoDup_cons in Hnodup as [Hkey Hnodup]. cbn [foldl].
    assert (Hstep : (forall k, k <> key ->
                               items (snd (removeIfTemporary acc key)) !! k
                               = items (snd acc) !! k)
                    /\ items (snd (removeIfTemporary acc key)) !! key
                       = (if isTemporaryKey key then None else items (snd acc) !! key)
                    /\ (fst (removeIfTemporary acc key)
                        + Z.of_nat (size (items (snd (removeIfTemporary acc key))))
                        = fst acc + Z.of_nat (size (items (snd acc))))%Z
                    /\ (isTemporaryKey key = false -> removeIfTemporary acc key = acc)).
    { unfold removeIfTemporary. destruct (isTemporaryKey key); cbn [fst snd removeItem items].
      - split; [intros k Hne; by apply lookup_delete_ne|]. split; [apply lookup_delete_eq|].
        split; [|done].
        pose proof (size_delete_present (items (snd acc)) key (Hpresent key ltac:(left))). lia.
      - done. }
    destruct Hstep as (Hother & Hthis & Hsize & Hsame).
    destruct (IH (removeIfTemporary acc key) Hnodup) as (Hitems & Hcount & Hid).
    { intros k Hk. rewrite Hother; [apply Hpresent; by right|]. intros ->. by apply Hkey. }
    split; [|split; [lia|]].
    + intros k. rewrite Hitems. destruct (decide (k = key)) as [->|Hne].
      * rewrite (bool_decide_eq_false_2 (key ∈ l)) by done.
        rewrite (bool_decide_eq_true_2 (key ∈ key :: l)) by left.
        cbn [andb]. exact Hthis.
      * rewrite Hother by done.
        destruct (bool_decide (k ∈ l)) eqn:Hin.
        -- apply bool_decide_eq_true in Hin.
           rewrite (bool_decide_eq_true_2 (k ∈ key :: l)); [done|by right].
        -- apply bool_decide_eq_false in Hin.
           rewrite (bool_decide_eq_false_2 (k ∈ key :: l)); [done|].
           intros Hin'. apply elem_of_cons in Hin' as [->|Hin']; [done|by apply Hin].
    + intros Hnone. rewrite Hid.
      * apply Hsame, Hnone. left.
      * intros k Hk. apply Hnone. by right.
Qed.

Lemma removeUnusedKeys_spec (ko : KeyOrder) (ls : Storage) :
  let r := removeUnusedKeys ko ls in
  (forall k, items (snd r) !! k = if unusedKey k then None else items ls !! k)
  /\ (fst r + Z.of_nat (size (items (snd r))) = Z.of_nat (size (items ls)))%Z.
Proof.
  cbv zeta. unfold removeUnusedKeys.
  destruct (foldl_removeIfPresent unusedKeys (0%Z, ls)) as [Hfirst Hcount1].
  set (first := foldl removeIfPresent (0%Z, ls) unusedKeys) in *.
  destruct (foldl_removeIfTemporary (Object_keys ko (items (snd first))) first)
    as (Hsecond & Hcount2 & _).
  { apply Object_keys_NoDup. }
  { intros k. apply Object_keys_present. }
  cbn [fst snd] in Hcount1. split; [|lia].
  intros k. rewrite Hsecond. unfold unusedKey.
  destruct (isTemporaryKey k) eqn:Htemp.
  - rewrite orb_true_r, andb_true_r.
    destruct (bool_decide (k ∈ Object_keys ko (items (snd first)))) eqn:Hin; [done|].
    apply bool_decide_eq_false in Hin. rewrite Object_keys_present in Hin.
    by apply eq_None_not_Some.
  - rewrite orb_false_r, andb_false_r. apply Hfirst.
Qed.

(** X5 (removeUnusedKeys): whatever order the browser lists the keys in,
    the call removes exactly the eight legacy keys and every key that starts
    with [temp_] or [_temp] (a key that merely starts with an underscore
    stays), leaves every other entry as it was, and returns the number of
    entries that the store lost. *)
Theorem removeUnusedKeys_removes_exactly (ko : KeyOrder) (ls : Storage) :
  let r := removeUnusedKeys ko ls in
  items (snd r) = filter (fun entry => unusedKey (fst entry) = false) (items ls)
  /\ fst r = (Z.of_nat (size (items ls)) - Z.of_nat (size (items (snd r))))%Z
  /\ (forall k v, startsWith k "_" = true -> unusedKey k = false ->
                  items ls !! k = Some v -> items (snd r) !! k = Some v).
Proof.
  destruct (removeUnusedKeys_spec ko ls) as [Hitems Hcount]. cbv zeta in *.
  split; [|split; [lia|]].
  - apply map_eq. intros k. rewrite Hitems, map_lookup_filter.
    destruct (unusedKey k) eqn:Hk; destruct (items ls !! k) as [v|]; cbn; try done.
    + rewrite option_guard_False; [done|]. cbn. by rewrite Hk.
    + rewrite option_guard_True; [done|]. cbn. by rewrite Hk.
  - intros k v _ Hk Hv. by rewrite Hitems, Hk.
Qed.

(** X6 (removeUnusedKeys): the removal is idempotent: a second run, under
    any listing order, finds nothing to remove: it returns 0 and makes no
    call that changes [localStorage]. *)
Theorem removeUnusedKeys_idempotent (ko ko' : KeyOrder) (ls : Storage) :
  removeUnusedKeys ko' (snd (removeUnusedKeys ko ls)) = (0%Z, snd (removeUnusedKeys ko ls)).
Proof.
  destruct (removeUnusedKeys_spec ko ls) as [Hitems _]. cbv zeta in Hitems.
  set (ls1 := snd (removeUnusedKeys ko ls)) in *.
  assert (Hnone : forall k, unusedKey k = true -> items ls1 !! k = None).
  { intros k Hk. by rewrite Hitems, Hk. }
  unfold removeUnusedKeys.
  assert (Hfirst : foldl removeIfPresent (0%Z, ls1) unusedKeys = (0%Z, ls1)).
  { assert (Hall : forall l, (forall k, k ∈ l -> k ∈ unusedKeys) ->
                             foldl removeIfPresent (0%Z, ls1) l = (0%Z, ls1)).
    { induction l as [|key l IH]; intros Hl; [done|].
      cbn [foldl]. unfold removeIfPresent at 2. unfold getItem. cbn [fst snd].
      rewrite Hnone.
      - apply IH. intros k Hk. apply Hl. by right.
      - unfold unusedKey. rewrite bool_decide_eq_true_2; [done|]. apply Hl. left. }
    by apply Hall. }
  rewrite Hfirst. cbn [snd].
  destruct (foldl_removeIfTemporary (Object_keys ko' (items ls1)) (0%Z, ls1))
    as (_ & _ & Hsame).
  { apply Object_keys_NoDup. }
  { intros k. apply Object_keys_present. }
  apply Hsame. intros k Hk. apply Object_keys_present in Hk.
  destruct (isTemporaryKey k) eqn:Htemp; [|done].
  rewrite Hnone in Hk; [by destruct Hk as [x Hx]|].
  unfold unusedKey. by rewrite Htemp, orb_true_r.
Qed.

Lemma foldl_removeItem (l : list string) (ls : Storage) (k : string) :
  items (foldl (fun st key => removeItem key st) ls l) !! k
  = if bool_decide (k ∈ l) then None else items ls !! k.
Proof.
  revert ls. induction l as [|key l IH]; intros ls.
  - rewrite bool_decide_eq_false_2; [done|apply not_elem_of_nil].
  - cbn [foldl]. rewrite IH. cbn [removeItem items].
    destruct (decide (k = key)) as [->|Hne].
    + rewrite (bool_decide_eq_true_2 (key ∈ key :: l)) by left.
      rewrite lookup_delete_eq. by destruct (bool_decide (key ∈ l)).
    + rewrite lookup_delete_ne by done.
      destruct (bool_decide (k ∈ l)) eqn:Hin.
      * apply bool_decide_eq_true in Hin. rewrite bool_decide_eq_true_2; [done|by right].
      * apply bool_decide_eq_false in Hin. rewrite bool_decide_eq_false_2; [done|].
        intros Hin'. apply elem_of_cons in Hin' as [->|Hin']; [done|by apply Hin].
Qed.

Lemma foldl_removeIfUserCache (l : list string) (ls : Storage) (k : string) :
  items (foldl removeIfUserCache ls l) !! k
  = if bool_decide (k ∈ l) && startsWith k "firebase_user_" then None else items ls !! k.
Proof.
  revert ls. induction l as [|key l IH]; intros ls.
  - rewrite bool_decide_eq_false_2; [done|apply not_elem_of_nil].
  - cbn [foldl]. rewrite IH. destruct (decide (k = key)) as [->|Hne].
    + rewrite (bool_decide_eq_true_2 (key ∈ key :: l)) by left. cbn [andb].
      unfold removeIfUserCache. destruct (startsWith key "firebase_user_") eqn:Hp.
      * rewrite andb_true_r. cbn [removeItem items]. rewrite lookup_delete_eq.
        by destruct (bool_decide (key ∈ l)).
      * by rewrite andb_false_r.
    + assert (Hsame : items (removeIfUserCache ls key) !! k = items ls !! k).
      { unfold removeIfUserCache. destruct (startsWith key "firebase_user_"); [|done].
        cbn [removeItem items]. by apply lookup_delete_ne. }
      rewrite Hsame.
      destruct (bool_decide (k ∈ l)) eqn:Hin.
      * apply bool_decide_eq_true in Hin.
        rewrite (bool_decide_eq_true_2 (k ∈ key :: l)); [done|by right].
      * apply bool_decide_eq_false in Hin.
        rewrite (bool_decide_eq_false_2 (k ∈ key :: l)); [done|].
        intros Hin'. apply elem_of_cons in Hin' as [->|Hin']; [done|by apply Hin].
Qed.

(** X7 (clearAll, read): whatever order the browser lists the keys in,
    [clearAll] removes exactly the fourteen application keys and every
    cached Firebase user ([firebase_user_...]) and leaves any other entry
    as it was; afterwards [read] answers its default for each of them. *)
Theorem clearAll_removes_exactly (ko : KeyOrder) (ls : Storage) :
  items (clearAll ko ls) = filter (fun entry => appKey (fst entry) = false) (items ls)
  /\ (forall k d, appKey k = true -> read k d (clearAll ko ls) = d).
Proof.
  assert (Hitems : forall k, items (clearAll ko ls) !! k
                             = if appKey k then None else items ls !! k).
  { intros k. unfold clearAll. rewrite foldl_removeIfUserCache.
    set (ls1 := foldl (fun l key => removeItem key l) ls appKeys).
    assert (H1 : items ls1 !! k = if bool_decide (k ∈ appKeys) then None else items ls !! k)
      by apply foldl_removeItem.
    unfold appKey. destruct (startsWith k "firebase_user_") eqn:Hp.
    - rewrite orb_true_r, andb_true_r.
      destruct (bool_decide (k ∈ Object_keys ko (items ls1))) eqn:Hin; [done|].
      apply bool_decide_eq_false in Hin. rewrite Object_keys_present in Hin.
      by apply eq_None_not_Some.
    - by rewrite orb_false_r, andb_false_r. }
  split.
  - apply map_eq. intros k. rewrite Hitems, map_lookup_filter.
    destruct (appKey k) eqn:Hk; destruct (items ls !! k) as [v|]; cbn; try done.
    + rewrite option_guard_False; [done|]. cbn. by rewrite Hk.
    + rewrite option_guard_True; [done|]. cbn. by rewrite Hk.
  - intros k d Hk. unfold read, getItem. by rewrite Hitems, Hk.
Qed.

Lemma clearAll_removes_exactly_witness :
  appKey "firebase_user_u1" = true
  /\ read "firebase_user_u1" (VNum 0)
          (clearAll keysInMapOrder
                    (mkStorage {[ "firebase_user_u1" := Json (VNum 1) ]} [])) = VNum 0.
Proof.
  split; [done|].
  exact (proj2 (clearAll_removes_exactly keysInMapOrder _) "firebase_user_u1" (VNum 0) eq_refl).
Defined.

Lemma removeUnusedKeys_removes_exactly_witness :
  startsWith "_theme" "_" = true
  /\ unusedKey "_theme" = false
  /\ items (snd (removeUnusedKeys keysInMapOrder
                   (mkStorage (<["_theme" := Json (VNum 1)]>
                                 {[ "temp_cart" := Json (VNum 2) ]}) []))) !! "_theme"
     = Some (Json (VNum 1)).
Proof.
  split; [done|]. split; [done|].
  refine (proj2 (proj2 (removeUnusedKeys_removes_exactly keysInMapOrder _))
                "_theme" (Json (VNum 1)) eq_refl eq_refl _).
  done.
Defined.

End KeyRemoval.

(** ** The periodic sweep, run again *)

Section SweepAgain.
Import StorageManager.

Lemma filter_again {A : Type} (f : A -> bool) (l : list A) :
  List.filter f (List.filter f l) = List.filter f l.
Proof.
  induction l as [|x l IH]; [done|]. simpl. destruct (f x) eqn:Hx; [|done].
  simpl. by rewrite Hx, IH.
Qed.

(** A second pass over an entry that a first pass has left: nothing is
    removed and nothing is written. *)
Lemma cleanupArray_again (br : Browser) (key : string) (keep : jsobj -> bool)
      (ls ls2 : Storage) :
  accepts_all br ->
  items ls2 !! key = items (snd (cleanupArray_try br key keep ls)) !! key ->
  cleanupArray_try br key keep ls2 = (Normal 0%Z, ls2)
  \/ exists e, cleanupArray_try br key keep ls2 = (Throw e, ls2).
Proof.
  intros Hbr. unfold cleanupArray_try at 1. unfold getItem.
  destruct (items ls !! key) as [[msg|v]|] eqn:Hentry; cbn [snd].
  - rewrite Hentry. intros H2. right. exists (SyntaxError msg).
    unfold cleanupArray_try, getItem. by rewrite H2.
  - destruct v as [|b|z|str|l|d]; cbn [snd];
      try (rewrite Hentry; intros H2; left; unfold cleanupArray_try, getItem; by rewrite H2).
    unfold filter_members.
    destruct (all_objects l) as [objs|] eqn:Hobjs; cbn [snd].
    + pose proof (all_objects_length l objs Hobjs) as Hlen.
      pose proof (List.filter_length_le keep objs) as Hle.
      destruct (0 <? Z.of_nat (length l) - Z.of_nat (length (List.filter keep objs)))%Z eqn:Hn;
        cbn [snd].
      * unfold setItem. rewrite Hbr. cbn [snd items]. rewrite lookup_insert_eq.
        intros H2. left. unfold cleanupArray_try, getItem. rewrite H2.
        unfold filter_members. rewrite all_objects_objects, filter_again.
        assert (Hsame : length (objects (List.filter keep objs))
                        = length (List.filter keep objs)) by apply length_map.
        by rewrite Hsame, Z.sub_diag.
      * rewrite Hentry. intros H2. left. unfold cleanupArray_try, getItem. rewrite H2.
        unfold filter_members. rewrite Hobjs, Hn. apply Z.ltb_ge in Hn.
        do 2 f_equal. lia.
    + rewrite Hentry. intros H2. right. exists null_member.
      unfold cleanupArray_try, getItem. rewrite H2. unfold filter_members. by rewrite Hobjs.
  - rewrite Hentry. intros H2. left. unfold cleanupArray_try, getItem. by rewrite H2.
Qed.

Lemma punched_has_null (br : Browser) (locks : list (option jsobj)) :
  List.filter (staleMember br) locks <> [] -> all_objects (map (punch br) locks) = None.
Proof.
  induction locks as [|m locks IH]; [done|].
  cbn [List.filter map]. unfold punch at 1.
  destruct (staleMember br m) eqn:Hm; [done|].
  intros H. destruct m as [o|]; [|done]. cbn [all_objects]. by rewrite (IH H).
Qed.

Lemma cleanupActionLocks_again (br : Browser) (ls ls2 : Storage) :
  accepts_all br ->
  items ls2 !! "actionLocks" = items (snd (cleanupActionLocks_try br ls)) !! "actionLocks" ->
  cleanupActionLocks_try br ls2 = (Normal 0%Z, ls2)
  \/ exists e, cleanupActionLocks_try br ls2 = (Throw e, ls2).
Proof.
  intros Hbr. unfold cleanupActionLocks_try at 1. unfold getItem.
  destruct (items ls !! "actionLocks") as [[msg|v]|] eqn:Hentry; cbn [snd].
  - rewrite Hentry. intros H2. right. eexists.
    unfold cleanupActionLocks_try, getItem. by rewrite H2.
  - destruct v as [|b|z|str|locks|locks]; cbn [snd];
      try (rewrite Hentry; intros H2; left; unfold cleanupActionLocks_try, getItem;
           by rewrite H2).
    + rewrite Hentry. intros H2. right. eexists.
      unfold cleanupActionLocks_try, getItem. by rewrite H2.
    + destruct (all_objects locks) as [objs|] eqn:Hobjs; cbn [snd].
      * destruct (0 <? Z.of_nat (length (List.filter (staleMember br) locks)))%Z eqn:Hn;
          cbn [snd].
        -- unfold setItem. rewrite Hbr. cbn [snd items]. rewrite lookup_insert_eq.
           intros H2. right. exists null_member.
           unfold cleanupActionLocks_try, getItem. rewrite H2.
           rewrite punched_has_null; [done|].
           destruct (List.filter (staleMember br) locks); [|done]. cbn in Hn. discriminate.
        -- rewrite Hentry. intros H2. left.
           unfold cleanupActionLocks_try, getItem. rewrite H2, Hobjs, Hn.
           apply Z.ltb_ge in Hn. do 2 f_equal. lia.
      * rewrite Hentry. intros H2. right. exists null_member.
        unfold cleanupActionLocks_try, getItem. by rewrite H2, Hobjs.
    + destruct (bool_decide (map_Forall (fun _ member => is_Some member) locks)) eqn:Hall;
        cbn [snd].
      * set (kept := filter (fun kv : string * option jsobj => staleMember br kv.2 = false)
                            locks).
        pose proof (map_subseteq_size (filter _ locks) locks
                      (map_filter_subseteq (fun kv : string * option jsobj =>
                                              staleMember br kv.2 = false) locks)) as Hsize.
        fold kept in Hsize.
        destruct (0 <? Z.of_nat (size locks) - Z.of_nat (size kept))%Z eqn:Hn; cbn [snd].
        -- unfold setItem. rewrite Hbr. cbn [snd items]. rewrite lookup_insert_eq.
           intros H2. left. unfold cleanupActionLocks_try, getItem. rewrite H2.
           assert (Hkept : bool_decide (map_Forall (fun _ member => is_Some member) kept)
                           = true).
           { apply bool_decide_eq_true. apply bool_decide_eq_true in Hall.
             intros k member Hk. apply map_lookup_filter_Some in Hk as [Hk _].
             by apply (Hall k). }
           rewrite Hkept.
           assert (Hid : filter (fun kv : string * option jsobj => staleMember br kv.2 = false)
                                kept = kept).
           { apply map_filter_id. intros k member Hk.
             by apply map_lookup_filter_Some in Hk as [_ Hk]. }
           rewrite Hid, Z.sub_diag. done.
        -- rewrite Hentry. intros H2. left.
           unfold cleanupActionLocks_try, getItem. rewrite H2, Hall. fold kept. rewrite Hn.
           apply Z.ltb_ge in Hn. do 2 f_equal. lia.
      * rewrite Hentry. intros H2. right. exists null_member.
        unfold cleanupActionLocks_try, getItem. by rewrite H2, Hall.
  - rewrite Hentry. intros H2. left. unfold cleanupActionLocks_try, getItem. by rewrite H2.
Qed.

Lemma catch_zero_again (r : completion Z * Storage) (ls : Storage) :
  r = (Normal 0%Z, ls) \/ (exists e, r = (Throw e, ls)) -> catch_zero r = (Normal 0%Z, ls).
Proof. by intros [->|[e ->]]. Qed.

Lemma catch_zero_storage (r : completion Z * Storage) : snd (catch_zero r) = snd r.
Proof. by destruct r as [[n|e] ls]. Qed.

Lemma cleanupOldBookings_storage (br : Browser) (ls : Storage) :
  snd (cleanupOldBookings br ls) = snd (cleanupArray_try br "bookings" (keepBooking br) ls).
Proof. by destruct (cleanupOldBookings_Normal br ls) as (b & _ & ->). Qed.

Lemma cleanupStaleData_storage (br : Browser) (ls : Storage) :
  let ls1 := snd (cleanupArray_try br "bookings" (keepBooking br) ls) in
  let ls2 := snd (cleanupArray_try br "bookingHistory" (keepEntry br) ls1) in
  let ls3 := snd (cleanupArray_try br "bookingSecurityLogs" (keepLog br) ls2) in
  let ls4 := snd (cleanupActionLocks_try br ls3) in
  snd (cleanupStaleData br ls) = ls4.
Proof.
  cbv zeta. unfold cleanupStaleData.
  destruct (cleanupOldBookings_Normal br ls) as (b & Hb & Hls1).
  destruct (cleanupOldBookings br ls) as [r1 ls1]. cbn [fst snd] in Hb, Hls1. subst r1.
  cbn [andThen]. rewrite <- Hls1.
  unfold cleanupBookingHistory.
  pose proof (catch_zero_storage (cleanupArray_try br "bookingHistory" (keepEntry br) ls1)) as H2.
  destruct (catch_zero_Normal (cleanupArray_try br "bookingHistory" (keepEntry br) ls1))
    as (h & Hh & _).
  destruct (catch_zero (cleanupArray_try br "bookingHistory" (keepEntry br) ls1)) as [r2 ls2].
  cbn [fst snd] in Hh, H2. subst r2. cbn [andThen]. rewrite <- H2.
  unfold cleanupSecurityLogs.
  pose proof (catch_zero_storage (cleanupArray_try br "bookingSecurityLogs" (keepLog br) ls2))
    as H3.
  destruct (catch_zero_Normal (cleanupArray_try br "bookingSecurityLogs" (keepLog br) ls2))
    as (l & Hl & _).
  destruct (catch_zero (cleanupArray_try br "bookingSecurityLogs" (keepLog br) ls2))
    as [r3 ls3].
  cbn [fst snd] in Hl, H3. subst r3. cbn [andThen]. rewrite <- H3.
  unfold cleanupActionLocks.
  pose proof (catch_zero_storage (cleanupActionLocks_try br ls3)) as H4.
  destruct (catch_zero_Normal (cleanupActionLocks_try br ls3)) as (k & Hk & _).
  destruct (catch_zero (cleanupActionLocks_try br ls3)) as [r4 ls4].
  cbn [fst snd] in Hk, H4. subst r4. cbn [andThen snd]. done.
Qed.

(** X8 (cleanupStaleData): on a store that accepts every write the sweep is
    idempotent: run again at the same instant on what it left, it reports
    nothing archived or removed in any of the four categories and makes no
    call that changes [localStorage]. *)
Theorem cleanupStaleData_again_removes_nothing (br : Browser) (ls : Storage) :
  accepts_all br ->
  let swept := snd (cleanupStaleData br ls) in
  exists results,
    cleanupStaleData br swept = (Normal results, swept)
    /\ archived (res_bookings results) = 0%Z
    /\ removed (res_bookings results) = 0%Z
    /\ res_history results = 0%Z
    /\ res_logs results = 0%Z
    /\ res_locks results = 0%Z.
Proof.
  intros Hbr swept. pose proof (cleanupStaleData_storage br ls) as Hswept. cbv zeta in Hswept.
  fold swept in Hswept.
  set (ls1 := snd (cleanupArray_try br "bookings" (keepBooking br) ls)) in *.
  set (ls2 := snd (cleanupArray_try br "bookingHistory" (keepEntry br) ls1)) in *.
  set (ls3 := snd (cleanupArray_try br "bookingSecurityLogs" (keepLog br) ls2)) in *.
  destruct (cleanupArray_sweeps br "bookingHistory" (keepEntry br) ls1) as [T2 _].
  destruct (cleanupArray_sweeps br "bookingSecurityLogs" (keepLog br) ls2) as [T3 _].
  destruct (cleanupActionLocks_sweeps br ls3) as [T4 _].
  cbv zeta in T2, T3, T4. fold ls2 in T2. fold ls3 in T3. rewrite <- Hswept in T4.
  assert (Hb : items swept !! "bookings" = items ls1 !! "bookings").
  { rewrite T4 by done. rewrite T3 by done. by rewrite T2. }
  assert (Hh : items swept !! "bookingHistory" = items ls2 !! "bookingHistory").
  { rewrite T4 by done. by rewrite T3. }
  assert (Hl : items swept !! "bookingSecurityLogs" = items ls3 !! "bookingSecurityLogs").
  { by rewrite T4. }
  assert (Hk : items swept !! "actionLocks"
               = items (snd (cleanupActionLocks_try br ls3)) !! "actionLocks").
  { by rewrite Hswept. }
  pose proof (cleanupArray_again br "bookings" (keepBooking br) ls swept Hbr Hb) as A1.
  pose proof (catch_zero_again _ _
                (cleanupArray_again br "bookingHistory" (keepEntry br) ls1 swept Hbr Hh)) as A2.
  pose proof (catch_zero_again _ _
                (cleanupArray_again br "bookingSecurityLogs" (keepLog br) ls2 swept Hbr Hl))
    as A3.
  pose proof (catch_zero_again _ _ (cleanupActionLocks_again br ls3 swept Hbr Hk)) as A4.
  unfold cleanupStaleData, cleanupOldBookings.
  rewrite cleanupOldBookings_try_array.
  unfold cleanupBookingHistory, cleanupSecurityLogs, cleanupActionLocks.
  destruct A1 as [->|[e ->]]; cbn [andThen]; rewrite A2; cbn [andThen]; rewrite A3;
    cbn [andThen]; rewrite A4; cbn [andThen]; eexists; (split; [reflexivity|done]).
Qed.

Lemma cleanupStaleData_again_removes_nothing_witness :
  accepts_all (browserAt 1000000000)
  /\ exists results,
      cleanupStaleData (browserAt 1000000000)
                       (snd (cleanupStaleData (browserAt 1000000000) brokenBookings))
      = (Normal results, snd (cleanupStaleData (browserAt 1000000000) brokenBookings))
      /\ res_logs results = 0%Z.
Proof.
  assert (Hbr : accepts_all (browserAt 1000000000)) by done.
  split; [exact Hbr|].
  destruct (cleanupStaleData_again_removes_nothing (browserAt 1000000000) brokenBookings Hbr)
    as (results & Hrun & _ & _ & _ & Hlogs & _).
  by exists results.
Defined.

End SweepAgain.

(** ** The gateway: the other reads and writes *)

Section GatewayWrites.
Import FirebaseDb.

Lemma persistAnyway_spec (br : Browser) (key : string) (text : stored) (error : JsError)
      (s : State) :
  let s' := persistAnyway br key text error s in
  remoteLog s' = remoteLog s
  /\ firebaseWriteDenied s' = isPermissionError error || firebaseWriteDenied s
  /\ (setItemError br (items (localStorage s)) key text = None ->
      getItem (localStorage s') key = Some text)
  /\ sameCaches s s'.
Proof.
  cbv zeta. unfold persistAnyway, markWriteDenied, setItem, getItem, sameCaches.
  destruct (isPermissionError error); cbn [localStorage set_firebaseWriteDenied];
    destruct (setItemError br (items (localStorage s)) key text) as [e|];
    cbn; rewrite ?lookup_insert_eq; done.
Qed.

Lemma persist_spec (br : Browser) (key : string) (text : stored) (s : State) :
  let r := persist br key text s in
  fst r = Normal tt
  /\ remoteLog (snd r) = remoteLog s
  /\ (setItemError br (items (localStorage s)) key text = None ->
      getItem (localStorage (snd r)) key = Some text
      /\ firebaseWriteDenied (snd r) = firebaseWriteDenied s)
  /\ (firebaseWriteDenied s = true -> firebaseWriteDenied (snd r) = true)
  /\ sameCaches s (snd r).
Proof.
  cbv zeta. unfold persist, setItem.
  destruct (setItemError br (items (localStorage s)) key text) as [e|] eqn:He; cbn [fst snd].
  - destruct (persistAnyway_spec br key text e
                (set_localStorage (mkStorage (items (localStorage s))
                                             (ops (localStorage s) ++ [OpSet key text false])) s))
      as (Hlog & Hflag & _ & Hcaches).
    cbv zeta in *. split; [done|]. split; [exact Hlog|]. split; [done|].
    split; [|exact Hcaches].
    intros Hs. rewrite Hflag. cbn. rewrite Hs. apply orb_true_r.
  - unfold getItem, sameCaches. cbn. rewrite lookup_insert_eq. done.
Qed.

Lemma saveVia_spec (br : Browser) (fb : Firebase) (key : string) (text : stored)
      (obj : gmap string jsobj) (s : State) :
  let r := saveVia br fb key text obj s in
  fst r = Normal tt
  /\ newCalls s (snd r)
     = (if db fb && negb (firebaseWriteDenied s) then [RSet key (PDict obj)] else [])
  /\ (setItemError br (items (localStorage s)) key text = None ->
      getItem (localStorage (snd r)) key = Some text)
  /\ (firebaseWriteDenied s = true -> firebaseWriteDenied (snd r) = true)
  /\ (forall e, db fb = true -> firebaseWriteDenied s = false ->
                remote_set fb key (PDict obj) = Some e ->
                firebaseWriteDenied (snd r) = isPermissionError e)
  /\ sameCaches s (snd r).
Proof.
  cbv zeta. unfold saveVia.
  destruct (db fb) eqn:Hdb; cbn [negb orb andb].
  - destruct (firebaseWriteDenied s) eqn:Hflag; cbn [negb orb andb].
    + destruct (persist_spec br key text s) as (Hr & Hlog & Hacc & Hkeep & Hcaches).
      cbv zeta in *. split; [done|]. split.
      { apply newCalls_remote. by rewrite Hlog, app_nil_r. }
      split; [intros H; by apply Hacc|]. split; [intros _; by apply Hkeep|]. by split.
    + set (s1 := remote [RSet key (PDict obj)] s).
      destruct (remote_set fb key (PDict obj)) as [e|] eqn:Hset; cbn [fst snd].
      * destruct (persistAnyway_spec br key text e s1) as (Hlog & Hflag' & Hacc & Hcaches).
        cbv zeta in *. split; [done|]. split; [by apply newCalls_remote|].
        split; [exact Hacc|]. split; [done|]. split; [|exact Hcaches].
        intros e' _ _ [= <-]. rewrite Hflag'. cbn. rewrite Hflag. apply orb_false_r.
      * destruct (persist_spec br key text s1) as (Hr & Hlog & Hacc & Hkeep & Hcaches).
        cbv zeta in *. split; [done|]. split; [by apply newCalls_remote|].
        split; [intros H; by apply Hacc|]. split; [done|]. by split.
  - destruct (persist_spec br key text s) as (Hr & Hlog & Hacc & Hkeep & Hcaches).
    cbv zeta in *. split; [done|]. split.
    { apply newCalls_remote. by rewrite Hlog, app_nil_r. }
    split; [intros H; by apply Hacc|]. split; [exact Hkeep|]. by split.
Qed.

Lemma saveUsers_saveVia (br : Browser) (fb : Firebase) (users : list jsobj) (s : State) :
  saveUsers br fb users s
  = saveVia br fb "users" (Json (VArr (objects users))) (indexById users) s.
Proof. done. Qed.

Lemma saveGroomers_saveVia (br : Browser) (fb : Firebase) (groomers : list jsobj) (s : State) :
  saveGroomers br fb groomers s
  = saveVia br fb "groomers" (Json (VArr (objects groomers))) (indexById groomers) s.
Proof. done. Qed.

Lemma savePackages_saveVia (br : Browser) (fb : Firebase) (packages : list jsobj) (s : State) :
  savePackages br fb packages s
  = saveVia br fb "packages" (dictionary (indexById packages)) (indexById packages) s.
Proof. done. Qed.

(** X9 (saveUsers): unlike [saveBookings], [saveUsers] never rejects.  It
    makes one remote call, the [set] of the whole collection keyed by id,
    and none when there is no database or [window.firebaseWriteDenied] is
    set; whatever the database answers, the list is persisted to
    [localStorage] whenever the store accepts it; a rejected remote write
    sets the write-denied flag exactly when it is a permission error, and
    the flag is never cleared. *)
Theorem saveUsers_persists_and_never_rejects
        (br : Browser) (fb : Firebase) (users : list jsobj) (s : State) :
  let r := saveUsers br fb users s in
  fst r = Normal tt
  /\ newCalls s (snd r)
     = (if db fb && negb (firebaseWriteDenied s)
        then [RSet "users" (PDict (indexById users))] else [])
  /\ (setItemError br (items (localStorage s)) "users" (Json (VArr (objects users))) = None ->
      getItem (localStorage (snd r)) "users" = Some (Json (VArr (objects users))))
  /\ (firebaseWriteDenied s = true -> firebaseWriteDenied (snd r) = true)
  /\ (forall e, db fb = true -> firebaseWriteDenied s = false ->
                remote_set fb "users" (PDict (indexById users)) = Some e ->
                firebaseWriteDenied (snd r) = isPermissionError e).
Proof.
  cbv zeta. rewrite saveUsers_saveVia.
  destruct (saveVia_spec br fb "users" (Json (VArr (objects users))) (indexById users) s)
    as (H1 & H2 & H3 & H4 & H5 & _).
  done.
Qed.

(** An instance: the database denies the write; the list is kept locally
    and the flag is set. *)
Example saveUsers_denied_but_kept :
  let r := saveUsers (browserAt 0) onlyFirstWritable [customer] (initial emptyStorage) in
  fst r = Normal tt
  /\ getItem (localStorage (snd r)) "users" = Some (Json (VArr [Some customer]))
  /\ firebaseWriteDenied (snd r) = true.
Proof. vm_compute. repeat split. Qed.

Lemma foldl_index_present (l : list jsobj) (acc : gmap string jsobj) (k : string) :
  foldl (fun obj o => <[interpolate (id o) := o]> obj) acc l !! k
  = match list_find (fun o => interpolate (id o) = k) (reverse l) with
    | Some (_, q) => Some q
    | None => acc !! k
    end.
Proof.
  revert acc. induction l as [|o l IH] using rev_ind; intros acc; [done|].
  rewrite foldl_app, reverse_app. cbn [foldl reverse rev_append app list_find].
  destruct (decide (interpolate (id o) = k)) as [Heq|Hne].
  - cbn. by rewrite Heq, lookup_insert_eq.
  - rewrite lookup_insert_ne by done. rewrite IH.
    by destruct (list_find (fun o0 => interpolate (id o0) = k) (reverse l)) as [[i q]|].
Qed.

Lemma indexById_lookup (l : list jsobj) (k : string) (q : jsobj) :
  indexById l !! k = Some q -> q ∈ l /\ interpolate (id q) = k.
Proof.
  unfold indexById. rewrite foldl_index_present.
  destruct (list_find _ (reverse l)) as [[i q']|] eqn:Hfind; [|done].
  intros [= ->]. apply list_find_Some in Hfind as (Hi & Hk & _). split; [|done].
  apply elem_of_reverse. by eapply list_elem_of_lookup_2.
Qed.

Lemma indexById_covers (l : list jsobj) (p : jsobj) :
  p ∈ l ->
  exists q, indexById l !! interpolate (id p) = Some q
            /\ q ∈ l /\ interpolate (id q) = interpolate (id p).
Proof.
  intros Hp. unfold indexById. rewrite foldl_index_present.
  destruct (list_find _ (reverse l)) as [[i q]|] eqn:Hfind.
  - exists q. split; [done|]. apply list_find_Some in Hfind as (Hi & Hk & _).
    split; [|done]. apply elem_of_reverse. by eapply list_elem_of_lookup_2.
  - apply list_find_None in Hfind. rewrite Forall_forall in Hfind.
    destruct (Hfind p); [by apply elem_of_reverse|done].
Qed.

(** X10 (saveGroomers, getGroomers): [saveGroomers] persists the list but
    neither refreshes nor invalidates the in-memory groomers cache.  So a
    [getGroomers] that finds that cache fresh still answers the list cached
    before the save; one that reads the persisted copy (latch set, or cache
    not fresh and no database) answers the saved list, or the three
    defaults when the saved list is empty. *)
Theorem getGroomers_after_saveGroomers
        (br br' : Browser) (fb fb' : Firebase) (groomers : list jsobj) (s : State) :
  let s' := snd (saveGroomers br fb groomers s) in
  (groomersPermissionDenied s = false -> groomersFresh br' s = true ->
   getGroomers br' fb' s' = (Normal (groomersCache s), s'))
  /\ (setItemError br (items (localStorage s)) "groomers" (Json (VArr (objects groomers)))
      = None ->
      groomersPermissionDenied s = true \/ (groomersFresh br' s = false /\ db fb' = false) ->
      fst (getGroomers br' fb' s')
      = Normal (match groomers with
                | [] => VArr DEFAULT_GROOMERS
                | _ => VArr (objects groomers)
                end)).
Proof.
  cbv zeta. rewrite saveGroomers_saveVia.
  destruct (saveVia_spec br fb "groomers" (Json (VArr (objects groomers)))
                         (indexById groomers) s) as (_ & _ & Hacc & _ & _ & Hcaches).
  cbv zeta in *. set (s' := snd (saveVia _ _ _ _ _ _)) in *.
  destruct Hcaches as (_ & _ & _ & _ & _ & _ & Hc & Ht & Hp & _).
  assert (Hfresh : groomersFresh br' s' = groomersFresh br' s).
  { unfold groomersFresh. by rewrite Hc, Ht. }
  split.
  - intros Hlatch Hf. unfold getGroomers. fold (groomersFresh br' s').
    by rewrite Hp, Hlatch, Hfresh, Hf, Hc.
  - intros Haccepted Hpath. specialize (Hacc Haccepted).
    assert (Hlocal : local_or_default (VArr (objects groomers))
                     = match groomers with
                       | [] => VArr DEFAULT_GROOMERS
                       | _ => VArr (objects groomers)
                       end) by by destruct groomers.
    unfold getGroomers. fold (groomersFresh br' s'). rewrite Hp, Hfresh, Hacc. cbn [parse_or].
    destruct (groomersPermissionDenied s) eqn:Hlatch; cbn [fst]; [by rewrite Hlocal|].
    destruct Hpath as [?|[Hf Hdb]]; [done|]. rewrite Hf, Hdb. cbn [negb fst].
    by rewrite Hlocal.
Qed.

Lemma getGroomers_after_saveGroomers_witness :
  setItemError (browserAt 0) (items (localStorage (initial emptyStorage))) "groomers"
               (Json (VArr (objects [groomerOf "g-9"]))) = None
  /\ groomersFresh (browserAt 5) (initial emptyStorage) = false
  /\ fst (getGroomers (browserAt 5)
                      (mkFirebase false (fun _ => Snapshot []) (fun _ _ => None) None None)
                      (snd (saveGroomers (browserAt 0) accepting [groomerOf "g-9"]
                                         (initial emptyStorage))))
     = Normal (VArr [Some (groomerOf "g-9")]).
Proof.
  split; [done|]. split; [done|].
  refine (proj2 (getGroomers_after_saveGroomers
                   (browserAt 0) (browserAt 5) accepting
                   (mkFirebase false (fun _ => Snapshot []) (fun _ _ => None) None None)
                   [groomerOf "g-9"] (initial emptyStorage)) eq_refl _).
  right. done.
Defined.

(** X11 (savePackages, getPackages): what [savePackages] persists is the
    collection keyed by id, not the list it was given; so when [getPackages]
    falls back to the persisted copy (no database, or a rejected read) it
    answers that dictionary, holding under each id the package saved last
    with it, where it answers an array from the database. *)
Theorem getPackages_after_savePackages
        (br : Browser) (fb fb' : Firebase) (packages : list jsobj) (s : State) :
  setItemError br (items (localStorage s)) "packages" (dictionary (indexById packages)) = None ->
  db fb' = false \/ (exists e, remote_get fb' "packages" = Rejected e) ->
  let s' := snd (savePackages br fb packages s) in
  fst (getPackages fb' s') = Normal (VDict (Some <$> indexById packages))
  /\ (forall p, p ∈ packages ->
                exists q, indexById packages !! interpolate (id p) = Some q
                          /\ q ∈ packages /\ interpolate (id q) = interpolate (id p))
  /\ (forall k q, indexById packages !! k = Some q -> q ∈ packages /\ interpolate (id q) = k).
Proof.
  intros Haccepted Hpath. cbv zeta. rewrite savePackages_saveVia.
  destruct (saveVia_spec br fb "packages" (dictionary (indexById packages))
                         (indexById packages) s) as (_ & _ & Hacc & _).
  cbv zeta in Hacc. specialize (Hacc Haccepted).
  set (s' := snd (saveVia _ _ _ _ _ _)) in *.
  split; [|split; [apply indexById_covers|apply indexById_lookup]].
  unfold getPackages, getCollection.
  destruct (db fb') eqn:Hdb; cbn [negb].
  - destruct Hpath as [?|[e He]]; [done|]. rewrite He. cbn [fst remote localStorage].
    by rewrite Hacc.
  - by rewrite Hacc.
Qed.

Lemma getPackages_after_savePackages_witness :
  setItemError (browserAt 0) (items (localStorage (initial emptyStorage))) "packages"
               (dictionary (indexById [groomerOf "p-1"])) = None
  /\ fst (getPackages unreachable
                      (snd (savePackages (browserAt 0) unreachable [groomerOf "p-1"]
                                         (initial emptyStorage))))
     = Normal (VDict (Some <$> indexById [groomerOf "p-1"])).
Proof.
  split; [done|].
  refine (proj1 (getPackages_after_savePackages
                   (browserAt 0) unreachable unreachable [groomerOf "p-1"]
                   (initial emptyStorage) eq_refl _)).
  right. by exists networkError.
Defined.

Lemma saveBookings_rejected_flag (fb : Firebase) (bookings : list jsobj) (s s' : State)
      (e : JsError) :
  saveBookings fb bookings s = (Throw e, s') ->
  firebaseWriteDenied s' = isPermissionError e || firebaseWriteDenied s.
Proof.
  unfold saveBookings. destruct (negb (db fb)).
  - intros [= <- <-]. apply markWriteDenied_flag.
  - destruct (omap _ _); [discriminate|].
    destruct (remote_set fb "bookings" _) as [rootErr|]; [|discriminate].
    intros [= <- <-]. rewrite !markWriteDenied_flag. cbn.
    by destruct (isPermissionError rootErr).
Qed.

(** X12 (saveBookings, saveUsers, saveGroomers, savePackages, createBooking):
    once a [saveBookings] has failed with a permission error, the three
    local-first saves stop calling the database: each persists to
    [localStorage] only and resolves; the booking writes do not consult
    the flag: [createBooking] still attempts its remote [set]. *)
Theorem write_denial_makes_saves_local_only
        (fb0 : Firebase) (bookings : list jsobj) (s0 s : State) (e : JsError)
        (br : Browser) (fb : Firebase) (l : list jsobj) (b : jsobj) :
  saveBookings fb0 bookings s0 = (Throw e, s) ->
  isPermissionError e = true ->
  (saveUsers br fb l s = persist br "users" (Json (VArr (objects l))) s
   /\ newCalls s (snd (saveUsers br fb l s)) = [])
  /\ (saveGroomers br fb l s = persist br "groomers" (Json (VArr (objects l))) s
      /\ newCalls s (snd (saveGroomers br fb l s)) = [])
  /\ (savePackages br fb l s = persist br "packages" (dictionary (indexById l)) s
      /\ newCalls s (snd (savePackages br fb l s)) = [])
  /\ (db fb = true ->
      newCalls s (snd (createBooking fb b s))
      = [RSet (childPath (interpolate (id b))) (PObj b)]).
Proof.
  intros Hsave Hperm. pose proof (saveBookings_rejected_flag _ _ _ _ _ Hsave) as Hflag.
  rewrite Hperm in Hflag. cbn in Hflag.
  assert (Hcalls : forall key text obj,
             saveVia br fb key text obj s = persist br key text s
             /\ newCalls s (snd (saveVia br fb key text obj s)) = []).
  { intros key text obj.
    destruct (saveVia_spec br fb key text obj s) as (_ & Hc & _). cbv zeta in Hc.
    rewrite Hflag, andb_false_r in Hc. split; [|done].
    unfold saveVia. by rewrite Hflag, orb_true_r. }
  rewrite saveUsers_saveVia, saveGroomers_saveVia, savePackages_saveVia.
  split; [apply Hcalls|]. split; [apply Hcalls|]. split; [apply Hcalls|].
  intros Hdb. apply newCalls_remote. unfold createBooking. rewrite Hdb. cbn [negb].
  destruct (remote_set fb _ _) as [err|]; cbn [snd dispatchEvent remoteLog];
    rewrite ?markWriteDenied_remoteLog; done.
Qed.

Lemma write_denial_makes_saves_local_only_witness :
  saveBookings onlyFirstWritable [booking1 None None; booking2] (initial emptyStorage)
  = (Throw permissionDenied,
     snd (saveBookings onlyFirstWritable [booking1 None None; booking2]
                       (initial emptyStorage)))
  /\ isPermissionError permissionDenied = true
  /\ newCalls (snd (saveBookings onlyFirstWritable [booking1 None None; booking2]
                                 (initial emptyStorage)))
              (snd (saveUsers (browserAt 0) accepting [customer]
                              (snd (saveBookings onlyFirstWritable
                                                 [booking1 None None; booking2]
                                                 (initial emptyStorage)))))
     = [].
Proof.
  assert (H : saveBookings onlyFirstWritable [booking1 None None; booking2]
                           (initial emptyStorage)
              = (Throw permissionDenied,
                 snd (saveBookings onlyFirstWritable [booking1 None None; booking2]
                                   (initial emptyStorage)))).
  { rewrite (surjective_pairing (saveBookings _ _ _)) at 1. f_equal; by vm_compute. }
  split; [exact H|]. split; [done|].
  exact (proj2 (proj1 (write_denial_makes_saves_local_only
                         onlyFirstWritable [booking1 None None; booking2]
                         (initial emptyStorage) _ permissionDenied
                         (browserAt 0) accepting [customer] customer H eq_refl))).
Defined.

End GatewayWrites.

Section GatewayReads.
Import FirebaseDb.

Local Ltac calls :=
  unfold newCalls; cbn [fst snd remoteLog remote set_bookingsCache set_usersCache set_groomersCache
                        set_bookingsPermissionDenied set_usersPermissionDenied
                        set_groomersPermissionDenied set_localStorage dispatchEvent
                        invalidateBookings];
  rewrite <- ?app_assoc, ?drop_app_length, ?drop_all; cbn [In app].

Lemma getBookings_catch_returns (error : JsError) (s : State) :
  exists v, fst (getBookings_catch error s) = Normal v.
Proof.
  unfold getBookings_catch.
  destruct (arr_nonempty (bookingsCache _)); [by eexists|].
  destruct (parse_or _ _) as [[]|]; by eexists.
Qed.

(** X13 (getBookings): [getBookings] rejects in one situation only: the
    read latch is set and the persisted [bookings] entry does not parse
    (the [JSON.parse] of the latched path is not guarded).  On every other
    path (fresh cache, no database, snapshot, failed read) it resolves. *)
Theorem getBookings_rejects_iff (br : Browser) (fb : Firebase) (s : State) :
  rejects (getBookings br fb s)
  <-> bookingsPermissionDenied s = true /\ corrupt "bookings" s.
Proof.
  unfold rejects, corrupt, getBookings. destruct (bookingsPermissionDenied s) eqn:Hlatch.
  - cbn [fst]. destruct (getItem (localStorage s) "bookings") as [[msg|v]|]; cbn [parse_or].
    + split; [intros _; split; [done|by exists msg] | intros _; by eexists].
    + split; [by intros [e ?] | by intros [_ [msg ?]]].
    + split; [by intros [e ?] | by intros [_ [msg ?]]].
  - split; [|by intros [? _]]. intros [e He]. exfalso. revert He.
    destruct (arr_nonempty (bookingsCache s) && _); [done|].
    destruct (negb (db fb)).
    + destruct (parse_or _ _) as [v|error]; [done|].
      destruct (getBookings_catch_returns error s) as [v ->]. done.
    + unfold getBookings_found.
      destruct (remote_get fb "bookings") as [[|child children]|data|error]; [done|done|done|].
      destruct (getBookings_catch_returns error (remote [RGet "bookings"] s)) as [v ->]. done.
Qed.

(** An instance: a corrupt persisted copy is harmless until the latch is
    set; then every call rejects. *)
Example getBookings_corrupt_copy :
  fst (getBookings (browserAt 0) unreachable (initial corruptBookings)) = Normal (VArr [])
  /\ rejects (getBookings (browserAt 0) (readsRejected readDenied)
                          (snd (getBookings (browserAt 0) (readsRejected readDenied)
                                            (initial corruptBookings)))).
Proof. split; [by vm_compute|]. eexists. by vm_compute. Qed.

(** X14 (getUsers): [getUsers] rejects only over a persisted [users] entry
    that does not parse, and only where that entry is parsed unguarded:
    when the read latch is already set, or when this very call has its
    database read denied for permissions (which sets the latch).  In every
    other case it resolves. *)
Theorem getUsers_rejects_iff (br : Browser) (fb : Firebase) (s : State) :
  rejects (getUsers br fb s)
  <-> corrupt "users" s
      /\ (usersPermissionDenied s = true
          \/ (usersPermissionDenied s = false /\ usersFresh br s = false /\ implFails fb
              /\ db fb = true
              /\ exists e, remote_get fb "users" = Rejected e /\ isPermissionError e = true)).
Proof.
  assert (Hfall : forall s0, exists v, fst (getUsers_fallbacks fb s0) = Normal v).
  { intros s0. unfold getUsers_fallbacks.
    destruct (firestoreUsers fb) as [[docs|e]|]; [by eexists|by eexists|].
    destruct (getItem (localStorage s0) "users") as [[msg|[| | | |parsed|]]|]; by eexists. }
  assert (Hreal : forall s0,
             localStorage s0 = localStorage s ->
             (exists e, fst (getUsers_realtime br fb s0) = Throw e)
             <-> corrupt "users" s /\ db fb = true
                 /\ exists e, remote_get fb "users" = Rejected e /\ isPermissionError e = true).
  { intros s0 Hls. unfold getUsers_realtime, corrupt. destruct (db fb).
    - destruct (remote_get fb "users") as [[|child children]|data|e] eqn:Hget.
      + split; [by intros [e ?] | by intros (_ & _ & e & ? & _)].
      + split; [by intros [e ?] | by intros (_ & _ & e & ? & _)].
      + split; [by intros [e ?] | by intros (_ & _ & e & ? & _)].
      + destruct (isPermissionError e) eqn:Hperm.
        * cbn [localStorage set_usersPermissionDenied remote]. rewrite Hls.
          destruct (getItem (localStorage s) "users") as [[msg|v]|]; cbn [parse_or fst].
          -- split; [intros _ | intros _; by eexists].
             split; [by exists msg|]. split; [done|]. by exists e.
          -- split; [by intros [e' ?] | by intros ([msg ?] & _)].
          -- split; [by intros [e' ?] | by intros ([msg ?] & _)].
        * destruct (Hfall (remote [RGet "users"] s0)) as [v ->].
          split; [by intros [e' ?]|]. intros (_ & _ & e' & [= <-] & He'). congruence.
    - destruct (Hfall s0) as [v ->]. split; [by intros [e ?] | by intros (_ & ? & _)]. }
  unfold rejects, getUsers. fold (usersFresh br s).
  destruct (usersPermissionDenied s) eqn:Hlatch.
  - cbn [fst]. unfold corrupt.
    destruct (getItem (localStorage s) "users") as [[msg|v]|]; cbn [parse_or].
    + split; [intros _; split; [by exists msg|by left] | intros _; by eexists].
    + split; [by intros [e ?] | by intros ([msg ?] & _)].
    + split; [by intros [e ?] | by intros ([msg ?] & _)].
  - destruct (usersFresh br s) eqn:Hfresh.
    + cbn [fst]. split; [by intros [e ?]|]. intros (_ & [?|(_ & ? & _)]); done.
    + destruct (getUsersImpl fb) as [[users|e0]|] eqn:Himpl.
      * cbn [fst]. split; [by intros [e ?]|].
        intros (_ & [?|(_ & _ & Hi & _)]); [done|]. by destruct (Hi users).
      * rewrite (Hreal (remote [RImpl] s) eq_refl). split.
        -- intros (Hc & Hdb & He). split; [done|]. right. repeat split; try done.
           intros users. by rewrite Himpl.
        -- intros (Hc & [?|(_ & _ & _ & Hdb & He)]); [done|]. done.
      * rewrite (Hreal s eq_refl). split.
        -- intros (Hc & Hdb & He). split; [done|]. right. repeat split; try done.
           intros users. by rewrite Himpl.
        -- intros (Hc & [?|(_ & _ & _ & Hdb & He)]); [done|]. done.
Qed.

(** X15 (createBooking): [createBooking] dispatches [booking:created] with
    the booking exactly once on every path, also when the write was
    rejected or there is no database; and it leaves the bookings cache
    and [localStorage] alone, so a [getBookings] that finds the cache fresh
    answers the list cached before the creation, without asking the
    database. *)
Theorem createBooking_notifies_and_keeps_cache
        (br : Browser) (fb fb' : Firebase) (booking : jsobj) (s : State) :
  let s' := snd (createBooking fb booking s) in
  dispatched s' = dispatched s ++ [("booking:created", booking)]
  /\ bookingsCache s' = bookingsCache s
  /\ bookingsCacheTime s' = bookingsCacheTime s
  /\ localStorage s' = localStorage s
  /\ (bookingsPermissionDenied s = false -> bookingsFresh br s = true ->
      getBookings br fb' s' = (Normal (bookingsCache s), s')).
Proof.
  cbv zeta.
  assert (H : dispatched (snd (createBooking fb booking s))
              = dispatched s ++ [("booking:created", booking)]
              /\ bookingsCache (snd (createBooking fb booking s)) = bookingsCache s
              /\ bookingsCacheTime (snd (createBooking fb booking s)) = bookingsCacheTime s
              /\ localStorage (snd (createBooking fb booking s)) = localStorage s
              /\ bookingsPermissionDenied (snd (createBooking fb booking s))
                 = bookingsPermissionDenied s).
  { unfold createBooking. destruct (negb (db fb)); [done|].
    destruct (remote_set fb _ _) as [err|]; [|done].
    unfold markWriteDenied. by destruct (isPermissionError err). }
  destruct H as (Hd & Hc & Ht & Hls & Hp).
  repeat (split; [done|]).
  intros Hlatch Hfresh. unfold getBookings. rewrite Hp, Hlatch, Hc, Ht.
  unfold bookingsFresh in Hfresh. by rewrite Hfresh.
Qed.

(** An instance: the creation is rejected, and the page is still told
    [booking:created]. *)
Example createBooking_rejected_still_notifies :
  let r := createBooking unreachable booking2 (initial emptyStorage) in
  fst r = Throw networkError
  /\ dispatched (snd r) = [("booking:created", booking2)].
Proof. by vm_compute. Qed.

(** X16 (saveBookings, getBookings): like [updateBooking], a [saveBookings]
    that succeeds leaves the bookings cache absent ([null], time 0); the
    next [getBookings] never answers from memory: with the read latch unset
    and a database it asks the database, and answers its list when that
    read succeeds. *)
Theorem saveBookings_invalidates_cache
        (br : Browser) (fb fb' : Firebase) (bookings : list jsobj) (s s' : State) :
  saveBookings fb bookings s = (Normal tt, s') ->
  bookingsCache s' = VNull
  /\ bookingsCacheTime s' = 0%Z
  /\ bookingsFresh br s' = false
  /\ (bookingsPermissionDenied s' = false -> db fb' = true ->
      readsRemote "bookings" s' (snd (getBookings br fb' s'))
      /\ forall children, remote_get fb' "bookings" = Snapshot children ->
                          fst (getBookings br fb' s')
                          = Normal (VArr (children_to_array children))).
Proof.
  intros Hsave.
  assert (H : bookingsCache s' = VNull /\ bookingsCacheTime s' = 0%Z).
  { revert Hsave. unfold saveBookings. destruct (negb (db fb)); [discriminate|].
    destruct (omap _ _).
    - by intros [= <-].
    - destruct (remote_set fb "bookings" _); [discriminate|]. by intros [= <-]. }
  destruct H as [Hc Ht]. split; [done|]. split; [done|].
  assert (Hfresh : bookingsFresh br s' = false) by (unfold bookingsFresh; by rewrite Hc).
  split; [done|]. intros Hlatch Hdb. split.
  - by apply getBookings_reads_iff.
  - intros children Hget. pose proof (getBookings_remote br fb' s' Hlatch Hfresh Hdb) as H.
    by rewrite Hget in H.
Qed.

Lemma saveBookings_invalidates_cache_witness :
  saveBookings accepting [booking2]
               (snd (getBookings (browserAt 1000) (holding [("b1", booking1 None None)])
                                 (initial emptyStorage)))
  = (Normal tt,
     snd (saveBookings accepting [booking2]
                       (snd (getBookings (browserAt 1000)
                                         (holding [("b1", booking1 None None)])
                                         (initial emptyStorage)))))
  /\ bookingsFresh (browserAt 1001)
                   (snd (saveBookings accepting [booking2]
                           (snd (getBookings (browserAt 1000)
                                             (holding [("b1", booking1 None None)])
                                             (initial emptyStorage)))))
     = false.
Proof.
  assert (H : saveBookings accepting [booking2]
                (snd (getBookings (browserAt 1000) (holding [("b1", booking1 None None)])
                                  (initial emptyStorage)))
              = (Normal tt,
                 snd (saveBookings accepting [booking2]
                        (snd (getBookings (browserAt 1000)
                                          (holding [("b1", booking1 None None)])
                                          (initial emptyStorage)))))).
  { rewrite (surjective_pairing (saveBookings _ _ _)) at 1. f_equal; by vm_compute. }
  split; [exact H|].
  exact (proj1 (proj2 (proj2 (saveBookings_invalidates_cache
                                (browserAt 1001) accepting accepting [booking2] _ _ H)))).
Defined.

(** X17 (setupBookingsListener, updateBookingsCache, getBookings): a
    snapshot delivered to the real-time listener becomes the cached list,
    stamped with the current time; the persisted copy is then that list or
    is absent, never an older list; and while the pushed list is non-empty
    and younger than 30 s, [getBookings] answers it without asking the
    database (unless the read latch is set). *)
Theorem listener_push_feeds_getBookings
        (br br' : Browser) (fb : Firebase) (snapshot : list (string * jsobj)) (s : State) :
  let pushed := children_to_array snapshot in
  let s' := snd (onBookingsValue br snapshot s) in
  fst (onBookingsValue br snapshot s) = pushed
  /\ bookingsCache s' = VArr pushed
  /\ bookingsCacheTime s' = now br
  /\ (getItem (localStorage s') "bookings" = Some (Json (VArr pushed))
      \/ getItem (localStorage s') "bookings" = None)
  /\ newCalls s s' = []
  /\ (bookingsPermissionDenied s = false -> snapshot <> [] ->
      (now br' - now br < BOOKINGS_CACHE_DURATION)%Z ->
      getBookings br' fb s' = (Normal (VArr pushed), s')).
Proof.
  cbv zeta.
  assert (Hsame : onBookingsValue br snapshot s
                  = (children_to_array snapshot,
                     updateBookingsCache br (children_to_array snapshot) s)).
  { by destruct snapshot. }
  rewrite Hsame. cbn [fst snd]. unfold updateBookingsCache, setItem.
  cbn [localStorage set_bookingsCache].
  set (pushed := children_to_array snapshot).
  assert (Hne : snapshot <> [] -> arr_nonempty (VArr pushed) = true).
  { unfold pushed. by destruct snapshot. }
  assert (Hserved : forall ls,
             bookingsPermissionDenied s = false -> snapshot <> [] ->
             (now br' - now br < BOOKINGS_CACHE_DURATION)%Z ->
             getBookings br' fb (set_localStorage ls (set_bookingsCache (VArr pushed) (now br) s))
             = (Normal (VArr pushed),
                set_localStorage ls (set_bookingsCache (VArr pushed) (now br) s))).
  { intros ls Hlatch Hsnap Hage. unfold getBookings.
    cbn [bookingsPermissionDenied bookingsCache bookingsCacheTime set_localStorage
         set_bookingsCache].
    rewrite Hlatch, (Hne Hsnap). cbn [andb]. by rewrite (proj2 (Z.ltb_lt _ _) Hage). }
  destruct (setItemError br (items (localStorage s)) "bookings" (Json (VArr pushed))) as [e|];
    cbn [fst snd]; unfold removeItem, getItem;
    cbn [set_localStorage set_bookingsCache bookingsCache bookingsCacheTime localStorage items].
  - rewrite lookup_delete_eq. repeat (split; [done|]).
    split; [by right|]. split; [by calls|]. apply Hserved.
  - rewrite lookup_insert_eq. repeat (split; [done|]).
    split; [by left|]. split; [by calls|]. apply Hserved.
Qed.

Lemma listener_push_feeds_getBookings_witness :
  bookingsPermissionDenied (initial emptyStorage) = false
  /\ [("b2", booking2)] <> []
  /\ fst (getBookings (browserAt 20000) unreachable
                      (snd (onBookingsValue (browserAt 1000) [("b2", booking2)]
                                            (initial emptyStorage))))
     = Normal (VArr [Some booking2]).
Proof.
  split; [done|]. split; [done|].
  pose proof (proj2 (proj2 (proj2 (proj2 (proj2
                (listener_push_feeds_getBookings
                   (browserAt 1000) (browserAt 20000) unreachable [("b2", booking2)]
                   (initial emptyStorage))))))) as H.
  cbv zeta in H. rewrite H; [done|done|done|].
  vm_compute. reflexivity.
Defined.

(** X18 (getUsers): a list of users read from the Realtime Database is
    returned but not cached ([usersCache] is only filled from
    [window.getUsersImpl] or after a permission denial): the state is left
    as it was but for the record of the call, so the next call asks the
    database again, however soon it comes. *)
Theorem getUsers_database_read_is_not_cached
        (br br' : Browser) (fb : Firebase) (children : list (string * jsobj)) (s : State) :
  usersPermissionDenied s = false -> usersFresh br s = false -> usersFresh br' s = false ->
  getUsersImpl fb = None -> db fb = true ->
  remote_get fb "users" = Snapshot children ->
  let r := getUsers br fb s in
  fst r = Normal (VArr (children_to_array children))
  /\ snd r = remote [RGet "users"] s
  /\ getUsers br' fb (snd r)
     = (Normal (VArr (children_to_array children)), remote [RGet "users"] (snd r)).
Proof.
  intros Hlatch Hfresh Hfresh' Himpl Hdb Hget.
  assert (Hcall : forall b s0,
             usersPermissionDenied s0 = false -> usersFresh b s0 = false ->
             getUsers b fb s0
             = (Normal (VArr (children_to_array children)), remote [RGet "users"] s0)).
  { intros b s0 Hl Hf. unfold getUsers. fold (usersFresh b s0). rewrite Hl, Hf, Himpl.
    unfold getUsers_realtime. rewrite Hdb, Hget. by destruct children. }
  cbv zeta. rewrite (Hcall br s Hlatch Hfresh). cbn [fst snd].
  split; [done|]. split; [done|]. by apply Hcall.
Qed.

Lemma getUsers_database_read_is_not_cached_witness :
  usersFresh (browserAt 7) (initial emptyStorage) = false
  /\ fst (getUsers (browserAt 8) (holding [("u1", customer)])
                   (snd (getUsers (browserAt 7) (holding [("u1", customer)])
                                  (initial emptyStorage))))
     = Normal (VArr (children_to_array [("u1", customer)])).
Proof.
  split; [done|].
  destruct (getUsers_database_read_is_not_cached
              (browserAt 7) (browserAt 8) (holding [("u1", customer)]) [("u1", customer)]
              (initial emptyStorage) eq_refl eq_refl eq_refl eq_refl eq_refl eq_refl)
    as (_ & _ & H).
  cbv zeta in H. by rewrite H.
Defined.

End GatewayReads.

Section UpliftRequests.
Import FirebaseDb.

Lemma findIndexById_objects (idv : string) (l : list jsobj) :
  findIndexById idv (objects l) = Normal (list_find (fun r => id r = Some idv) l).
Proof.
  induction l as [|r l IH]; [done|].
  cbn [objects map findIndexById list_find]. unfold strict_eq.
  destruct (decide (id r = Some idv)) as [Heq|Hne].
  - by rewrite bool_decide_eq_true_2.
  - rewrite bool_decide_eq_false_2 by done. fold (objects l). rewrite IH.
    by destruct (list_find _ l) as [[idx found]|].
Qed.

Lemma objects_insert (l : list jsobj) (idx : nat) (o : jsobj) :
  objects (<[idx := o]> l) = <[idx := Some o]> (objects l).
Proof.
  revert idx. induction l as [|x l IH]; intros idx; [done|].
  destruct idx as [|idx]; [done|]. cbn. f_equal. apply IH.
Qed.

Lemma assigned_None {A : Type} (p : property) (o : jsobj) (value : option A) :
  assigned (plain o) p None value = value.
Proof. unfold assigned. cbn. by destruct value. Qed.

Lemma Object_assign_empty (updates : jsobj) : Object_assign emptyObj (plain updates) = updates.
Proof.
  unfold Object_assign, emptyObj. cbn [id userId name petName date time status action level
    sessionId createdAt timestamp startedAt maxDailyBookings serverGenerated isActive
    totalPrice cost].
  rewrite !assigned_None. by destruct updates.
Qed.

(** X27 (updateUpliftRequest): without a database the update merges the
    given fields into the first stored request with that id, leaves every
    other request and the length of the list as they were, and returns the
    merged request; for an id that no stored request has, it returns [null]
    and writes nothing.  With a database the same unknown id is not an
    error either: the record is created, holding the updates alone (the
    very object given, when each of its properties carries a value). *)
Theorem updateUpliftRequest_merges_first_match
        (br : Browser) (fb : Firebase) (current : fetchRecord) (idv : string)
        (updates : literal) (existing : list jsobj) (s : State) :
  (db fb = false ->
   getItem (localStorage s) "upliftRequests" = Some (Json (VArr (objects existing))) ->
   match list_find (fun r => id r = Some idv) existing with
   | None => updateUpliftRequest br fb current idv updates s = (Normal None, s)
   | Some (idx, r) =>
       let merged := Object_assign r updates in
       let text := Json (VArr (objects (<[idx := merged]> existing))) in
       existing !! idx = Some r
       /\ length (<[idx := merged]> existing) = length existing
       /\ (forall j, j <> idx -> <[idx := merged]> existing !! j = existing !! j)
       /\ (setItemError br (items (localStorage s)) "upliftRequests" text = None ->
           fst (updateUpliftRequest br fb current idv updates s) = Normal (Some merged)
           /\ getItem (localStorage (snd (updateUpliftRequest br fb current idv updates s)))
                      "upliftRequests" = Some text)
   end)
  /\ (db fb = true -> current = Found None ->
      let created := Object_assign emptyObj updates in
      remote_set fb (upliftPath idv) (PObj created) = None ->
      updateUpliftRequest br fb current idv updates s
      = (Normal (Some created),
         remote [RGet (upliftPath idv); RSet (upliftPath idv) (PObj created)] s))
  /\ (forall o, updates = plain o -> Object_assign emptyObj updates = o).
Proof.
  split.
  - intros Hdb Hstored. unfold updateUpliftRequest. rewrite Hdb, Hstored. cbn [negb parse_or].
    rewrite findIndexById_objects.
    destruct (list_find (fun r => id r = Some idv) existing) as [[idx r]|] eqn:Hfind; [|done].
    apply list_find_Some in Hfind as (Hidx & _ & _). cbv zeta.
    split; [done|]. split; [apply length_insert|].
    split; [intros j Hj; by apply list_lookup_insert_ne|].
    intros Hset. unfold setItem. rewrite <- objects_insert, Hset. cbn [fst snd].
    split; [done|].
    unfold getItem. cbn [localStorage set_localStorage items]. by rewrite lookup_insert_eq.
  - split.
    + intros Hdb -> created Hset. unfold updateUpliftRequest. rewrite Hdb. cbn [negb from_option].
      fold created. rewrite Hset. unfold remote. cbn. by rewrite <- app_assoc.
    + intros o ->. apply Object_assign_empty.
Qed.

(** An instance: the second request is updated in place. *)
Example updateUpliftRequest_in_place :
  let s := set_localStorage
             (mkStorage {[ "upliftRequests" :=
                             Json (VArr [Some (bookingWithStatus "r1" "pending");
                                         Some (bookingWithStatus "r2" "pending")]) ]} [])
             (initial emptyStorage) in
  let approve := plain (mkObj None None None None None None (Some "approved") None None None
                              None None None None None None None None) in
  let r := updateUpliftRequest (browserAt 0)
                               (mkFirebase false (fun _ => Snapshot []) (fun _ _ => None)
                                           None None)
                               (Found None) "r2" approve s in
  fst r = Normal (Some (bookingWithStatus "r2" "approved"))
  /\ getItem (localStorage (snd r)) "upliftRequests"
     = Some (Json (VArr [Some (bookingWithStatus "r1" "pending");
                         Some (bookingWithStatus "r2" "approved")])).
Proof. by vm_compute. Qed.

End UpliftRequests.

Section Collections.
Import FirebaseDb.

Lemma getCollection_spec (key : string) (fb : Firebase) (s : State) :
  let r := getCollection key fb s in
  let fallsBack := db fb = false \/ exists e, remote_get fb key = Rejected e in
  (rejects r <-> corrupt key s /\ fallsBack)
  /\ localStorage (snd r) = localStorage s
  /\ newCalls s (snd r) = (if db fb then [RGet key] else [])
  /\ (db fb = true -> forall children,
        remote_get fb key = Snapshot children ->
        fst r = Normal (VArr (children_to_array children)))
  /\ (db fb = true -> forall data,
        remote_get fb key = Leaf data -> fst r = Normal (VArr (leaf_to_array data)))
  /\ (fallsBack ->
      (forall v, getItem (localStorage s) key = Some (Json v) -> fst r = Normal v)
      /\ (getItem (localStorage s) key = None -> fst r = Normal (VArr []))).
Proof.
  cbv zeta. unfold rejects, corrupt, getCollection, newCalls. destruct (db fb); cbn [negb].
  - destruct (remote_get fb key) as [[|child children]|data|e] eqn:Hget;
      cbn [fst snd remote localStorage remoteLog]; rewrite drop_app_length.
    + split; [split; [by intros [e ?]|intros (_ & [?|[e ?]]); done]|].
      split; [done|]. split; [done|]. split; [by intros _ children [= <-]|].
      split; [by intros _ data ?|]. by intros [?|[e ?]].
    + split; [split; [by intros [e ?]|intros (_ & [?|[e ?]]); done]|].
      split; [done|]. split; [done|]. split; [by intros _ c [= <-]|].
      split; [by intros _ data ?|]. by intros [?|[e ?]].
    + split; [split; [by intros [e ?]|intros (_ & [?|[e ?]]); done]|].
      split; [done|]. split; [done|]. split; [by intros _ c ?|].
      split; [by intros _ d [= <-]|]. by intros [?|[e ?]].
    + split.
      { destruct (getItem (localStorage s) key) as [[msg|v]|]; cbn [parse_or].
        * split; [intros _|intros _; by eexists]. split; [by exists msg|]. right. by exists e.
        * split; [by intros [e' ?]|by intros ([msg ?] & _)].
        * split; [by intros [e' ?]|by intros ([msg ?] & _)]. }
      split; [done|]. split; [done|]. split; [by intros _ c ?|].
      split; [by intros _ d ?|]. intros _.
      split; [intros v Hv; by rewrite Hv | intros Hv; by rewrite Hv].
  - destruct (parse_or (VArr []) (getItem (localStorage s) key)) as [v|err] eqn:Hp;
      cbn [fst snd].
    + split.
      { split; [by intros [e ?]|]. intros ([msg Hmsg] & _). by rewrite Hmsg in Hp. }
      split; [done|]. split; [by rewrite drop_all|]. split; [done|]. split; [done|].
      intros _. split.
      * intros w Hw. rewrite Hw in Hp. cbn in Hp. congruence.
      * intros Hn. rewrite Hn in Hp. cbn in Hp. congruence.
    + split.
      { split; [intros _|intros _; by eexists]. split; [|by left].
        destruct (getItem (localStorage s) key) as [[msg|w]|]; try discriminate. by exists msg. }
      split; [done|]. split; [by rewrite drop_all|]. split; [done|]. split; [done|].
      intros _. split.
      * intros w Hw. rewrite Hw in Hp. discriminate.
      * intros Hn. rewrite Hn in Hp. discriminate.
Qed.

(** X29 (getPackages, getUpliftRequests): each of the two reads makes at
    most the one database read of its own path and never writes to
    [localStorage].  From a snapshot it answers the children, each with its
    key as id (a node holding a number or a boolean gives the empty list).
    When there is no database or the read is rejected it falls back to the
    persisted copy: it answers the value stored under its key, [[]] when
    nothing is stored, and it rejects exactly when that copy is then found
    not to parse. *)
Theorem collection_reads_reject_iff
        (fb : Firebase) (s : State) (read : Firebase -> State -> completion jsval * State)
        (key : string) :
  In (read, key) [(getPackages, "packages"); (getUpliftRequests, "upliftRequests")] ->
  let r := read fb s in
  let fallsBack := db fb = false \/ exists e, remote_get fb key = Rejected e in
  (rejects r <-> corrupt key s /\ fallsBack)
  /\ localStorage (snd r) = localStorage s
  /\ newCalls s (snd r) = (if db fb then [RGet key] else [])
  /\ (db fb = true -> forall children,
        remote_get fb key = Snapshot children ->
        fst r = Normal (VArr (map (fun kv => Some (with_id (fst kv) (snd kv))) children)))
  /\ (db fb = true -> forall data,
        remote_get fb key = Leaf data ->
        (forall str, data <> PStr str) -> fst r = Normal (VArr []))
  /\ (fallsBack ->
      (forall v, getItem (localStorage s) key = Some (Json v) -> fst r = Normal v)
      /\ (getItem (localStorage s) key = None -> fst r = Normal (VArr []))).
Proof.
  intros Hin.
  assert (Hread : read fb s = getCollection key fb s).
  { destruct Hin as [[= <- <-]|[[= <- <-]|[]]]; reflexivity. }
  cbv zeta. rewrite Hread.
  destruct (getCollection_spec key fb s) as (H1 & H2 & H3 & H4 & H5 & H6).
  split; [done|]. split; [done|]. split; [done|]. split; [done|]. split; [|done].
  intros Hdb data Hget Hprim. rewrite (H5 Hdb data Hget).
  destruct data as [b|z|str]; [done|done|]. by destruct (Hprim str).
Qed.

Lemma collection_reads_reject_iff_witness :
  fst (getPackages (mkFirebase false (fun _ => Snapshot []) (fun _ _ => None) None None)
                   (set_localStorage
                      (mkStorage {[ "packages" := Json (VDict ∅) ]} [])
                      (initial emptyStorage)))
  = Normal (VDict ∅).
Proof.
  destruct (collection_reads_reject_iff
              (mkFirebase false (fun _ => Snapshot []) (fun _ _ => None) None None)
              (set_localStorage (mkStorage {[ "packages" := Json (VDict ∅) ]} [])
                                (initial emptyStorage))
              getPackages "packages" (or_introl eq_refl))
    as (_ & _ & _ & _ & _ & Hfall).
  apply Hfall; [by left | by vm_compute].
Defined.

End Collections.

(** ** The security logger: levels, sessions, statistics *)

Section SecurityLogger.
Import BookingSecurityLogger.

Lemma determineLevel_info (actionName : string) :
  determineLevel actionName = INFO <-> critical actionName = false.
Proof.
  unfold determineLevel, critical, keywords. cbn [existsb].
  destruct (str_includes actionName "blocked"), (str_includes actionName "duplicate"),
    (str_includes actionName "error"), (str_includes actionName "failed"),
    (str_includes actionName "abuse"), (str_includes actionName "suspicious");
    cbn; split; (done || discriminate).
Qed.

Lemma determineLevel_critical (actionName : string) :
  critical actionName = true ->
  In (determineLevel actionName) ["warning"; "error"; "security"].
Proof.
  unfold determineLevel, critical, keywords, WARNING, ERROR, SECURITY. cbn [existsb].
  destruct (str_includes actionName "blocked"), (str_includes actionName "duplicate"),
    (str_includes actionName "error"), (str_includes actionName "failed"),
    (str_includes actionName "abuse"), (str_includes actionName "suspicious");
    cbn; intros H; try discriminate; auto.
Qed.

Lemma getSessionId_logger (br : Browser) (env : SessionEnv) (p : Page) :
  logger (snd (getSessionId br env p)) = logger p
  /\ _productionMode (snd (getSessionId br env p)) = _productionMode p.
Proof.
  unfold getSessionId. destruct (nonempty (_sessionId p)); [done|].
  destruct (nonempty (sessionStorage p !! "bookingSessionId")); [done|].
  by destruct (sessionSetItemError env).
Qed.

Lemma saveLog_stores (br : Browser) (logEntry : jsobj) (s : Logger) (l : list (option jsobj)) :
  fst (fst (getLogs br s)) = VArr l ->
  setItemError br (items (storage s)) STORAGE_KEY (Json (VArr (trim (l ++ [Some logEntry]))))
  = None ->
  getItem (storage (saveLog br logEntry s)) STORAGE_KEY
  = Some (Json (VArr (trim (l ++ [Some logEntry]))))
  /\ _cache (saveLog br logEntry s) = VArr (trim (l ++ [Some logEntry])).
Proof.
  unfold saveLog. pose proof (getLogs_storage br s) as Hst.
  destruct (getLogs br s) as [[v aliased] s1]. cbn [fst snd] in *. intros -> Hset.
  unfold setItem.
  assert (Hls : storage (if aliased
                         then mkLogger (VArr (trim (l ++ [Some logEntry]))) (_cacheTime s1)
                                       (storage s1)
                         else s1) = storage s) by by destruct aliased.
  rewrite Hls, Hset. unfold getItem. cbn [storage items _cache]. by rewrite lookup_insert_eq.
Qed.

(** X19 (log, determineLevel): in production mode an action that contains
    none of the six words [blocked], [duplicate], [error], [failed],
    [abuse], [suspicious] is dropped: [log] returns [null] and changes
    nothing.  Any other call builds an entry, hands it to [saveLog] and
    returns it; when the stored log is an array and the store accepts the
    write, the returned entry is the last one of the persisted log.  The
    [userId] of the entry is that of [details] when it is a non-empty
    string, and [anonymous] when [details] has none; for an action with
    one of the six words [details] is copied over the entry, so that an
    own [userId] of [details] that is empty, [undefined] or [null] is what
    the entry ends up with: such an entry has no [userId]. *)
Theorem log_skips_info_in_production
        (br : Browser) (env : SessionEnv) (actionName : string) (details : literal) (p : Page) :
  let r := log br env actionName details p in
  (critical actionName = false -> _productionMode p = true -> r = (Normal None, p))
  /\ (critical actionName = true \/ _productionMode p = false ->
      forall sid p1, getSessionId br env p = (Normal sid, p1) ->
      exists logEntry,
        fst r = Normal (Some logEntry)
        /\ logger (snd r) = saveLog br logEntry (logger p)
        /\ (P_userId ∉ voided details ->
            (forall u, userId (given details) = Some u -> u <> EmptyString ->
                       userId logEntry = Some u)
            /\ (userId (given details) = None -> userId logEntry = Some "anonymous")
            /\ (userId (given details) = Some EmptyString ->
                userId logEntry
                = Some (if critical actionName then EmptyString else "anonymous")))
        /\ (P_userId ∈ voided details ->
            userId logEntry = if critical actionName then None else Some "anonymous")
        /\ (critical actionName = false ->
            logEntry = mkObj None (userId logEntry) None None None None None
                             (Some actionName) (Some "info") (Some sid) None (Some (now br))
                             None None None None None None)
        /\ (critical actionName = true -> details = plain emptyObj ->
            exists levelName,
              In levelName ["warning"; "error"; "security"]
              /\ logEntry = mkObj None (Some "anonymous") None None None None None
                                  (Some actionName) (Some levelName) (Some sid) None
                                  (Some (now br)) None None None None None None)
        /\ forall l,
            fst (fst (getLogs br (logger p))) = VArr l ->
            setItemError br (items (storage (logger p))) STORAGE_KEY
                         (Json (VArr (trim (l ++ [Some logEntry])))) = None ->
            exists kept,
              getItem (storage (logger (snd r))) STORAGE_KEY = Some (Json (VArr kept))
              /\ last kept = Some (Some logEntry)).
Proof.
  cbv zeta. unfold log. split.
  - intros Hinfo Hprod. apply determineLevel_info in Hinfo. by rewrite Hprod, Hinfo.
  - intros Hrecord sid p1 Hsid.
    assert (Hgo : _productionMode p && String.eqb (determineLevel actionName) INFO = false).
    { destruct Hrecord as [Hc|Hd]; [|by rewrite Hd].
      apply andb_false_iff. right. apply String.eqb_neq. intros Hinfo.
      apply determineLevel_info in Hinfo. congruence. }
    rewrite Hgo, Hsid. destruct (getSessionId_logger br env p) as [Hlogger _].
    rewrite Hsid in Hlogger. cbn [snd] in Hlogger.
    assert (Hlevel : (determineLevel actionName =? INFO)%string = negb (critical actionName)).
    { destruct (critical actionName) eqn:Hc; cbn.
      - apply String.eqb_neq. intros Hinfo. apply determineLevel_info in Hinfo. congruence.
      - apply String.eqb_eq. by apply determineLevel_info. }
    eexists. split; [reflexivity|]. cbn [snd logger]. rewrite Hlogger.
    split; [reflexivity|]. rewrite Hlevel, negb_involutive.
    split.
    { intros Hown. split; [|split].
      - intros u Hu Hne. apply String.eqb_neq in Hne.
        destruct (critical actionName); cbn;
          unfold assigned, read_property; rewrite bool_decide_eq_false_2 by done;
          rewrite Hu; cbn; by rewrite ?Hne.
      - intros Hu. destruct (critical actionName); cbn;
          unfold assigned, read_property; rewrite bool_decide_eq_false_2 by done;
          by rewrite Hu.
      - intros Hu. destruct (critical actionName); cbn;
          unfold assigned, read_property; rewrite bool_decide_eq_false_2 by done;
          by rewrite Hu. }
    split.
    { intros Hown. destruct (critical actionName); cbn;
        unfold assigned, read_property; by rewrite bool_decide_eq_true_2. }
    split.
    { intros Hinfo. rewrite Hinfo. cbn. apply determineLevel_info in Hinfo.
      by rewrite Hinfo. }
    split.
    { intros Hc ->. rewrite Hc. exists (determineLevel actionName).
      split; [by apply determineLevel_critical | reflexivity]. }
    intros l Hl Hset. eexists. split; [apply (saveLog_stores _ _ _ l Hl Hset)|].
    apply trim_last.
Qed.

Lemma log_skips_info_in_production_witness :
  critical "submission_started" = false
  /\ _productionMode (pageWith []) = true
  /\ log (browserAt 5) quietEnv "submission_started" (plain emptyObj) (pageWith [])
     = (Normal None, pageWith []).
Proof.
  split; [done|]. split; [done|].
  exact (proj1 (log_skips_info_in_production (browserAt 5) quietEnv "submission_started"
                                             (plain emptyObj) (pageWith []))
               eq_refl eq_refl).
Defined.

(** An instance: a blocked submission is recorded, stamped and labelled. *)
Example log_records_a_blocked_submission :
  let r := log (browserAt 5) quietEnv "submission_blocked" (plain emptyObj) (pageWith []) in
  fst r = Normal (Some (mkObj None (Some "anonymous") None None None None None
                              (Some "submission_blocked") (Some "warning")
                              (Some "session-5-k3j9x2m1q") None (Some 5%Z) None None None
                              None None None))
  /\ sessionStorage (snd r) !! "bookingSessionId" = Some "session-5-k3j9x2m1q".
Proof. by vm_compute. Qed.

(** An instance: the caller passes [{ userId: undefined }] with a blocked
    submission; the entry that is stored has no [userId]. *)
Example log_copies_an_undefined_userId :
  let r := log (browserAt 5) quietEnv "submission_blocked" (mkLiteral emptyObj [P_userId])
               (pageWith []) in
  exists logEntry, fst r = Normal (Some logEntry) /\ userId logEntry = None.
Proof. eexists. by vm_compute. Qed.

Lemma nonempty_Some (o : option string) (sid : string) :
  nonempty o = Some sid -> o = Some sid /\ sid <> EmptyString.
Proof.
  destruct o as [x|]; [|done]. cbn. destruct (String.eqb x EmptyString) eqn:Hx; [done|].
  intros [= ->]. split; [done|]. by apply String.eqb_neq.
Qed.

Lemma nonempty_session (t r : string) :
  nonempty (Some ("session-" ++ t ++ "-" ++ r)%string) = Some ("session-" ++ t ++ "-" ++ r)%string.
Proof. done. Qed.

(** X20 (getSessionId): the session id is fixed by the first call: once
    [getSessionId] has run, whether it returned or failed on
    [sessionStorage.setItem], the object holds a non-empty id, and every
    later call returns that same id and changes nothing, whatever the
    clock, the random source and [sessionStorage] do by then. *)
Theorem getSessionId_is_stable
        (br br' : Browser) (env env' : SessionEnv) (p : Page) :
  let r := getSessionId br env p in
  exists sid,
    _sessionId (snd r) = Some sid
    /\ sid <> EmptyString
    /\ (forall v, fst r = Normal v -> v = sid)
    /\ forall store,
        getSessionId br' env'
                     (mkPage (logger (snd r)) (_sessionId (snd r)) (_productionMode (snd r))
                             store)
        = (Normal sid,
           mkPage (logger (snd r)) (_sessionId (snd r)) (_productionMode (snd r)) store).
Proof.
  cbv zeta.
  assert (Hcase : exists sid,
             _sessionId (snd (getSessionId br env p)) = Some sid
             /\ nonempty (Some sid) = Some sid
             /\ (forall v, fst (getSessionId br env p) = Normal v -> v = sid)).
  { unfold getSessionId.
    destruct (nonempty (_sessionId p)) as [sid|] eqn:Hmem.
    - apply nonempty_Some in Hmem as [Hmem Hne]. exists sid. cbn [fst snd].
      split; [done|]. split; [|by intros v [= <-]].
      cbn. by rewrite (proj2 (String.eqb_neq _ _) Hne).
    - destruct (nonempty (sessionStorage p !! "bookingSessionId")) as [sid|] eqn:Hst.
      + pose proof Hst as Hst'. apply nonempty_Some in Hst' as [Hfound Hne].
        exists sid. cbn [fst snd set_sessionId _sessionId].
        split; [done|]. split; [|by intros v [= <-]].
        cbn. by rewrite (proj2 (String.eqb_neq _ _) Hne).
      + eexists. destruct (sessionSetItemError env); cbn [fst snd set_sessionId _sessionId];
          (split; [reflexivity|]); (split; [apply nonempty_session|]); by intros v [= <-]. }
  destruct Hcase as (sid & Hmem & Hne & Hret). exists sid.
  split; [done|]. split; [by apply nonempty_Some in Hne as [_ ?]|]. split; [done|].
  intros store. set (r := getSessionId br env p) in *. clearbody r.
  unfold getSessionId. cbn [_sessionId]. by rewrite Hmem, Hne.
Qed.

Lemma all_objects_None (l : list (option jsobj)) : all_objects l = None <-> In None l.
Proof.
  induction l as [|[o|] l IH]; cbn [all_objects In].
  - split; [discriminate|tauto].
  - destruct (all_objects l) as [objs|]; cbn.
    + split; [discriminate|]. intros [?|H]; [discriminate|]. by apply IH in H.
    + split; [|done]. intros _. right. by apply IH.
  - split; [by left|done].
Qed.

Lemma actions_None (entries : list jsobj) :
  actions entries = None <-> exists entry, In entry entries /\ action entry = None.
Proof.
  unfold actions. induction entries as [|e entries IH]; cbn [mapM In].
  - split; [discriminate|]. by intros (entry & [] & _).
  - destruct (action e) as [a|] eqn:Ha; cbn.
    + destruct (mapM action entries) as [names|]; cbn.
      * split; [discriminate|]. intros (entry & [<-|Hin] & Hnone); [congruence|].
        assert (H : Some names = None) by (apply IH; by exists entry). discriminate.
      * split; [|done]. intros _. destruct (proj1 IH eq_refl) as (entry & Hin & Hnone).
        exists entry. split; [by right|done].
    + split; [|done]. intros _. exists e. split; [by left|done].
Qed.

(** X21 (getStats): [getStats] throws exactly when the value it gets from
    [getLogs] is not an array, or has a [null] member, or holds inside the
    time window an entry without an [action]; an entry without an [action]
    that is older than the window does no harm. *)
Theorem getStats_throws_iff (br : Browser) (timeWindow : Z) (s : Logger) :
  (exists e, fst (getStats br timeWindow s) = Throw e)
  <-> unreadableLog (now br - timeWindow) (fst (fst (getLogs br s))).
Proof.
  unfold getStats, unreadableLog.
  destruct (getLogs br s) as [[v aliased] s1]. cbn [fst].
  destruct v as [|b|z|str|logs|d]; cbn [fst];
    try (split; [done|intros _; by eexists]).
  unfold filter_members. destruct (all_objects logs) as [objs|] eqn:Hobjs; cbn [fst].
  - pose proof (all_objects_Some logs objs Hobjs) as Hlogs.
    destruct (actions (List.filter (isRecent (now br - timeWindow)%Z) objs)) as [names|]
      eqn:Hnames; cbn [fst].
    + split; [by intros [e ?]|]. intros [Hnull|(entry & Hin & Hrecent & Hnone)].
      * apply all_objects_None in Hnull. congruence.
      * assert (Hfail : actions (List.filter (isRecent (now br - timeWindow)%Z) objs) = None).
        { apply actions_None. exists entry. split; [|done].
          apply filter_In. split; [|done].
          rewrite Hlogs in Hin. unfold objects in Hin. apply in_map_iff in Hin.
          by destruct Hin as (x & [= ->] & Hx). }
        congruence.
    + split; [|intros _; by eexists]. intros _. right.
      apply actions_None in Hnames as (entry & Hin & Hnone).
      apply filter_In in Hin as [Hin Hrecent]. exists entry.
      split; [|done]. rewrite Hlogs. unfold objects. apply in_map_iff. by exists entry.
  - split; [|intros _; by eexists]. intros _. left. by apply all_objects_None.
Qed.

(** X22 (clearLogs, getLogs, getStats, saveLog): [clearLogs] removes the
    persisted log and drops the cache, so whatever was cached and however
    fresh it was, the next [getLogs] answers the empty list, [getStats]
    counts nothing, and the next [saveLog] starts a log that holds the new
    entry alone (when the store accepts it). *)
Theorem clearLogs_starts_afresh
        (br : Browser) (timeWindow : Z) (logEntry : jsobj) (s : Logger) :
  let s' := clearLogs s in
  getItem (storage s') STORAGE_KEY = None
  /\ fst (fst (getLogs br s')) = VArr []
  /\ fst (getStats br timeWindow s') = Normal noStats
  /\ (setItemError br (items (storage s')) STORAGE_KEY (Json (VArr [Some logEntry])) = None ->
      getItem (storage (saveLog br logEntry s')) STORAGE_KEY
      = Some (Json (VArr [Some logEntry]))).
Proof.
  cbv zeta.
  assert (Hnone : getItem (storage (clearLogs s)) STORAGE_KEY = None).
  { unfold clearLogs, getItem, removeItem. cbn [storage items]. apply lookup_delete_eq. }
  assert (Hlogs : getLogs br (clearLogs s)
                  = (VArr [], true, mkLogger (VArr []) (now br) (storage (clearLogs s)))).
  { unfold getLogs. rewrite Hnone. done. }
  split; [done|]. split; [by rewrite Hlogs|]. split.
  - unfold getStats. by rewrite Hlogs.
  - intros Hset. apply (saveLog_stores br logEntry (clearLogs s) []); [by rewrite Hlogs|done].
Qed.

Lemma clearLogs_starts_afresh_witness :
  setItemError (browserAt 9) (items (storage (clearLogs (loggerWith (logsUpTo 3)))))
               STORAGE_KEY (Json (VArr [Some (logEntryAt 9)])) = None
  /\ getItem (storage (saveLog (browserAt 9) (logEntryAt 9)
                               (clearLogs (loggerWith (logsUpTo 3))))) STORAGE_KEY
     = Some (Json (VArr [Some (logEntryAt 9)])).
Proof.
  split; [done|].
  exact (proj2 (proj2 (proj2 (clearLogs_starts_afresh (browserAt 9) 3600000 (logEntryAt 9)
                                                      (loggerWith (logsUpTo 3)))))
               eq_refl).
Defined.

(** X30 (saveLog, getLogs, with cleanupSecurityLogs and emergencyCleanup):
    while the logger's cache is fresh (younger than 5 s), [saveLog] builds
    the log from the cache, not from [localStorage]: whatever another part
    of the page did to the stored log meanwhile, be it the sweep or the
    emergency cleanup, the next [saveLog] persists the cached entries (the
    last 100 of them, with the new one), so entries removed from the store
    come back. *)
Theorem saveLog_writes_back_the_cache
        (br : Browser) (logEntry : jsobj) (s : Logger) (l : list (option jsobj))
        (ls : Storage) :
  _cache s = VArr l ->
  (now br - _cacheTime s < _cacheDuration)%Z ->
  let s' := mkLogger (_cache s) (_cacheTime s) ls in
  fst (fst (getLogs br s')) = VArr l
  /\ (setItemError br (items ls) STORAGE_KEY (Json (VArr (trim (l ++ [Some logEntry])))) = None ->
      getItem (storage (saveLog br logEntry s')) STORAGE_KEY
      = Some (Json (VArr (trim (l ++ [Some logEntry]))))
      /\ forall member, In member l -> (length l < MAX_LOGS)%nat ->
                        In member (trim (l ++ [Some logEntry]))).
Proof.
  intros Hcache Hfresh. cbv zeta.
  assert (Hlogs : fst (fst (getLogs br (mkLogger (_cache s) (_cacheTime s) ls))) = VArr l).
  { unfold getLogs. cbn [_cache _cacheTime]. rewrite Hcache. cbn [truthy andb].
    by rewrite (proj2 (Z.ltb_lt _ _) Hfresh). }
  split; [done|]. intros Hset. split.
  - by apply (saveLog_stores br logEntry _ l Hlogs).
  - intros member Hin Hlen. rewrite trim_drop. rewrite length_app. cbn [length].
    replace (length l + 1 - MAX_LOGS)%nat with 0%nat by (unfold MAX_LOGS in *; lia).
    cbn [drop]. apply in_or_app. by left.
Qed.

Lemma saveLog_writes_back_the_cache_witness :
  (now (browserAt 2000) - _cacheTime (mkLogger (VArr (logsUpTo 2)) 1000 emptyStorage)
   < _cacheDuration)%Z
  /\ getItem (storage (saveLog (browserAt 2000) (logEntryAt 2000)
                               (mkLogger (VArr (logsUpTo 2)) 1000
                                         (StorageManager.emergencyCleanup
                                            (browserAt 2000)
                                            (storage (loggerWith (logsUpTo 2)))))))
             STORAGE_KEY
     = Some (Json (VArr (logsUpTo 2 ++ [Some (logEntryAt 2000)]))).
Proof.
  assert (Hfresh : (now (browserAt 2000)
                    - _cacheTime (mkLogger (VArr (logsUpTo 2)) 1000 emptyStorage)
                    < _cacheDuration)%Z) by (vm_compute; reflexivity).
  split; [exact Hfresh|].
  exact (proj1 (proj2 (saveLog_writes_back_the_cache
                         (browserAt 2000) (logEntryAt 2000)
                         (mkLogger (VArr (logsUpTo 2)) 1000 emptyStorage) (logsUpTo 2)
                         (StorageManager.emergencyCleanup (browserAt 2000)
                                                          (storage (loggerWith (logsUpTo 2))))
                         eq_refl Hfresh) eq_refl)).
Defined.

End SecurityLogger.

(** ** The console manager *)

Section Console.
Import ConsoleManager.

Lemma scan_grows (tag msg : string) (patterns : list string) (seen : gset string) :
  seen ⊆ snd (scan tag msg patterns seen).
Proof.
  revert seen. induction patterns as [|pattern rest IH]; intros seen; cbn [scan]; [done|].
  destruct (str_includes msg pattern); [|apply IH].
  destruct (bool_decide _); [done|].
  etrans; [|apply IH]. apply union_subseteq_r.
Qed.

Lemma scan_keys (tag msg : string) (patterns : list string) (seen : gset string) (k : string) :
  k ∈ snd (scan tag msg patterns seen) ->
  k ∈ seen \/ exists pattern, In pattern patterns /\ k = (tag ++ substring 0 20 pattern)%string.
Proof.
  revert seen. induction patterns as [|pattern rest IH]; intros seen; cbn [scan]; [by left|].
  destruct (str_includes msg pattern).
  - destruct (bool_decide _); [by left|].
    intros Hk. apply IH in Hk as [Hk|(p & Hp & ->)].
    + apply elem_of_union in Hk as [Hk|Hk]; [|by left].
      apply elem_of_singleton in Hk as ->. right. exists pattern. split; [by left|done].
    + right. exists p. split; [by right|done].
  - intros Hk. apply IH in Hk as [Hk|(p & Hp & ->)]; [by left|].
    right. exists p. split; [by right|done].
Qed.

(** A message that matches: either the loop returns early, or the key of
    the first matching pattern is in the set afterwards. *)
Lemma scan_remembers (tag msg : string) (patterns : list string) (seen : gset string) :
  matchesSome patterns msg ->
  exists pattern, In pattern patterns
                  /\ (tag ++ substring 0 20 pattern)%string ∈ snd (scan tag msg patterns seen)
                  /\ forall seen', (tag ++ substring 0 20 pattern)%string ∈ seen' ->
                                   fst (scan tag msg patterns seen') = true.
Proof.
  intros (p & Hp & Hmatch). revert seen.
  induction patterns as [|pattern rest IH]; intros seen; [by destruct Hp|].
  cbn [scan]. destruct (str_includes msg pattern) eqn:Hinc.
  - exists pattern. split; [by left|]. split.
    + destruct (bool_decide _) eqn:Hseen; [by apply bool_decide_eq_true in Hseen|].
      apply scan_grows. apply elem_of_union_l. by apply elem_of_singleton.
    + intros seen' Hk. by rewrite bool_decide_eq_true_2.
  - destruct Hp as [->|Hp]; [congruence|].
    destruct (IH Hp seen) as (q & Hq & Hin & Hagain).
    exists q. split; [by right|]. split; [done|]. exact Hagain.
Qed.

Lemma say_patterns (c : consoleCall) (m : Manager) :
  suppressPatterns (say c m) = suppressPatterns m.
Proof.
  destruct c as [msg|msg]; cbn [say]; unfold console_error, console_warn;
    by destruct (scan _ msg _ _) as [[] seen].
Qed.

Lemma say_grows (c : consoleCall) (m : Manager) :
  suppressedErrors m ⊆ suppressedErrors (say c m).
Proof.
  destruct c as [msg|msg]; cbn [say]; unfold console_error, console_warn.
  - pose proof (scan_grows EmptyString msg (suppressPatterns m) (suppressedErrors m)) as H.
    by destruct (scan _ msg _ _) as [[] seen].
  - pose proof (scan_grows "w-" msg (suppressPatterns m) (suppressedErrors m)) as H.
    by destruct (scan _ msg _ _) as [[] seen].
Qed.

Lemma sayAll_keeps (calls : list consoleCall) (m : Manager) :
  suppressPatterns (sayAll calls m) = suppressPatterns m
  /\ suppressedErrors m ⊆ suppressedErrors (sayAll calls m).
Proof.
  revert m. induction calls as [|c calls IH]; intros m; [done|].
  cbn [sayAll foldl]. destruct (IH (say c m)) as [Hp Hs]. split.
  - unfold sayAll in Hp. by rewrite Hp, say_patterns.
  - etrans; [apply say_grows|apply Hs].
Qed.

Lemma say_scan (c : consoleCall) (m : Manager) :
  suppressedErrors (say c m)
  = snd (scan (tagOf c) (said c) (suppressPatterns m) (suppressedErrors m))
  /\ output (say c m)
     = if fst (scan (tagOf c) (said c) (suppressPatterns m) (suppressedErrors m))
       then output m else output m ++ [shown c].
Proof.
  destruct c as [msg|msg]; cbn [say tagOf said shown]; unfold console_error, console_warn;
    by destruct (scan _ msg _ _) as [[] seen].
Qed.

(** X23 (console.error and console.warn overrides): a message that
    contains one of the suppress patterns reaches the original console at
    most once per method: once [console.error] (or [console.warn]) has been
    called with it, every later call of the same method with the same
    message shows nothing, whatever other errors and warnings came in
    between. *)
Theorem repeated_message_is_suppressed
        (c : consoleCall) (calls : list consoleCall) (m : Manager) :
  matchesSome (suppressPatterns m) (said c) ->
  let later := sayAll calls (say c m) in
  output (say c later) = output later.
Proof.
  intros Hmatch later.
  destruct (scan_remembers (tagOf c) (said c) (suppressPatterns m) (suppressedErrors m) Hmatch)
    as (pattern & _ & Hkey & Hagain).
  destruct (sayAll_keeps calls (say c m)) as [Hp Hs]. fold later in Hp, Hs.
  rewrite say_patterns in Hp.
  destruct (say_scan c later) as [_ ->]. rewrite Hp, Hagain; [done|].
  apply Hs. by rewrite (proj1 (say_scan c m)).
Qed.

Lemma repeated_message_is_suppressed_witness :
  matchesSome (suppressPatterns create) (said (SayError "Error getting bookings: offline"))
  /\ output (sayAll [SayError "Error getting bookings: offline";
                     SayWarn "Error getting bookings: offline";
                     SayError "Error getting bookings: offline"] create)
     = [(ChError, "Error getting bookings: offline");
        (ChWarn, "Error getting bookings: offline")].
Proof.
  assert (H : matchesSome (suppressPatterns create)
                          (said (SayError "Error getting bookings: offline"))).
  { exists "Error getting bookings". split; [|done]. cbn. tauto. }
  split; [exact H|].
  pose proof (repeated_message_is_suppressed
                (SayError "Error getting bookings: offline")
                [SayWarn "Error getting bookings: offline"] create H) as Hrep.
  cbv zeta in Hrep. change (sayAll _ create) with
    (say (SayError "Error getting bookings: offline")
         (sayAll [SayWarn "Error getting bookings: offline"]
                 (say (SayError "Error getting bookings: offline") create))).
  rewrite Hrep. by vm_compute.
Defined.

(** X24 (overrides, enableVerboseMode): a message that contains none of
    the patterns always reaches the original console and leaves the
    manager's memory as it is; and after [enableVerboseMode] this holds for
    every message: nothing is suppressed any more. *)
Theorem unmatched_messages_pass (c : consoleCall) (calls : list consoleCall) (m : Manager) :
  ((forall pattern, In pattern (suppressPatterns m) -> str_includes (said c) pattern = false) ->
   say c m = mkManager (suppressedErrors m) (suppressPatterns m) (output m ++ [shown c]))
  /\ sayAll calls (enableVerboseMode m) = mkManager ∅ [] (output m ++ map shown calls).
Proof.
  split.
  - intros Hnone.
    assert (Hscan : forall tag patterns seen,
               (forall pattern, In pattern patterns -> str_includes (said c) pattern = false) ->
               scan tag (said c) patterns seen = (false, seen)).
    { intros tag patterns. induction patterns as [|p rest IH]; intros seen Hp; [done|].
      cbn [scan]. rewrite Hp by by left. apply IH. intros q Hq. apply Hp. by right. }
    destruct c as [msg|msg]; cbn [say said shown] in *; unfold console_error, console_warn;
      by rewrite Hscan.
  - unfold enableVerboseMode. generalize (output m). intros out. revert out.
    induction calls as [|c' calls IH]; intros out.
    + cbn. by rewrite app_nil_r.
    + cbn [sayAll foldl map]. destruct c' as [msg|msg]; cbn [say shown];
        unfold console_error, console_warn; cbn [scan suppressPatterns suppressedErrors output];
        unfold sayAll in IH; rewrite IH; by rewrite <- app_assoc.
Qed.

Lemma sayAll_keys (calls : list consoleCall) (m : Manager) (k : string) :
  k ∈ suppressedErrors (sayAll calls m) ->
  k ∈ suppressedErrors m \/ In k (patternKeys (suppressPatterns m)).
Proof.
  revert m. induction calls as [|c calls IH]; intros m; [by left|].
  cbn [sayAll foldl]. intros Hk. apply IH in Hk. rewrite say_patterns in Hk.
  destruct Hk as [Hk|Hk]; [|by right].
  rewrite (proj1 (say_scan c m)) in Hk. apply scan_keys in Hk as [Hk|(p & Hp & ->)]; [by left|].
  right. unfold patternKeys. apply in_or_app.
  destruct c; cbn [tagOf]; [left|right]; apply in_map_iff; by exists p.
Qed.

(** X25 (getErrorStats): [suppressedCount] is the number of pattern keys
    that have been seen, not the number of messages that were suppressed:
    from a fresh manager it never exceeds twice the number of patterns (24
    for the built-in list), however many messages are swallowed. *)
Theorem suppressedCount_is_bounded (calls : list consoleCall) :
  (suppressedCount (sayAll calls create) <= 24)%nat
  /\ forall k, k ∈ suppressedErrors (sayAll calls create) -> In k (patternKeys defaultPatterns).
Proof.
  assert (Hkeys : forall k, k ∈ suppressedErrors (sayAll calls create) ->
                            In k (patternKeys defaultPatterns)).
  { intros k Hk. apply sayAll_keys in Hk as [Hk|Hk]; [|done].
    cbn in Hk. by apply elem_of_empty in Hk. }
  split; [|done].
  assert (Hsub : suppressedErrors (sayAll calls create)
                 ⊆ list_to_set (patternKeys defaultPatterns)).
  { intros k Hk. apply elem_of_list_to_set, list_elem_of_In. by apply Hkeys. }
  unfold suppressedCount. etrans; [apply (subseteq_size _ _ Hsub)|].
  by vm_compute.
Qed.

(** An instance: three swallowed repetitions, one key. *)
Example suppressedCount_counts_keys :
  let m := sayAll [SayError "Permission denied"; SayError "Permission denied";
                   SayError "Permission denied"; SayError "Permission denied"] create in
  output m = [(ChError, "Permission denied")] /\ suppressedCount m = 1%nat.
Proof. by vm_compute. Qed.

End Console.

(** ** The status helpers of the customer dashboard *)

Section Statuses.
Import Customer.

Lemma removeWhitespace_spaceless (s : string) : spaceless (removeWhitespace s).
Proof.
  induction s as [|c s IH]; [done|]. cbn [removeWhitespace].
  destruct (isWhitespace c) eqn:Hc; [done|]. by split.
Qed.

Lemma removeWhitespace_id (s : string) : spaceless s -> removeWhitespace s = s.
Proof.
  induction s as [|c s IH]; [done|]. intros [Hc Hs]. cbn [removeWhitespace].
  by rewrite Hc, IH.
Qed.

Lemma lower_ascii_again (c : ascii) : lower_ascii (lower_ascii c) = lower_ascii c.
Proof. destruct c as [[] [] [] [] [] [] [] []]; by vm_compute. Qed.

Lemma lower_ascii_whitespace (c : ascii) : isWhitespace (lower_ascii c) = isWhitespace c.
Proof. destruct c as [[] [] [] [] [] [] [] []]; by vm_compute. Qed.

Lemma toLowerCase_spaceless (s : string) : spaceless s -> spaceless (toLowerCase s).
Proof.
  induction s as [|c s IH]; [done|]. intros [Hc Hs]. cbn [toLowerCase spaceless].
  rewrite lower_ascii_whitespace. split; [done|by apply IH].
Qed.

Lemma toLowerCase_removeWhitespace (s : string) :
  toLowerCase (removeWhitespace (toLowerCase s)) = removeWhitespace (toLowerCase s).
Proof.
  induction s as [|c s IH]; [done|]. cbn [toLowerCase removeWhitespace].
  destruct (isWhitespace (lower_ascii c)); [done|].
  cbn [toLowerCase]. by rewrite lower_ascii_again, IH.
Qed.

Lemma normalizeStatus_spaceless (status : option string) : spaceless (normalizeStatus status).
Proof. apply removeWhitespace_spaceless. Qed.

(** X26 (normalizeStatus, isInProgressStatus, isBookingFeePaid): a
    normalised status contains no white space and normalising it again
    changes nothing.  Hence the second comparison of [isInProgressStatus]
    (with ["in progress"]) can never hold: a status is in progress exactly
    when it normalises to ["inprogress"]; and every status in progress
    counts as one whose booking fee is paid. *)
Theorem normalizeStatus_is_canonical (status : option string) :
  spaceless (normalizeStatus status)
  /\ normalizeStatus (Some (normalizeStatus status)) = normalizeStatus status
  /\ (isInProgressStatus status = true <-> normalizeStatus status = "inprogress")
  /\ (isInProgressStatus status = true -> isBookingFeePaid status = true)
  /\ isInProgressStatus (Some (normalizeStatus status)) = isInProgressStatus status
  /\ isBookingFeePaid (Some (normalizeStatus status)) = isBookingFeePaid status.
Proof.
  assert (Hagain : normalizeStatus (Some (normalizeStatus status)) = normalizeStatus status).
  { unfold normalizeStatus. cbn [from_option]. unfold Datatypes.id.
    rewrite toLowerCase_removeWhitespace.
    apply removeWhitespace_id, removeWhitespace_spaceless. }
  assert (Hnot : String.eqb (normalizeStatus status) "in progress" = false).
  { apply String.eqb_neq. intros Heq.
    pose proof (normalizeStatus_spaceless status) as Hs. rewrite Heq in Hs.
    cbn in Hs. destruct Hs as (_ & _ & Hsp & _). discriminate. }
  assert (Hiff : isInProgressStatus status = true <-> normalizeStatus status = "inprogress").
  { unfold isInProgressStatus. cbv zeta. rewrite Hnot, orb_false_r. apply String.eqb_eq. }
  split; [apply normalizeStatus_spaceless|]. split; [done|]. split; [done|]. split.
  - intros H. apply Hiff in H. unfold isBookingFeePaid. cbv zeta. by rewrite H.
  - unfold isInProgressStatus, isBookingFeePaid. cbv zeta. by rewrite Hagain.
Qed.

Lemma normalizeStatus_is_canonical_witness :
  isInProgressStatus (Some "In Progress") = true
  /\ isBookingFeePaid (Some "In Progress") = true.
Proof.
  assert (H : isInProgressStatus (Some "In Progress") = true) by done.
  split; [exact H|].
  exact (proj1 (proj2 (proj2 (proj2 (normalizeStatus_is_canonical (Some "In Progress"))))) H).
Defined.

(** Two spellings of one status: the hyphenated one is not recognised. *)
Example hyphenated_status_is_not_recognised :
  getCustomerStatusClass (Some "In Progress") = "badge-inprogress"
  /\ getCustomerStatusClass (Some "in-progress") = "badge-gray".
Proof. by vm_compute. Qed.

End Statuses.

(** ** The global loader *)

Section GlobalLoader.
Import LoadingManager.

Lemma hideGlobalLoader_clears (m : Manager) :
  tidy m ->
  overlays (hideGlobalLoader m) = []
  /\ (globalLoader ∉ activeLoaders (hideGlobalLoader m))
  /\ pending (hideGlobalLoader m) = ∅
  /\ loadingTimeouts (hideGlobalLoader m) !! globalLoader = None
  /\ issued (hideGlobalLoader m) = issued m.
Proof.
  intros (Hlen & _ & Hpending & _). unfold hideGlobalLoader, clearTimeout.
  cbn [loadingTimeouts].
  assert (Htail : tail (overlays m) = []).
  { destruct (overlays m) as [|o [|o' rest]]; [done|done|]. cbn in Hlen. lia. }
  assert (Hgone : globalLoader ∉ activeLoaders m ∖ {[ globalLoader ]}).
  { intros Hin. apply elem_of_difference in Hin as [_ Hin]. apply Hin.
    by apply elem_of_singleton. }
  destruct (loadingTimeouts m !! globalLoader) as [timeoutId|] eqn:Hreg;
    cbn [overlays activeLoaders pending loadingTimeouts issued].
  - split; [done|]. split; [done|]. split; [|split; [apply lookup_delete_eq|done]].
    apply set_eq. intros t. split; [|intros Ht; by apply elem_of_empty in Ht].
    intros Ht. apply elem_of_difference in Ht as [Ht Hne].
    apply Hpending in Ht. injection Ht as ->. destruct Hne. by apply elem_of_singleton.
  - split; [done|]. split; [done|]. split; [|done].
    apply set_eq. intros t. split; [|intros Ht; by apply elem_of_empty in Ht].
    intros Ht. apply Hpending in Ht. discriminate.
Qed.

Lemma tidy_cleared (m : Manager) :
  overlays m = [] -> globalLoader ∉ activeLoaders m -> pending m = ∅ ->
  loadingTimeouts m !! globalLoader = None -> tidy m.
Proof.
  intros Ho Ha Hp Hr. unfold tidy. rewrite Ho, Hp, Hr. split; [cbn; lia|].
  split; [split; [done|by intros []]|]. split; [|done].
  intros t Ht. by apply elem_of_empty in Ht.
Qed.

Lemma hideGlobalLoader_tidy (m : Manager) : tidy m -> tidy (hideGlobalLoader m).
Proof.
  intros Hm. destruct (hideGlobalLoader_clears m Hm) as (Ho & Ha & Hp & Hr & _).
  by apply tidy_cleared.
Qed.

Lemma showGlobalLoader_shows (message : string) (timeout : Z) (m : Manager) :
  tidy m ->
  let m' := snd (showGlobalLoader message timeout m) in
  overlays m' = [message]
  /\ globalLoader ∈ activeLoaders m'
  /\ pending m' = (if (0 <? timeout)%Z then {[ S (issued m) ]} else ∅)
  /\ loadingTimeouts m' !! globalLoader
     = (if (0 <? timeout)%Z then Some (S (issued m)) else None).
Proof.
  intros Hm. cbv zeta.
  destruct (hideGlobalLoader_clears m Hm) as (Ho & Ha & Hp & Hr & Hi).
  unfold showGlobalLoader. cbn [issued]. rewrite Ho, Hp, Hi.
  destruct (0 <? timeout)%Z; cbn [snd overlays activeLoaders pending loadingTimeouts].
  - split; [done|]. split; [apply elem_of_union_l; by apply elem_of_singleton|].
    split; [apply union_empty_r_L|]. apply lookup_insert_eq.
  - split; [done|]. split; [apply elem_of_union_l; by apply elem_of_singleton|]. done.
Qed.

Lemma showGlobalLoader_tidy (message : string) (timeout : Z) (m : Manager) :
  tidy m -> tidy (snd (showGlobalLoader message timeout m)).
Proof.
  intros Hm. destruct (showGlobalLoader_shows message timeout m Hm) as (Ho & Ha & Hp & Hr).
  cbv zeta in *. unfold tidy. rewrite Ho, Hp, Hr. split; [cbn; lia|].
  split; [done|]. destruct (0 <? timeout)%Z.
  - split; [|done]. intros t Ht. apply elem_of_singleton in Ht. by subst.
  - split; [|done]. intros t Ht. by apply elem_of_empty in Ht.
Qed.

Lemma timerFires_tidy (timeoutId : nat) (m : Manager) : tidy m -> tidy (timerFires timeoutId m).
Proof.
  intros Hm. unfold timerFires. destruct (bool_decide (timeoutId ∈ pending m)); [|done].
  apply hideGlobalLoader_tidy. destruct Hm as (Hlen & Hact & Hpending & Hreg).
  unfold tidy. cbn [overlays activeLoaders pending loadingTimeouts].
  split; [done|]. split; [done|]. split; [|done].
  intros t Ht. apply Hpending. by apply elem_of_difference in Ht as [Ht _].
Qed.

Lemma occurAll_tidy (events : list loaderEvent) (m : Manager) :
  tidy m -> tidy (occurAll events m).
Proof.
  revert m. induction events as [|e events IH]; intros m Hm; [done|].
  cbn [occurAll foldl]. apply IH. destruct e as [message timeout| |timeoutId]; cbn [occur].
  - by apply showGlobalLoader_tidy.
  - by apply hideGlobalLoader_tidy.
  - by apply timerFires_tidy.
Qed.

(** X28 (showGlobalLoader, hideGlobalLoader, clearTimeout): however shows,
    hides and timers coming due interleave, the document holds at most one
    global loader, and the only timer that can be pending is the one of
    the loader on display.  So showing a loader replaces the one before it
    and cancels its timer (an earlier show's timer can never hide a later
    loader), and hiding leaves no overlay and no timer behind. *)
Theorem global_loader_stays_tidy (events : list loaderEvent) :
  let m := occurAll events create in
  tidy m
  /\ (forall message timeout,
        let m' := snd (showGlobalLoader message timeout m) in
        overlays m' = [message]
        /\ pending m' = (if (0 <? timeout)%Z then {[ S (issued m) ]} else ∅))
  /\ overlays (hideGlobalLoader m) = []
  /\ pending (hideGlobalLoader m) = ∅
  /\ (globalLoader ∉ activeLoaders (hideGlobalLoader m)).
Proof.
  cbv zeta.
  assert (Hm : tidy (occurAll events create)).
  { apply occurAll_tidy, tidy_cleared; try done. }
  split; [done|]. split.
  - intros message timeout.
    by destruct (showGlobalLoader_shows message timeout _ Hm) as (Ho & _ & Hp & _).
  - by destruct (hideGlobalLoader_clears _ Hm) as (Ho & Ha & Hp & _).
Qed.

(** An instance: the timer of the first loader comes due after the second
    one is up, and does nothing. *)
Example stale_timer_does_not_hide :
  overlays (occurAll [ShowGlobal "Loading admin dashboard..." 10000;
                      ShowGlobal "Loading data..." 10000;
                      LoaderTimerDue 1] create)
  = ["Loading data..."].
Proof. by vm_compute. Qed.

End GlobalLoader.
